(** * Gateway: block processor, bridge and client handler

    A shallow embedding of three parts of the gateway:
    - [services/block_processor.go]: compression of blocks into broadcast
      messages and back, with the processed-blocks deduplication window;
    - the channel based bridge ([BxBridge]) between the blockchain workers
      and the BDN workers;
    - [servers/clienthandler.go]: the JSON-RPC [unsubscribe], [blxr_tx] and
      [blxr_batch_tx] handlers and the next-validator router.

    Conventions.  Go integers are [Z] with the wrap-around written where the
    source converts between widths; [[]byte] is [list Z]; a [(value, error)]
    return is an [option] or a tuple with an [option Error]; a Go map is a
    [gmap]; [time.Time] and [time.Duration] are nanoseconds in [Z], and the
    wall clock read by [time.Now()] is an explicit argument [now]. *)

From Stdlib Require Import ZArith List Bool Lia String.
From stdpp Require Import base decidable numbers option list gmap strings.
Import ListNotations.
Local Open Scope Z_scope.

(** ** Shared data model ([types] package) *)

Abbreviation bytes := (list Z).

(** [types.SHA256Hash] is a [[32]byte]; it is kept as the number its bytes
    spell.  [hash.String()], the hexadecimal rendering used as a map key, is
    injective, so maps keyed by it are keyed by the hash here. *)
Abbreviation SHA256Hash := N.
Definition EmptyHash : SHA256Hash := 0%N.
Definition hash_Empty (h : SHA256Hash) : bool := N.eqb h EmptyHash.

Abbreviation ShortID := N.
Abbreviation ShortIDList := (list N).
Abbreviation NetworkNum := Z.

Inductive BxBlockType :=
| BxBlockTypeUnknown
| BxBlockTypeEth
| BxBlockTypeBeaconPhase0
| BxBlockTypeBeaconAltair
| BxBlockTypeBeaconBellatrix
| BxBlockTypeBeaconCapella.

Definition isBeacon (t : BxBlockType) : bool :=
  match t with
  | BxBlockTypeBeaconPhase0 | BxBlockTypeBeaconAltair
  | BxBlockTypeBeaconBellatrix | BxBlockTypeBeaconCapella => true
  | _ => false
  end.

(** A transaction inside a block: [NewBxBlockTransaction hash content] and
    [NewRawBxBlockTransaction content] (no hash recorded). *)
Record BxBlockTransaction := NewBxBlockTransaction {
  btx_Hash : SHA256Hash;
  btx_Content : bytes
}.
Definition NewRawBxBlockTransaction (content : bytes) : BxBlockTransaction :=
  NewBxBlockTransaction EmptyHash content.

(** [types.BxBlock]; the constructor takes the arguments of [NewRawBxBlock]
    in the source's order.  [TotalDifficulty] is a [*big.Int] that beacon
    blocks leave [nil]. *)
Record BxBlock := NewRawBxBlock {
  blk_Hash : SHA256Hash;
  blk_BeaconHash : SHA256Hash;
  blk_Type : BxBlockType;
  Header : bytes;
  Txs : list BxBlockTransaction;
  Trailer : bytes;
  TotalDifficulty : option Z;
  Number : Z;
  blk_size : Z
}.

(** Fixed-width conversions. *)
Definition two64 : Z := 2 ^ 64.
Definition to_uint64 (x : Z) : Z := x mod two64.
Definition to_int64 (x : Z) : Z :=
  let u := x mod two64 in if u <? 2 ^ 63 then u else u - two64.
Definition to_uint16 (x : Z) : Z := x mod 2 ^ 16.

(** [Uint64] of a [big.Int]: the low 64 bits of the absolute value. *)
Definition bigInt_Uint64 (x : Z) : Z := Z.abs x mod two64.

(** [Int64] of a [big.Int]: the same bits as an [int64], negated when the
    number is negative. *)
Definition bigInt_Int64 (x : Z) : Z :=
  let v := to_int64 (bigInt_Uint64 x) in
  if x <? 0 then to_int64 (- v) else v.

Module BlockProcessor.

(** ** Errors *)

Inductive Error :=
| ErrAlreadyProcessed
| ErrMissingShortIDs
| ErrUnknownBlockType
| ErrNotCompitableBeaconBlock
| ErrBadBlock   (* "could not decompress bad block: more empty transactions
                   than short IDs provided" *)
| ErrCodec.     (* an error returned by the RLP or SSZ codec *)

(** ** The transaction store, as the processor consumes it *)

Record BxTransaction := {
  tx_Hash : SHA256Hash;
  tx_Content : bytes;
  tx_ShortIDs : ShortIDList;
  tx_AddTime : Z
}.

(** [Get] returns [(tx, ok)]; [GetTxByShortID] returns [(tx, err)], with
    [Some] standing for [err == nil]. *)
Record TxStore := {
  Get : SHA256Hash -> option BxTransaction;
  GetTxByShortID : ShortID -> option BxTransaction
}.

(** ** The processed-blocks history *)

(** Modelled from the spec: [HashHistory] ([NewHashHistory], [Add],
    [Exists]) is not among the sources.  Section 4.A: [Exists] returns true
    iff an [Add key ttl] happened with [now < addedAt + ttl].  The map keeps
    the expiration time of each key; the background sweep only drops
    entries that [Exists] already rejects. *)
Abbreviation HashHistory := (gmap N Z).

Definition hh_Add (now : Z) (key : SHA256Hash) (ttl : Z) (hh : HashHistory)
  : HashHistory := <[key := now + ttl]> hh.

Definition hh_Exists (now : Z) (key : SHA256Hash) (hh : HashHistory) : bool :=
  match hh !! key with
  | Some expiration => now <? expiration
  | None => false
  end.

Definition Minute : Z := 60 * 1000000000.

(** ** Envelopes and the broadcast message *)

Record bxCompressedTransaction := {
  IsFullTransaction : bool;
  Transaction : bytes
}.

Record bxBlockSSZ := {
  ssz_Block : bytes;
  ssz_Txs : list bxCompressedTransaction;
  ssz_Number : Z          (* uint64 *)
}.

Record bxBlockRLP := {
  rlp_Header : bytes;
  rlp_Txs : list bxCompressedTransaction;
  rlp_Trailer : bytes;
  rlp_TotalDifficulty : option Z;
  rlp_Number : Z
}.

Record Broadcast := NewBlockBroadcast {
  bc_Hash : SHA256Hash;
  bc_BeaconHash : SHA256Hash;
  bc_BlockType : BxBlockType;
  bc_Block : bytes;
  bc_ShortIDs : ShortIDList;
  bc_NetworkNum : NetworkNum
}.

Record blockProcessor := {
  txStore : TxStore;
  processedBlocks : HashHistory
}.

Definition NewBlockProcessor (store : TxStore) : blockProcessor :=
  {| txStore := store; processedBlocks := ∅ |}.

Definition ShouldProcess (now : Z) (bp : blockProcessor) (hash : SHA256Hash)
  : bool := negb (hh_Exists now hash (processedBlocks bp)).

Definition markProcessed (now : Z) (bp : blockProcessor) (hash : SHA256Hash)
  : blockProcessor :=
  {| txStore := txStore bp;
     processedBlocks := hh_Add now hash (10 * Minute) (processedBlocks bp) |}.

(** The result triples of the two public operations. *)
Abbreviation ToResult := (option Broadcast * ShortIDList * option Error)%type.
Abbreviation FromResult := (option BxBlock * ShortIDList * option Error)%type.

(** ** Beacon transaction length accounting *)

Definition calcBeaconTransactionLength (rawTx : bytes) : Z :=
  match rawTx with
  | [] => 0
  | b0 :: _ =>
      let txLen := Z.of_nat (length rawTx) + 4 in
      if b0 <? 0xC0 then
        if b0 =? 0x80 then txLen - 2
        else if 0x80 <? b0 then
          let minus := to_int64 (bigInt_Uint64 (b0 - 0xb7)) in
          txLen - (minus + 1)
        else txLen
      else txLen
  end.

Section Processor.

(** The RLP and SSZ codecs are external; [None] is a returned error. *)
Variable rlp_EncodeToBytes : bxBlockRLP -> option bytes.
Variable rlp_DecodeBytes : bytes -> option bxBlockRLP.
Variable rlp_ListSize : Z -> Z.
Variable MarshalSSZ : bxBlockSSZ -> option bytes.
Variable UnmarshalSSZ : bytes -> option bxBlockSSZ.

(** *** Compression *)

Definition fullTx (tx : BxBlockTransaction) : bxCompressedTransaction :=
  {| IsFullTransaction := true; Transaction := btx_Content tx |}.

Definition emptyTx : bxCompressedTransaction :=
  {| IsFullTransaction := false; Transaction := [] |}.

(** The loop shared, word for word, by [newRLPBlockBroadcast] and
    [newSSZBlockBroadcast]: it returns [(txs, usedShortIDs)]. *)
Fixpoint compressTxs (store : TxStore) (maxTimestampForCompression : Z)
    (blockTxs : list BxBlockTransaction)
  : list bxCompressedTransaction * ShortIDList :=
  match blockTxs with
  | [] => ([], [])
  | tx :: rest =>
      let '(txs, usedShortIDs) :=
        compressTxs store maxTimestampForCompression rest in
      match Get store (btx_Hash tx) with
      | Some bxTransaction =>
          if tx_AddTime bxTransaction <? maxTimestampForCompression then
            match tx_ShortIDs bxTransaction with
            | shortID :: _ => (emptyTx :: txs, shortID :: usedShortIDs)
            | [] => (fullTx tx :: txs, usedShortIDs)
            end
          else (fullTx tx :: txs, usedShortIDs)
      | None => (fullTx tx :: txs, usedShortIDs)
      end
  end.

Definition rlpEnvelope (store : TxStore) (now minTxAge : Z) (block : BxBlock)
  : bxBlockRLP :=
  {| rlp_Header := Header block;
     rlp_Txs := fst (compressTxs store (now - minTxAge) (Txs block));
     rlp_Trailer := Trailer block;
     rlp_TotalDifficulty := TotalDifficulty block;
     rlp_Number := Number block |}.

Definition newRLPBlockBroadcast (now : Z) (bp : blockProcessor)
    (block : BxBlock) (networkNum : NetworkNum) (minTxAge : Z) : ToResult :=
  let usedShortIDs :=
    snd (compressTxs (txStore bp) (now - minTxAge) (Txs block)) in
  match rlp_EncodeToBytes (rlpEnvelope (txStore bp) now minTxAge block) with
  | None => (None, usedShortIDs, Some ErrCodec)
  | Some encodedBlock =>
      (Some (NewBlockBroadcast (blk_Hash block) EmptyHash (blk_Type block)
               encodedBlock usedShortIDs networkNum),
       usedShortIDs, None)
  end.

Definition sszEnvelope (store : TxStore) (now minTxAge : Z) (block : BxBlock)
  : bxBlockSSZ :=
  {| ssz_Block := Trailer block;
     ssz_Txs := fst (compressTxs store (now - minTxAge) (Txs block));
     ssz_Number := bigInt_Uint64 (Number block) |}.

Definition newSSZBlockBroadcast (now : Z) (bp : blockProcessor)
    (block : BxBlock) (networkNum : NetworkNum) (minTxAge : Z) : ToResult :=
  let usedShortIDs :=
    snd (compressTxs (txStore bp) (now - minTxAge) (Txs block)) in
  match MarshalSSZ (sszEnvelope (txStore bp) now minTxAge block) with
  | None => (None, usedShortIDs, Some ErrCodec)
  | Some encodedBlock =>
      (Some (NewBlockBroadcast (blk_Hash block) (blk_BeaconHash block)
               (blk_Type block) encodedBlock usedShortIDs networkNum),
       usedShortIDs, None)
  end.

Definition BxBlockToBroadcast (now : Z) (bp : blockProcessor)
    (block : BxBlock) (networkNum : NetworkNum) (minTxAge : Z)
  : blockProcessor * ToResult :=
  let alreadyProcessed :=
    match blk_Type block with
    | BxBlockTypeEth => negb (ShouldProcess now bp (blk_Hash block))
    | BxBlockTypeBeaconPhase0 | BxBlockTypeBeaconAltair
    | BxBlockTypeBeaconBellatrix | BxBlockTypeBeaconCapella =>
        negb (ShouldProcess now bp (blk_BeaconHash block))
    | BxBlockTypeUnknown => false
    end in
  if alreadyProcessed then (bp, (None, [], Some ErrAlreadyProcessed))
  else
    match blk_Type block with
    | BxBlockTypeUnknown => (bp, (None, [], Some ErrUnknownBlockType))
    | BxBlockTypeEth =>
        match newRLPBlockBroadcast now bp block networkNum minTxAge with
        | (_, _, Some err) => (bp, (None, [], Some err))
        | (broadcastMessage, usedShortIDs, None) =>
            (markProcessed now bp (blk_Hash block),
             (broadcastMessage, usedShortIDs, None))
        end
    | BxBlockTypeBeaconPhase0 | BxBlockTypeBeaconAltair
    | BxBlockTypeBeaconBellatrix | BxBlockTypeBeaconCapella =>
        match newSSZBlockBroadcast now bp block networkNum minTxAge with
        | (_, _, Some err) => (bp, (None, [], Some err))
        | (broadcastMessage, usedShortIDs, None) =>
            (markProcessed now bp (blk_BeaconHash block),
             (broadcastMessage, usedShortIDs, None))
        end
    end.

(** *** Expansion *)

(** The first [switch] of [BxBlockFromBroadcast]: the guards that return
    before any short ID is looked up. *)
Definition guard (now : Z) (bp : blockProcessor) (broadcast : Broadcast)
  : option Error :=
  match bc_BlockType broadcast with
  | BxBlockTypeEth =>
      if negb (ShouldProcess now bp (bc_Hash broadcast))
      then Some ErrAlreadyProcessed else None
  | BxBlockTypeBeaconPhase0 | BxBlockTypeBeaconAltair
  | BxBlockTypeBeaconBellatrix | BxBlockTypeBeaconCapella =>
      if hash_Empty (bc_BeaconHash broadcast)
      then Some ErrNotCompitableBeaconBlock
      else if negb (ShouldProcess now bp (bc_BeaconHash broadcast))
      then Some ErrAlreadyProcessed else None
  | BxBlockTypeUnknown => Some ErrUnknownBlockType
  end.

(** "looking for missing sids": [(bxTransactions, missingShortIDs)]. *)
Fixpoint lookupShortIDs (store : TxStore) (shortIDs : ShortIDList)
  : list BxTransaction * ShortIDList :=
  match shortIDs with
  | [] => ([], [])
  | sid :: rest =>
      let '(bxTransactions, missingShortIDs) := lookupShortIDs store rest in
      match GetTxByShortID store sid with
      | Some bxTransaction => (bxTransaction :: bxTransactions, missingShortIDs)
      | None => (bxTransactions, sid :: missingShortIDs)
      end
  end.

(** The loop of [newBxBlockFromRLPBroadcast]; [txsBytes] is a [uint64]. *)
Fixpoint rlpTxLoop (bxTransactions : list BxTransaction)
    (rlpTxs : list bxCompressedTransaction)
    (compressedTransactionCount : nat)
    (txs : list BxBlockTransaction) (txsBytes : Z)
  : option (list BxBlockTransaction * Z) :=
  match rlpTxs with
  | [] => Some (txs, txsBytes)
  | tx :: rest =>
      if negb (IsFullTransaction tx) then
        match bxTransactions !! compressedTransactionCount with
        | None => None
        | Some bxTx =>
            rlpTxLoop bxTransactions rest (S compressedTransactionCount)
              (txs ++ [NewBxBlockTransaction (tx_Hash bxTx) (tx_Content bxTx)])
              (to_uint64 (txsBytes + Z.of_nat (length (tx_Content bxTx))))
        end
      else
        rlpTxLoop bxTransactions rest compressedTransactionCount
          (txs ++ [NewRawBxBlockTransaction (Transaction tx)])
          (to_uint64 (txsBytes + Z.of_nat (length (Transaction tx))))
  end.

Definition newBxBlockFromRLPBroadcast (broadcast : Broadcast)
    (bxTransactions : list BxTransaction) : option BxBlock * option Error :=
  match rlp_DecodeBytes (bc_Block broadcast) with
  | None => (None, Some ErrCodec)
  | Some rlpBlock =>
      match rlpTxLoop bxTransactions (rlp_Txs rlpBlock) 0 [] 0 with
      | None => (None, Some ErrBadBlock)
      | Some (txs, txsBytes) =>
          let blockSize :=
            to_int64 (rlp_ListSize
              (to_uint64 (Z.of_nat (length (rlp_Header rlpBlock))
                          + rlp_ListSize txsBytes
                          + Z.of_nat (length (rlp_Trailer rlpBlock))))) in
          (Some (NewRawBxBlock (bc_Hash broadcast) EmptyHash
                   (bc_BlockType broadcast) (rlp_Header rlpBlock) txs
                   (rlp_Trailer rlpBlock) (rlp_TotalDifficulty rlpBlock)
                   (rlp_Number rlpBlock) blockSize),
           None)
      end
  end.

(** The loop of [newBxBlockFromSSZBroadcast]; [txsBytes] is an [int]. *)
Fixpoint sszTxLoop (bxTransactions : list BxTransaction)
    (sszTxs : list bxCompressedTransaction)
    (compressedTransactionCount : nat)
    (txs : list BxBlockTransaction) (txsBytes : Z)
  : option (list BxBlockTransaction * Z) :=
  match sszTxs with
  | [] => Some (txs, txsBytes)
  | tx :: rest =>
      if negb (IsFullTransaction tx) then
        match bxTransactions !! compressedTransactionCount with
        | None => None
        | Some bxTx =>
            sszTxLoop bxTransactions rest (S compressedTransactionCount)
              (txs ++ [NewRawBxBlockTransaction (tx_Content bxTx)])
              (txsBytes + calcBeaconTransactionLength (tx_Content bxTx))
        end
      else
        sszTxLoop bxTransactions rest compressedTransactionCount
          (txs ++ [NewRawBxBlockTransaction (Transaction tx)])
          (txsBytes + calcBeaconTransactionLength (Transaction tx))
  end.

Definition newBxBlockFromSSZBroadcast (broadcast : Broadcast)
    (bxTransactions : list BxTransaction) : option BxBlock * option Error :=
  match UnmarshalSSZ (bc_Block broadcast) with
  | None => (None, Some ErrCodec)
  | Some sszBlock =>
      match sszTxLoop bxTransactions (ssz_Txs sszBlock) 0 [] 0 with
      | None => (None, Some ErrBadBlock)
      | Some (txs, txsBytes) =>
          let blockSize := Z.of_nat (length (ssz_Block sszBlock)) + txsBytes in
          (Some (NewRawBxBlock (bc_Hash broadcast) (bc_BeaconHash broadcast)
                   (bc_BlockType broadcast) [] txs (ssz_Block sszBlock) None
                   (to_int64 (ssz_Number sszBlock)) blockSize),
           None)
      end
  end.

Definition BxBlockFromBroadcast (now : Z) (bp : blockProcessor)
    (broadcast : Broadcast) : blockProcessor * FromResult :=
  match guard now bp broadcast with
  | Some err => (bp, (None, [], Some err))
  | None =>
      let '(bxTransactions, missingShortIDs) :=
        lookupShortIDs (txStore bp) (bc_ShortIDs broadcast) in
      if (0 <? length missingShortIDs)%nat
      then (bp, (None, missingShortIDs, Some ErrMissingShortIDs))
      else
        match bc_BlockType broadcast with
        | BxBlockTypeEth =>
            match newBxBlockFromRLPBroadcast broadcast bxTransactions with
            | (block, None) =>
                (markProcessed now bp (bc_Hash broadcast),
                 (block, missingShortIDs, None))
            | (block, Some err) => (bp, (block, missingShortIDs, Some err))
            end
        | BxBlockTypeBeaconPhase0 | BxBlockTypeBeaconAltair
        | BxBlockTypeBeaconBellatrix | BxBlockTypeBeaconCapella =>
            match newBxBlockFromSSZBroadcast broadcast bxTransactions with
            | (block, None) =>
                (markProcessed now
                   (markProcessed now bp (bc_Hash broadcast))
                   (bc_BeaconHash broadcast),
                 (block, missingShortIDs, None))
            | (block, Some err) => (bp, (block, missingShortIDs, Some err))
            end
        | BxBlockTypeUnknown => (bp, (None, [], Some ErrUnknownBlockType))
        end
  end.

End Processor.

(** ** Concrete instances used to exercise the definitions *)

#[global] Instance BxBlockType_eq_dec : EqDecision BxBlockType.
Proof. solve_decision. Defined.
#[global] Instance Error_eq_dec : EqDecision Error.
Proof. solve_decision. Defined.
#[global] Instance bxCompressedTransaction_eq_dec :
  EqDecision bxCompressedTransaction.
Proof. solve_decision. Defined.
#[global] Instance bxBlockRLP_eq_dec : EqDecision bxBlockRLP.
Proof. solve_decision. Defined.
#[global] Instance bxBlockSSZ_eq_dec : EqDecision bxBlockSSZ.
Proof. solve_decision. Defined.

(** A codec that knows one envelope: it encodes [env] as the single byte
    0x2a, fails on every other envelope, and decodes 0x2a back to [env]. *)
Definition oneEncode `{EqDecision A} (env : A) (p : A) : option bytes :=
  if decide (p = env) then Some [0x2a] else None.
Definition oneDecode {A} (env : A) (b : bytes) : option A :=
  if decide (b = [0x2a]) then Some env else None.

(** A store that knows one transaction, under short ID 5. *)
Definition knownTx : BxTransaction :=
  {| tx_Hash := 7; tx_Content := [0xC0; 1; 2]; tx_ShortIDs := [5%N];
     tx_AddTime := 0 |}.
Definition store0 : TxStore :=
  {| Get := fun h => if N.eqb h 7 then Some knownTx else None;
     GetTxByShortID := fun sid => if N.eqb sid 5 then Some knownTx else None |}.

Definition ethBlock0 : BxBlock :=
  NewRawBxBlock 100 EmptyHash BxBlockTypeEth [0xF9; 1]
    [NewBxBlockTransaction 7 [0xC0; 1; 2]; NewBxBlockTransaction 8 [0x81; 9]]
    [0xC0] (Some 17) 42 0.

Definition beaconBlock0 : BxBlock :=
  NewRawBxBlock 200 201 BxBlockTypeBeaconCapella [0xF9; 1]
    [NewBxBlockTransaction 7 [0xC0; 1; 2]; NewBxBlockTransaction 8 [0x81; 9]]
    [3; 4] (Some 17) 42 0.

(** The envelopes the two blocks compress to at time 1000 with
    [minTxAge = 0], and the toy codecs built on them. *)
Definition ethEnv0 : bxBlockRLP := rlpEnvelope store0 1000 0 ethBlock0.
Definition beaconEnv0 : bxBlockSSZ := sszEnvelope store0 1000 0 beaconBlock0.

Definition toBroadcast0 :=
  BxBlockToBroadcast (oneEncode ethEnv0) (oneEncode beaconEnv0).
Definition fromBroadcast0 :=
  BxBlockFromBroadcast (oneDecode ethEnv0) (fun n => n + 1)
    (oneDecode beaconEnv0).

(** A beacon broadcast without beacon hash that names a short ID the store
    does not have. *)
Definition oldBeaconBroadcast : Broadcast :=
  NewBlockBroadcast 300 EmptyHash BxBlockTypeBeaconBellatrix [0x2a] [5%N; 9%N] 1.

(** An Eth broadcast that passes the guards and lacks short ID 9. *)
Definition ethBroadcastMissing : Broadcast :=
  NewBlockBroadcast 100 EmptyHash BxBlockTypeEth [0x2a] [9%N; 5%N; 11%N] 1.

(** The short IDs of a list that the store cannot resolve, in order. *)
Definition unresolvable (store : TxStore) (sid : ShortID) : bool :=
  match GetTxByShortID store sid with Some _ => false | None => true end.

(** "[TxStore] returns the same content for every short ID used": whenever
    the compressing store [enc] would replace a transaction of the block by
    a short ID, the expanding store [dec] resolves that short ID to a
    transaction with the same content. *)
Definition SameContent (enc dec : TxStore) (maxTimestampForCompression : Z)
    (blockTxs : list BxBlockTransaction) : Prop :=
  forall tx bxTransaction shortID others,
    In tx blockTxs ->
    Get enc (btx_Hash tx) = Some bxTransaction ->
    tx_AddTime bxTransaction < maxTimestampForCompression ->
    tx_ShortIDs bxTransaction = shortID :: others ->
    exists resolved,
      GetTxByShortID dec shortID = Some resolved
      /\ tx_Content resolved = btx_Content tx.

(** The broadcasts and blocks the two sample blocks travel through. *)
Definition ethBroadcast0 : Broadcast :=
  NewBlockBroadcast 100 EmptyHash BxBlockTypeEth [0x2a] [5%N] 1.
Definition beaconBroadcast0 : Broadcast :=
  NewBlockBroadcast 200 201 BxBlockTypeBeaconCapella [0x2a] [5%N] 1.
Definition ethBlock0' : BxBlock :=
  NewRawBxBlock 100 EmptyHash BxBlockTypeEth [0xF9; 1]
    [NewBxBlockTransaction 7 [0xC0; 1; 2]; NewRawBxBlockTransaction [0x81; 9]]
    [0xC0] (Some 17) 42 10.
Definition beaconBlock0' : BxBlock :=
  NewRawBxBlock 200 201 BxBlockTypeBeaconCapella []
    [NewRawBxBlockTransaction [0xC0; 1; 2]; NewRawBxBlockTransaction [0x81; 9]]
    [3; 4] None 42 (-40).

(** The number of placeholder entries of a compressed transaction list. *)
Definition placeholders (txs : list bxCompressedTransaction) : nat :=
  length (List.filter (fun tx => negb (IsFullTransaction tx)) txs).

(** A transaction of a block that the compression loop replaces by a short
    ID: the store knows its hash, the entry is older than the age limit,
    and it has a short ID. *)
Definition compressible (store : TxStore) (maxTimestampForCompression : Z)
    (tx : BxBlockTransaction) : bool :=
  match Get store (btx_Hash tx) with
  | Some bxTransaction =>
      (tx_AddTime bxTransaction <? maxTimestampForCompression)
      && negb (Nat.eqb (length (tx_ShortIDs bxTransaction)) 0)
  | None => false
  end.

(** The sum of the beacon lengths of a list of contents. *)
Definition beaconLengths (contents : list bytes) : Z :=
  fold_right (fun c acc => calcBeaconTransactionLength c + acc) 0 contents.

(** The sum of the lengths of a list of contents. *)
Definition contentLengths (contents : list bytes) : Z :=
  fold_right (fun c acc => Z.of_nat (length c) + acc) 0 contents.

(** The envelope of [ethBlock0] when the known transaction is too young to
    be compressed ([minTxAge] of 5000 at time 1000), and its broadcast. *)
Definition ethEnvFresh : bxBlockRLP := rlpEnvelope store0 1000 5000 ethBlock0.
Definition ethBroadcastFresh : Broadcast :=
  NewBlockBroadcast 100 EmptyHash BxBlockTypeEth [0x2a] [] 1.

Definition unknownBlock0 : BxBlock :=
  NewRawBxBlock 300 EmptyHash BxBlockTypeUnknown [] [] [] None 0 0.

(** ** Properties of the block processor *)

Section ProcessorFacts.

Variable rlp_EncodeToBytes : bxBlockRLP -> option bytes.
Variable rlp_DecodeBytes : bytes -> option bxBlockRLP.
Variable rlp_ListSize : Z -> Z.
Variable MarshalSSZ : bxBlockSSZ -> option bytes.
Variable UnmarshalSSZ : bytes -> option bxBlockSSZ.

Local Abbreviation toBroadcast :=
  (BxBlockToBroadcast rlp_EncodeToBytes MarshalSSZ).
Local Abbreviation fromBroadcast :=
  (BxBlockFromBroadcast rlp_DecodeBytes rlp_ListSize UnmarshalSSZ).

Lemma lookupShortIDs_missing (store : TxStore) (shortIDs : ShortIDList) :
  snd (lookupShortIDs store shortIDs) = List.filter (unresolvable store) shortIDs.
Proof.
  induction shortIDs as [| sid rest IH]; [reflexivity |].
  simpl. destruct (lookupShortIDs store rest) as [found missing] eqn:E.
  unfold unresolvable at 1. simpl in IH.
  destruct (GetTxByShortID store sid); simpl; congruence.
Qed.

Lemma lookupShortIDs_found (store : TxStore) (shortIDs : ShortIDList) :
  fst (lookupShortIDs store shortIDs) = omap (GetTxByShortID store) shortIDs.
Proof.
  induction shortIDs as [| sid rest IH]; [reflexivity |].
  simpl. destruct (lookupShortIDs store rest) as [found missing] eqn:E.
  unfold omap in *. simpl in *.
  destruct (GetTxByShortID store sid); simpl; congruence.
Qed.

Lemma filter_unresolvable_nonempty (store : TxStore) (shortIDs : ShortIDList) :
  (exists sid, In sid shortIDs /\ GetTxByShortID store sid = None) ->
  (0 <? length (List.filter (unresolvable store) shortIDs))%nat = true.
Proof.
  intros (sid & Hin & Hnone).
  assert (Hf : In sid (List.filter (unresolvable store) shortIDs)).
  { apply List.filter_In. split; [exact Hin |].
    unfold unresolvable. now rewrite Hnone. }
  destruct (List.filter (unresolvable store) shortIDs); [destruct Hf | reflexivity].
Qed.

(** On a fresh processor the guards stop only the unknown type and a
    beacon broadcast without beacon hash. *)
Lemma guard_NewBlockProcessor (now : Z) (store : TxStore) (broadcast : Broadcast) :
  guard now (NewBlockProcessor store) broadcast
  = match bc_BlockType broadcast with
    | BxBlockTypeUnknown => Some ErrUnknownBlockType
    | BxBlockTypeEth => None
    | _ => if hash_Empty (bc_BeaconHash broadcast)
           then Some ErrNotCompitableBeaconBlock else None
    end.
Proof.
  unfold guard, ShouldProcess, hh_Exists, NewBlockProcessor. cbn.
  rewrite !lookup_empty.
  destruct (bc_BlockType broadcast), (hash_Empty (bc_BeaconHash broadcast));
    reflexivity.
Qed.

(** C4.  A broadcast of a beacon block type whose beacon hash is empty is
    answered with [ErrNotCompitableBeaconBlock]; no block and no short IDs
    are returned and the processor, hence its processed-blocks set, is the
    one it was before the call: neither hash has been added. *)
Theorem BxBlockFromBroadcast_empty_beacon_hash
    (now : Z) (bp : blockProcessor) (broadcast : Broadcast) :
  isBeacon (bc_BlockType broadcast) = true ->
  bc_BeaconHash broadcast = EmptyHash ->
  fromBroadcast now bp broadcast
  = (bp, (None, [], Some ErrNotCompitableBeaconBlock)).
Proof.
  intros Hty Hempty. unfold BxBlockFromBroadcast, guard.
  rewrite Hempty.
  destruct (bc_BlockType broadcast); try discriminate Hty; reflexivity.
Qed.

(** C2, as amended.  When the guards of the first switch pass and at least
    one short ID of the broadcast is absent from the store, the result is
    [ErrMissingShortIDs] with no block and with exactly the unresolvable
    short IDs in the order of the broadcast's list; the processor is left
    as it was. *)
Theorem BxBlockFromBroadcast_missing_short_ids
    (now : Z) (bp : blockProcessor) (broadcast : Broadcast) :
  guard now bp broadcast = None ->
  (exists sid, In sid (bc_ShortIDs broadcast)
               /\ GetTxByShortID (txStore bp) sid = None) ->
  fromBroadcast now bp broadcast
  = (bp, (None,
          List.filter (unresolvable (txStore bp)) (bc_ShortIDs broadcast),
          Some ErrMissingShortIDs)).
Proof.
  intros Hguard Hmiss. unfold BxBlockFromBroadcast. rewrite Hguard.
  pose proof (lookupShortIDs_missing (txStore bp) (bc_ShortIDs broadcast)) as Hm.
  destruct (lookupShortIDs (txStore bp) (bc_ShortIDs broadcast))
    as [found missing]. simpl in Hm. subst missing.
  now rewrite (filter_unresolvable_nonempty _ _ Hmiss).
Qed.

(** *** The deduplication window *)

Lemma hh_Exists_Add (now now' : Z) (key : SHA256Hash) (ttl : Z)
    (hh : HashHistory) :
  now' < now + ttl -> hh_Exists now' key (hh_Add now key ttl hh) = true.
Proof.
  intros Hlt. unfold hh_Exists, hh_Add. rewrite lookup_insert_eq.
  now apply Z.ltb_lt.
Qed.

Lemma ShouldProcess_markProcessed (now now' : Z) (bp : blockProcessor)
    (hash : SHA256Hash) :
  now' < now + 10 * Minute ->
  ShouldProcess now' (markProcessed now bp hash) hash = false.
Proof.
  intros Hlt. unfold ShouldProcess, markProcessed. simpl.
  now rewrite hh_Exists_Add.
Qed.

(** A call that returns no error has marked the block's dedup key. *)
Lemma BxBlockToBroadcast_success (now : Z) (bp bp1 : blockProcessor)
    (block : BxBlock) (networkNum : NetworkNum) (minTxAge : Z)
    (broadcastMessage : option Broadcast) (usedShortIDs : ShortIDList) :
  toBroadcast now bp block networkNum minTxAge
  = (bp1, (broadcastMessage, usedShortIDs, None)) ->
  match blk_Type block with
  | BxBlockTypeUnknown => False
  | BxBlockTypeEth =>
      bp1 = markProcessed now bp (blk_Hash block)
      /\ newRLPBlockBroadcast rlp_EncodeToBytes now bp block networkNum minTxAge
         = (broadcastMessage, usedShortIDs, None)
  | _ =>
      bp1 = markProcessed now bp (blk_BeaconHash block)
      /\ newSSZBlockBroadcast MarshalSSZ now bp block networkNum minTxAge
         = (broadcastMessage, usedShortIDs, None)
  end.
Proof.
  unfold BxBlockToBroadcast. intros H.
  destruct (blk_Type block);
    repeat match type of H with
    | (if ?c then _ else _) = _ => destruct c; [discriminate H |]
    | (match ?x with _ => _ end) = _ =>
        let E := fresh "E" in destruct x as [[? ?] [?|]] eqn:E
    end;
    try discriminate H; inversion H; subst; auto.
Qed.

(** C3, as amended.  After a call of [BxBlockToBroadcast] that returned no
    error, a second call on the same block made before the entry of its
    dedup key expires (ten minutes after the first call) fails with
    [ErrAlreadyProcessed], whatever network number and minimum age it is
    given.  The key the first call marked is the hash of an Eth block and
    the beacon hash of a beacon block; a block of unknown type never
    succeeds. *)
Theorem BxBlockToBroadcast_twice
    (now now' : Z) (bp bp1 : blockProcessor) (block : BxBlock)
    (networkNum networkNum' : NetworkNum) (minTxAge minTxAge' : Z)
    (broadcastMessage : option Broadcast) (usedShortIDs : ShortIDList) :
  toBroadcast now bp block networkNum minTxAge
  = (bp1, (broadcastMessage, usedShortIDs, None)) ->
  now' < now + 10 * Minute ->
  toBroadcast now' bp1 block networkNum' minTxAge'
  = (bp1, (None, [], Some ErrAlreadyProcessed))
  /\ match blk_Type block with
     | BxBlockTypeUnknown => False
     | BxBlockTypeEth => bp1 = markProcessed now bp (blk_Hash block)
     | _ => bp1 = markProcessed now bp (blk_BeaconHash block)
     end.
Proof.
  intros Hfirst Hlt. apply BxBlockToBroadcast_success in Hfirst.
  unfold BxBlockToBroadcast.
  destruct (blk_Type block); try contradiction;
    destruct Hfirst as [-> _];
    now rewrite ShouldProcess_markProcessed.
Qed.

(** *** Compression followed by expansion *)

Lemma SameContent_tail (enc dec : TxStore) (maxTs : Z)
    (tx : BxBlockTransaction) (rest : list BxBlockTransaction) :
  SameContent enc dec maxTs (tx :: rest) -> SameContent enc dec maxTs rest.
Proof.
  intros H tx' b sid others Hin. apply H. now right.
Qed.

(** Every short ID the compression used is resolved by the other store. *)
Lemma compressTxs_resolved (enc dec : TxStore) (maxTs : Z)
    (blockTxs : list BxBlockTransaction) :
  SameContent enc dec maxTs blockTxs ->
  snd (lookupShortIDs dec (snd (compressTxs enc maxTs blockTxs))) = [].
Proof.
  induction blockTxs as [| tx rest IH]; intros Hsame; [reflexivity |].
  specialize (IH (SameContent_tail _ _ _ _ _ Hsame)).
  simpl. destruct (compressTxs enc maxTs rest) as [txs used] eqn:Erest.
  simpl in IH.
  destruct (Get enc (btx_Hash tx)) as [b |] eqn:Eget; [| exact IH].
  destruct (Z.ltb_spec (tx_AddTime b) maxTs) as [Hlt |]; [| exact IH].
  destruct (tx_ShortIDs b) as [| sid others] eqn:Esids; [exact IH |].
  destruct (Hsame tx b sid others (or_introl eq_refl) Eget Hlt Esids)
    as (r & Hr & _).
  simpl. destruct (lookupShortIDs dec used) as [found missing].
  rewrite Hr. exact IH.
Qed.

Local Ltac loop_step IH prefix :=
  simpl; rewrite ?lookup_app_r, ?Nat.sub_diag by lia; simpl;
  match goal with
  | |- context [?loop (prefix ++ ?r :: ?found) _ (S (length prefix)) _ _] =>
      replace (prefix ++ r :: found) with ((prefix ++ [r]) ++ found)
        by (now rewrite <- app_assoc);
      replace (S (length prefix)) with (length (prefix ++ [r]))
        by (rewrite length_app; simpl; lia)
  | _ => idtac
  end;
  let Hloop := fresh "Hloop" in
  let Hmap := fresh "Hmap" in
  match goal with
  | |- context [?loop (?pre ++ _) _ (length ?pre) ?acc ?n] =>
      destruct (IH pre acc n) as (? & ? & Hloop & Hmap)
  end;
  rewrite Hloop; eexists _, _; split; [reflexivity |];
  rewrite Hmap, map_app, <- app_assoc; simpl; try congruence.

Local Ltac loop_proof loop :=
  let IH := fresh "IH" in
  let Hsame := fresh "Hsame" in
  let Eget := fresh "Eget" in
  let Hlt := fresh "Hlt" in
  let Esids := fresh "Esids" in
  let Hr := fresh "Hr" in
  let enc := fresh "enc" in
  let dec := fresh "dec" in
  let maxTs := fresh "maxTs" in
  let blockTxs := fresh "blockTxs" in
  let tx := fresh "tx" in
  let rest := fresh "rest" in
  let prefix := fresh "prefix" in
  let b := fresh "b" in
  let sid := fresh "sid" in
  let others := fresh "others" in
  let used := fresh "used" in
  intros enc dec maxTs blockTxs;
  induction blockTxs as [| tx rest IH]; intros Hsame prefix ? ?;
  [ simpl; eexists _, _; split; [reflexivity | now rewrite app_nil_r] |];
  specialize (IH (SameContent_tail _ _ _ _ _ Hsame));
  cbn [compressTxs];
  destruct (compressTxs enc maxTs rest) as [? used];
  cbn [fst snd] in IH;
  destruct (Get enc (btx_Hash tx)) as [b |] eqn:Eget;
  [ destruct (Z.ltb_spec (tx_AddTime b) maxTs) as [Hlt |];
    [ destruct (tx_ShortIDs b) as [| sid others] eqn:Esids;
      [ | destruct (Hsame tx b sid others (or_introl eq_refl) Eget Hlt Esids)
            as (? & Hr & ?);
          cbn [fst snd lookupShortIDs];
          destruct (lookupShortIDs dec used) as [? ?];
          rewrite Hr; cbn [fst snd] in * ] | ] | ];
  loop_step IH prefix.

(** The expansion loops walk the compressed list and put back, in order,
    the contents the compression took out. *)
Lemma rlpTxLoop_compressTxs :
  forall (enc dec : TxStore) (maxTs : Z) (blockTxs : list BxBlockTransaction),
  SameContent enc dec maxTs blockTxs ->
  forall (prefix : list BxTransaction) (acc : list BxBlockTransaction) (n : Z),
  exists txs' n',
    rlpTxLoop
      (prefix ++ fst (lookupShortIDs dec (snd (compressTxs enc maxTs blockTxs))))
      (fst (compressTxs enc maxTs blockTxs)) (length prefix) acc n
    = Some (txs', n')
    /\ map btx_Content txs' = map btx_Content acc ++ map btx_Content blockTxs.
Proof. loop_proof rlpTxLoop. Qed.

Lemma sszTxLoop_compressTxs :
  forall (enc dec : TxStore) (maxTs : Z) (blockTxs : list BxBlockTransaction),
  SameContent enc dec maxTs blockTxs ->
  forall (prefix : list BxTransaction) (acc : list BxBlockTransaction) (n : Z),
  exists txs' n',
    sszTxLoop
      (prefix ++ fst (lookupShortIDs dec (snd (compressTxs enc maxTs blockTxs))))
      (fst (compressTxs enc maxTs blockTxs)) (length prefix) acc n
    = Some (txs', n')
    /\ map btx_Content txs' = map btx_Content acc ++ map btx_Content blockTxs.
Proof. loop_proof sszTxLoop. Qed.

Lemma to_int64_bigInt_Uint64 (n : Z) :
  0 <= n < 2 ^ 63 -> to_int64 (bigInt_Uint64 n) = n.
Proof.
  intros H. unfold to_int64, bigInt_Uint64, two64.
  rewrite Z.abs_eq by lia. rewrite Z.mod_mod by lia.
  rewrite Z.mod_small by lia.
  destruct (Z.ltb_spec n (2 ^ 63)); [reflexivity | lia].
Qed.

(** C1, as amended.  Let [BxBlockToBroadcast] with [minTxAge = 0] succeed
    on a block, let the codecs decode what they encoded, and let the
    expanding store return the same content for every short ID used.  On a
    processor whose guards let the broadcast through (its hash is not in
    the processed set and, for a beacon type, its beacon hash is not
    empty), [BxBlockFromBroadcast] returns a block and no error.  The
    sequence of transaction contents and the trailer are the original's.
    For an Eth block the header, the total difficulty and the number are
    the original's too.  For a beacon block the header comes back empty
    and the total difficulty [nil], and the number is the original's
    taken through [Uint64] and [int64]. *)
Theorem BxBlock_roundtrip
    (now now' : Z) (bp bp1 bp' : blockProcessor) (block : BxBlock)
    (networkNum : NetworkNum) (broadcast : Broadcast)
    (usedShortIDs : ShortIDList) :
  (forall env b, rlp_EncodeToBytes env = Some b -> rlp_DecodeBytes b = Some env) ->
  (forall env b, MarshalSSZ env = Some b -> UnmarshalSSZ b = Some env) ->
  toBroadcast now bp block networkNum 0
  = (bp1, (Some broadcast, usedShortIDs, None)) ->
  SameContent (txStore bp) (txStore bp') now (Txs block) ->
  guard now' bp' broadcast = None ->
  exists (block' : BxBlock) (bp2 : blockProcessor),
    fromBroadcast now' bp' broadcast = (bp2, (Some block', [], None))
    /\ map btx_Content (Txs block') = map btx_Content (Txs block)
    /\ Trailer block' = Trailer block
    /\ match blk_Type block with
       | BxBlockTypeEth =>
           Header block' = Header block
           /\ TotalDifficulty block' = TotalDifficulty block
           /\ Number block' = Number block
       | _ =>
           Header block' = []
           /\ TotalDifficulty block' = None
           /\ Number block' = to_int64 (bigInt_Uint64 (Number block))
       end.
Proof.
  intros Hrlp Hssz Hto Hsame Hguard.
  apply BxBlockToBroadcast_success in Hto.
  unfold BxBlockFromBroadcast. rewrite Hguard.
  destruct (blk_Type block) eqn:Ety; try contradiction;
    destruct Hto as [_ Hnew];
    unfold newRLPBlockBroadcast, newSSZBlockBroadcast in Hnew;
    rewrite Z.sub_0_r in Hnew;
    match type of Hnew with
    | match ?e with _ => _ end = _ =>
        destruct e as [encoded |] eqn:Eenc; [| discriminate Hnew]
    end;
    injection Hnew as <- <-; cbn [bc_ShortIDs bc_BlockType];
    pose proof (compressTxs_resolved _ _ _ _ Hsame) as Hnil;
    [ destruct (rlpTxLoop_compressTxs _ _ _ _ Hsame [] [] 0)
        as (txs' & n' & Hloop & Hmap);
      apply Hrlp in Eenc
    | destruct (sszTxLoop_compressTxs _ _ _ _ Hsame [] [] 0)
        as (txs' & n' & Hloop & Hmap);
      apply Hssz in Eenc ..];
    destruct (lookupShortIDs (txStore bp')
                (snd (compressTxs (txStore bp) now (Txs block))))
      as [found missing];
    cbn [fst snd] in *; subst missing; simpl in Hloop;
    unfold newBxBlockFromRLPBroadcast, newBxBlockFromSSZBroadcast;
    cbn [bc_Block]; rewrite Eenc;
    unfold rlpEnvelope, sszEnvelope; rewrite Z.sub_0_r;
    cbn [rlp_Txs ssz_Txs]; rewrite Hloop; cbn; rewrite Ety;
    eexists _, _; (split; [reflexivity |]); cbn; auto.
Qed.

End ProcessorFacts.

Lemma BxBlockFromBroadcast_empty_beacon_hash_witness :
  fromBroadcast0 5 (NewBlockProcessor store0) oldBeaconBroadcast
  = (NewBlockProcessor store0, (None, [], Some ErrNotCompitableBeaconBlock)).
Proof.
  apply BxBlockFromBroadcast_empty_beacon_hash; reflexivity.
Defined.

(** C2 as stated fails when a guard answers first: this beacon broadcast
    has the unresolvable short ID 9, and the result is
    [ErrNotCompitableBeaconBlock] with an empty list. *)
Lemma BxBlockFromBroadcast_missing_short_ids_counterexample :
  (exists sid, In sid (bc_ShortIDs oldBeaconBroadcast)
               /\ GetTxByShortID store0 sid = None)
  /\ snd (fromBroadcast0 5 (NewBlockProcessor store0) oldBeaconBroadcast)
     = (None, [], Some ErrNotCompitableBeaconBlock)
  /\ snd (fromBroadcast0 5 (NewBlockProcessor store0) oldBeaconBroadcast)
     <> (None, List.filter (unresolvable store0) (bc_ShortIDs oldBeaconBroadcast),
         Some ErrMissingShortIDs).
Proof.
  split; [| split].
  - exists 9%N. split; [right; left; reflexivity | reflexivity].
  - reflexivity.
  - discriminate.
Qed.

Lemma BxBlockFromBroadcast_missing_short_ids_witness :
  fromBroadcast0 5 (NewBlockProcessor store0) ethBroadcastMissing
  = (NewBlockProcessor store0, (None, [9%N; 11%N], Some ErrMissingShortIDs)).
Proof.
  apply (BxBlockFromBroadcast_missing_short_ids
           (oneDecode ethEnv0) (fun n => n + 1) (oneDecode beaconEnv0)
           5 (NewBlockProcessor store0) ethBroadcastMissing).
  - reflexivity.
  - exists 9%N. split; [left; reflexivity | reflexivity].
Defined.

Lemma BxBlockToBroadcast_twice_witness :
  toBroadcast0 (1000 + 9 * Minute)
    (markProcessed 1000 (NewBlockProcessor store0) 100) ethBlock0 2 Minute
  = (markProcessed 1000 (NewBlockProcessor store0) 100,
     (None, [], Some ErrAlreadyProcessed)).
Proof.
  apply (BxBlockToBroadcast_twice (oneEncode ethEnv0) (oneEncode beaconEnv0)
           1000 (1000 + 9 * Minute) (NewBlockProcessor store0)
           (markProcessed 1000 (NewBlockProcessor store0) 100) ethBlock0
           1 2 0 Minute (Some ethBroadcast0) [5%N]).
  - reflexivity.
  - reflexivity.
Defined.

(** C3 as stated fails once the entry has expired: ten minutes after a
    first successful call the same block is compressed again. *)
Lemma BxBlockToBroadcast_twice_counterexample :
  toBroadcast0 1000 (NewBlockProcessor store0) ethBlock0 1 0
  = (markProcessed 1000 (NewBlockProcessor store0) 100,
     (Some ethBroadcast0, [5%N], None))
  /\ snd (toBroadcast0 (1000 + 10 * Minute)
            (markProcessed 1000 (NewBlockProcessor store0) 100) ethBlock0 1 0)
     = (Some ethBroadcast0, [5%N], None)
  /\ snd (toBroadcast0 (1000 + 10 * Minute)
            (markProcessed 1000 (NewBlockProcessor store0) 100) ethBlock0 1 0)
     <> (None, [], Some ErrAlreadyProcessed).
Proof. split; [| split]; [reflexivity | reflexivity | discriminate]. Qed.

Lemma oneCodec_roundtrip `{EqDecision A} (env0 env : A) (b : bytes) :
  oneEncode env0 env = Some b -> oneDecode env0 b = Some env.
Proof.
  unfold oneEncode, oneDecode. intros H.
  destruct (decide (env = env0)) as [-> |]; [| discriminate H].
  injection H as <-. reflexivity.
Qed.

Lemma SameContent_store0 (maxTs : Z) (blockTxs : list BxBlockTransaction) :
  Forall (fun tx => btx_Hash tx = 7%N -> btx_Content tx = [0xC0; 1; 2]) blockTxs ->
  SameContent store0 store0 maxTs blockTxs.
Proof.
  intros Hall tx b sid others Hin Hget _ Hsids.
  rewrite List.Forall_forall in Hall. specialize (Hall tx Hin).
  simpl in Hget. destruct (N.eqb_spec (btx_Hash tx) 7) as [E |]; [| discriminate].
  injection Hget as <-. simpl in Hsids. injection Hsids as <- <-.
  exists knownTx. split; [reflexivity |]. symmetry. now apply Hall.
Qed.

Lemma BxBlock_roundtrip_witness :
  exists (block' : BxBlock) (bp2 : blockProcessor),
    fromBroadcast0 2000 (NewBlockProcessor store0) ethBroadcast0
    = (bp2, (Some block', [], None))
    /\ map btx_Content (Txs block') = map btx_Content (Txs ethBlock0)
    /\ Trailer block' = Trailer ethBlock0
    /\ Header block' = Header ethBlock0
    /\ TotalDifficulty block' = TotalDifficulty ethBlock0
    /\ Number block' = Number ethBlock0.
Proof.
  apply (BxBlock_roundtrip (oneEncode ethEnv0) (oneDecode ethEnv0)
           (fun n => n + 1) (oneEncode beaconEnv0) (oneDecode beaconEnv0)
           1000 2000 (NewBlockProcessor store0)
           (markProcessed 1000 (NewBlockProcessor store0) 100)
           (NewBlockProcessor store0) ethBlock0 1 ethBroadcast0 [5%N]).
  - apply oneCodec_roundtrip.
  - apply oneCodec_roundtrip.
  - reflexivity.
  - apply SameContent_store0. repeat constructor; discriminate.
  - reflexivity.
Defined.

(** C1 as stated fails for beacon blocks: the SSZ envelope carries neither
    the header nor the total difficulty, so a beacon block that has them
    comes back without, on a fresh processor and with a store that
    returns the same content for the short ID used. *)
Lemma BxBlock_roundtrip_counterexample :
  snd (toBroadcast0 1000 (NewBlockProcessor store0) beaconBlock0 1 0)
  = (Some beaconBroadcast0, [5%N], None)
  /\ SameContent store0 store0 1000 (Txs beaconBlock0)
  /\ snd (fromBroadcast0 2000 (NewBlockProcessor store0) beaconBroadcast0)
     = (Some beaconBlock0', [], None)
  /\ Header beaconBlock0' <> Header beaconBlock0
  /\ TotalDifficulty beaconBlock0' <> TotalDifficulty beaconBlock0.
Proof.
  split; [reflexivity |].
  split; [apply SameContent_store0; repeat constructor; discriminate |].
  split; [reflexivity |]. split; discriminate.
Qed.

(** On the processor that compressed the block, the broadcast's hash is
    already in the processed set and the expansion is refused. *)
Example BxBlockFromBroadcast_same_processor :
  snd (fromBroadcast0 2000
         (fst (toBroadcast0 1000 (NewBlockProcessor store0) ethBlock0 1 0))
         ethBroadcast0)
  = (None, [], Some ErrAlreadyProcessed).
Proof. reflexivity. Qed.

(** ** Further properties of the block processor *)

Section ProcessorMore.

Variable rlp_EncodeToBytes : bxBlockRLP -> option bytes.
Variable rlp_DecodeBytes : bytes -> option bxBlockRLP.
Variable rlp_ListSize : Z -> Z.
Variable MarshalSSZ : bxBlockSSZ -> option bytes.
Variable UnmarshalSSZ : bytes -> option bxBlockSSZ.

Local Abbreviation toBroadcast :=
  (BxBlockToBroadcast rlp_EncodeToBytes MarshalSSZ).
Local Abbreviation fromBroadcast :=
  (BxBlockFromBroadcast rlp_DecodeBytes rlp_ListSize UnmarshalSSZ).

(** *** What the compression writes *)

Lemma compressTxs_step (store : TxStore) (maxTs : Z)
    (tx : BxBlockTransaction) (rest : list BxBlockTransaction) :
  compressTxs store maxTs (tx :: rest)
  = if compressible store maxTs tx
    then (emptyTx :: fst (compressTxs store maxTs rest),
          match Get store (btx_Hash tx) with
          | Some b => hd 0%N (tx_ShortIDs b)
          | None => 0%N
          end :: snd (compressTxs store maxTs rest))
    else (fullTx tx :: fst (compressTxs store maxTs rest),
          snd (compressTxs store maxTs rest)).
Proof.
  cbn [compressTxs]. unfold compressible.
  destruct (compressTxs store maxTs rest) as [txs used].
  destruct (Get store (btx_Hash tx)) as [b |]; [| reflexivity].
  destruct (tx_AddTime b <? maxTs); [| reflexivity].
  destruct (tx_ShortIDs b); reflexivity.
Qed.

Lemma compressTxs_counts (store : TxStore) (maxTs : Z)
    (blockTxs : list BxBlockTransaction) :
  length (fst (compressTxs store maxTs blockTxs)) = length blockTxs
  /\ placeholders (fst (compressTxs store maxTs blockTxs))
     = length (snd (compressTxs store maxTs blockTxs))
  /\ Forall2 (fun tx c => c = if compressible store maxTs tx
                              then emptyTx else fullTx tx)
       blockTxs (fst (compressTxs store maxTs blockTxs)).
Proof.
  induction blockTxs as [| tx rest (IHlen & IHcount & IHall)].
  - repeat split. constructor.
  - rewrite compressTxs_step. unfold placeholders in *.
    destruct (compressible store maxTs tx) eqn:Ec; cbn;
      (split; [now rewrite IHlen |]);
      (split; [now rewrite ?IHcount |]);
      constructor; auto; now rewrite Ec.
Qed.

(** A call of [BxBlockToBroadcast] that returns no error has produced a
    broadcast that carries the block's hash, type and network number and
    the returned short IDs; its payload encodes an envelope with one entry
    per transaction of the block, as many placeholders as short IDs, each
    placeholder empty and each other entry the full content of its
    transaction. *)
Theorem BxBlockToBroadcast_envelope
    (now : Z) (bp bp1 : blockProcessor) (block : BxBlock)
    (networkNum : NetworkNum) (minTxAge : Z) (broadcast : Broadcast)
    (usedShortIDs : ShortIDList) :
  toBroadcast now bp block networkNum minTxAge
  = (bp1, (Some broadcast, usedShortIDs, None)) ->
  bc_Hash broadcast = blk_Hash block
  /\ bc_BlockType broadcast = blk_Type block
  /\ bc_NetworkNum broadcast = networkNum
  /\ bc_ShortIDs broadcast = usedShortIDs
  /\ bc_BeaconHash broadcast
     = (if isBeacon (blk_Type block) then blk_BeaconHash block else EmptyHash)
  /\ exists txs : list bxCompressedTransaction,
       (if isBeacon (blk_Type block)
        then MarshalSSZ {| ssz_Block := Trailer block; ssz_Txs := txs;
                           ssz_Number := bigInt_Uint64 (Number block) |}
        else rlp_EncodeToBytes
               {| rlp_Header := Header block; rlp_Txs := txs;
                  rlp_Trailer := Trailer block;
                  rlp_TotalDifficulty := TotalDifficulty block;
                  rlp_Number := Number block |})
       = Some (bc_Block broadcast)
       /\ length txs = length (Txs block)
       /\ placeholders txs = length usedShortIDs
       /\ Forall2 (fun tx c =>
                     c = if compressible (txStore bp) (now - minTxAge) tx
                         then emptyTx else fullTx tx)
            (Txs block) txs.
Proof.
  intros Hto.
  apply (BxBlockToBroadcast_success rlp_EncodeToBytes MarshalSSZ) in Hto.
  pose proof (compressTxs_counts (txStore bp) (now - minTxAge) (Txs block))
    as (Hlen & Hcount & Hall).
  destruct (blk_Type block) eqn:Ety; try contradiction;
    destruct Hto as [_ Hnew];
    unfold newRLPBlockBroadcast, newSSZBlockBroadcast in Hnew;
    match type of Hnew with
    | match ?e with _ => _ end = _ =>
        destruct e as [encoded |] eqn:Eenc; [| discriminate Hnew]
    end;
    injection Hnew as <- <-; cbn; rewrite Ety;
    repeat (split; [reflexivity |]);
    eexists; (split; [exact Eenc |]); auto.
Qed.

(** When no transaction of the block can be compressed (it is unknown to
    the store, younger than [minTxAge], or without short ID), a successful
    call uses no short ID and its envelope holds every transaction in
    full, in the order of the block. *)
Theorem BxBlockToBroadcast_nothing_compressible
    (now : Z) (bp bp1 : blockProcessor) (block : BxBlock)
    (networkNum : NetworkNum) (minTxAge : Z) (broadcast : Broadcast)
    (usedShortIDs : ShortIDList) :
  Forall (fun tx => compressible (txStore bp) (now - minTxAge) tx = false)
    (Txs block) ->
  toBroadcast now bp block networkNum minTxAge
  = (bp1, (Some broadcast, usedShortIDs, None)) ->
  usedShortIDs = []
  /\ bc_ShortIDs broadcast = []
  /\ (if isBeacon (blk_Type block)
      then MarshalSSZ {| ssz_Block := Trailer block;
                         ssz_Txs := map fullTx (Txs block);
                         ssz_Number := bigInt_Uint64 (Number block) |}
      else rlp_EncodeToBytes
             {| rlp_Header := Header block;
                rlp_Txs := map fullTx (Txs block);
                rlp_Trailer := Trailer block;
                rlp_TotalDifficulty := TotalDifficulty block;
                rlp_Number := Number block |})
     = Some (bc_Block broadcast).
Proof.
  intros Hnone Hto.
  assert (Hfull : compressTxs (txStore bp) (now - minTxAge) (Txs block)
                  = (map fullTx (Txs block), [])).
  { induction Hnone as [| tx rest Htx _ IH]; [reflexivity |].
    rewrite compressTxs_step, Htx, IH. reflexivity. }
  apply (BxBlockToBroadcast_success rlp_EncodeToBytes MarshalSSZ) in Hto.
  destruct (blk_Type block); try contradiction;
    destruct Hto as [_ Hnew];
    unfold newRLPBlockBroadcast, newSSZBlockBroadcast, rlpEnvelope,
      sszEnvelope in Hnew;
    rewrite Hfull in Hnew; cbn [fst snd] in Hnew;
    match type of Hnew with
    | match ?e with _ => _ end = _ =>
        destruct e as [encoded |] eqn:Eenc; [| discriminate Hnew]
    end;
    injection Hnew as <- <-; cbn; auto.
Qed.

(** *** The processed set changes only on success *)

(** A call of [BxBlockToBroadcast] that returns an error returns neither a
    broadcast nor short IDs and leaves the processor as it was; a block of
    unknown type always gets [ErrUnknownBlockType]. *)
Theorem BxBlockToBroadcast_error
    (now : Z) (bp : blockProcessor) (block : BxBlock)
    (networkNum : NetworkNum) (minTxAge : Z) :
  (forall bp1 broadcast usedShortIDs e,
     toBroadcast now bp block networkNum minTxAge
     = (bp1, (broadcast, usedShortIDs, Some e)) ->
     bp1 = bp /\ broadcast = None /\ usedShortIDs = [])
  /\ (blk_Type block = BxBlockTypeUnknown ->
      toBroadcast now bp block networkNum minTxAge
      = (bp, (None, [], Some ErrUnknownBlockType))).
Proof.
  unfold BxBlockToBroadcast. split.
  - intros bp1 broadcast used e H.
    destruct (blk_Type block);
      repeat match type of H with
      | (if ?c then _ else _) = _ => destruct c
      | (match ?x with _ => _ end) = _ => destruct x as [[? ?] [?|]]
      end;
      inversion H; subst; auto.
  - intros ->. reflexivity.
Qed.

(** [BxBlockFromBroadcast] marks hashes exactly when it succeeds: with an
    error no block is returned and the processor is unchanged; without
    error a block is returned, no short ID is reported missing, and the
    broadcast's hash (for a beacon type also its beacon hash) has been
    marked as processed. *)
Theorem BxBlockFromBroadcast_marks
    (now : Z) (bp bp1 : blockProcessor) (broadcast : Broadcast)
    (block : option BxBlock) (missing : ShortIDList) (e : option Error) :
  fromBroadcast now bp broadcast = (bp1, (block, missing, e)) ->
  match e with
  | Some _ => bp1 = bp /\ block = None
  | None =>
      is_Some block /\ missing = []
      /\ bc_BlockType broadcast <> BxBlockTypeUnknown
      /\ bp1 = (if isBeacon (bc_BlockType broadcast)
                then markProcessed now
                       (markProcessed now bp (bc_Hash broadcast))
                       (bc_BeaconHash broadcast)
                else markProcessed now bp (bc_Hash broadcast))
  end.
Proof.
  unfold BxBlockFromBroadcast, newBxBlockFromRLPBroadcast,
    newBxBlockFromSSZBroadcast. intros H.
  destruct (guard now bp broadcast) as [g |] eqn:Eg;
    [inversion H; subst; auto |].
  destruct (lookupShortIDs (txStore bp) (bc_ShortIDs broadcast))
    as [found miss].
  destruct miss as [| sid miss']; cbn [length Nat.ltb Nat.leb] in H;
    [| inversion H; subst; auto].
  destruct (bc_BlockType broadcast) eqn:Ety; cbn [isBeacon];
    try (inversion H; subst; auto; fail);
    repeat match type of H with
    | context [match ?x with _ => _ end] =>
        match x with
        | rlp_DecodeBytes _ => destruct x
        | UnmarshalSSZ _ => destruct x
        | rlpTxLoop _ _ _ _ _ => destruct x as [[? ?] |]
        | sszTxLoop _ _ _ _ _ => destruct x as [[? ?] |]
        end
    end;
    inversion H; subst; repeat split; eauto; discriminate.
Qed.

(** *** Deduplication across calls and directions *)

(** What a successful expansion has gone through. *)
Lemma BxBlockFromBroadcast_success
    (now : Z) (bp bp1 : blockProcessor) (broadcast : Broadcast)
    (block : option BxBlock) (missing : ShortIDList) :
  fromBroadcast now bp broadcast = (bp1, (block, missing, None)) ->
  guard now bp broadcast = None
  /\ snd (lookupShortIDs (txStore bp) (bc_ShortIDs broadcast)) = []
  /\ match bc_BlockType broadcast with
     | BxBlockTypeUnknown => False
     | BxBlockTypeEth =>
         bp1 = markProcessed now bp (bc_Hash broadcast)
         /\ newBxBlockFromRLPBroadcast rlp_DecodeBytes rlp_ListSize broadcast
              (fst (lookupShortIDs (txStore bp) (bc_ShortIDs broadcast)))
            = (block, None)
     | _ =>
         bp1 = markProcessed now (markProcessed now bp (bc_Hash broadcast))
                 (bc_BeaconHash broadcast)
         /\ newBxBlockFromSSZBroadcast UnmarshalSSZ broadcast
              (fst (lookupShortIDs (txStore bp) (bc_ShortIDs broadcast)))
            = (block, None)
     end.
Proof.
  unfold BxBlockFromBroadcast. intros H.
  destruct (guard now bp broadcast) as [g |] eqn:Eg; [discriminate H |].
  split; [reflexivity |].
  destruct (lookupShortIDs (txStore bp) (bc_ShortIDs broadcast))
    as [found miss].
  destruct miss as [| sid miss']; cbn [length Nat.ltb Nat.leb] in H;
    [| discriminate H].
  split; [reflexivity |]. cbn [fst].
  destruct (bc_BlockType broadcast); try discriminate H;
    match type of H with
    | context [match ?x with _ => _ end] => destruct x as [b [e |]]
    end; inversion H; subst; auto.
Qed.

Lemma guard_beacon_hash (now : Z) (bp : blockProcessor) (broadcast : Broadcast) :
  guard now bp broadcast = None ->
  isBeacon (bc_BlockType broadcast) = true ->
  hash_Empty (bc_BeaconHash broadcast) = false.
Proof.
  unfold guard. intros Hg Hb.
  destruct (bc_BlockType broadcast); try discriminate Hb;
    destruct (hash_Empty (bc_BeaconHash broadcast)); congruence.
Qed.

(** After an expansion that succeeded, expanding the same broadcast again
    before its entry expires is refused with [ErrAlreadyProcessed]. *)
Theorem BxBlockFromBroadcast_twice
    (now now' : Z) (bp bp1 : blockProcessor) (broadcast : Broadcast)
    (block : option BxBlock) (missing : ShortIDList) :
  fromBroadcast now bp broadcast = (bp1, (block, missing, None)) ->
  now' < now + 10 * Minute ->
  fromBroadcast now' bp1 broadcast
  = (bp1, (None, [], Some ErrAlreadyProcessed)).
Proof.
  intros Hfirst Hlt.
  apply BxBlockFromBroadcast_success in Hfirst as (Hg & _ & Hty).
  pose proof (guard_beacon_hash _ _ _ Hg) as Hne.
  unfold BxBlockFromBroadcast, guard.
  destruct (bc_BlockType broadcast); try contradiction;
    destruct Hty as [-> _]; rewrite ?Hne by reflexivity;
    now rewrite ShouldProcess_markProcessed.
Qed.

(** The processed set serves both directions.  On the processor that just
    compressed a block, the resulting broadcast is not expanded: the answer
    is [ErrAlreadyProcessed], or [ErrNotCompitableBeaconBlock] for a
    beacon block without beacon hash. *)
Theorem BxBlockFromBroadcast_after_BxBlockToBroadcast
    (now now' : Z) (bp bp1 : blockProcessor) (block : BxBlock)
    (networkNum : NetworkNum) (minTxAge : Z) (broadcast : Broadcast)
    (usedShortIDs : ShortIDList) :
  toBroadcast now bp block networkNum minTxAge
  = (bp1, (Some broadcast, usedShortIDs, None)) ->
  now' < now + 10 * Minute ->
  fromBroadcast now' bp1 broadcast
  = (bp1, (None, [],
           Some (if isBeacon (blk_Type block)
                    && hash_Empty (blk_BeaconHash block)
                 then ErrNotCompitableBeaconBlock else ErrAlreadyProcessed))).
Proof.
  intros Hto Hlt.
  apply (BxBlockToBroadcast_success rlp_EncodeToBytes MarshalSSZ) in Hto.
  unfold BxBlockFromBroadcast, guard.
  destruct (blk_Type block) eqn:Ety; try contradiction;
    destruct Hto as [-> Hnew];
    unfold newRLPBlockBroadcast, newSSZBlockBroadcast in Hnew;
    match type of Hnew with
    | match ?e with _ => _ end = _ =>
        destruct e as [encoded |]; [| discriminate Hnew]
    end;
    injection Hnew as <- <-; cbn [bc_BlockType bc_Hash bc_BeaconHash];
    rewrite Ety; cbn [isBeacon andb];
    try destruct (hash_Empty (blk_BeaconHash block)); try reflexivity;
    now rewrite ShouldProcess_markProcessed.
Qed.

(** And the block that an expansion returned is not compressed again on
    the same processor before the entry expires. *)
Theorem BxBlockToBroadcast_after_BxBlockFromBroadcast
    (now now' : Z) (bp bp1 : blockProcessor) (broadcast : Broadcast)
    (block : BxBlock) (missing : ShortIDList)
    (networkNum : NetworkNum) (minTxAge : Z) :
  fromBroadcast now bp broadcast = (bp1, (Some block, missing, None)) ->
  now' < now + 10 * Minute ->
  toBroadcast now' bp1 block networkNum minTxAge
  = (bp1, (None, [], Some ErrAlreadyProcessed)).
Proof.
  intros Hfrom Hlt.
  apply BxBlockFromBroadcast_success in Hfrom as (_ & _ & Hty).
  unfold BxBlockToBroadcast.
  destruct (bc_BlockType broadcast) eqn:Ety; try contradiction;
    destruct Hty as [-> Hnew];
    unfold newBxBlockFromRLPBroadcast, newBxBlockFromSSZBroadcast in Hnew;
    repeat match type of Hnew with
    | context [match ?x with _ => _ end] =>
        match x with
        | rlp_DecodeBytes _ => destruct x; [| discriminate Hnew]
        | UnmarshalSSZ _ => destruct x; [| discriminate Hnew]
        | rlpTxLoop _ _ _ _ _ => destruct x as [[? ?] |]; [| discriminate Hnew]
        | sszTxLoop _ _ _ _ _ => destruct x as [[? ?] |]; [| discriminate Hnew]
        end
    end;
    injection Hnew as <-; cbn [blk_Type blk_Hash blk_BeaconHash];
    rewrite Ety; now rewrite ShouldProcess_markProcessed.
Qed.

(** *** Placeholders and short IDs *)

Local Ltac loop_underflow IH :=
  intros bxTransactions txs; induction txs as [| tx rest IH];
  intros count acc n Hcount; cbn;
  [ split; [discriminate | unfold placeholders; cbn; lia] |];
  unfold placeholders in *; cbn [List.filter];
  destruct (IsFullTransaction tx); cbn [negb length];
  [ apply IH; exact Hcount |];
  destruct (bxTransactions !! count) as [b |] eqn:Elk;
  [ apply lookup_lt_Some in Elk; rewrite IH by lia; lia
  | apply lookup_ge_None in Elk; split; [lia | reflexivity] ].

(** The expansion loops fail exactly when the payload has more
    placeholders than there are resolved transactions left. *)
Lemma rlpTxLoop_underflow :
  forall (bxTransactions : list BxTransaction)
    (txs : list bxCompressedTransaction) (count : nat)
    (acc : list BxBlockTransaction) (n : Z),
  (count <= length bxTransactions)%nat ->
  rlpTxLoop bxTransactions txs count acc n = None
  <-> (length bxTransactions - count < placeholders txs)%nat.
Proof. loop_underflow IH. Qed.

Lemma sszTxLoop_underflow :
  forall (bxTransactions : list BxTransaction)
    (txs : list bxCompressedTransaction) (count : nat)
    (acc : list BxBlockTransaction) (n : Z),
  (count <= length bxTransactions)%nat ->
  sszTxLoop bxTransactions txs count acc n = None
  <-> (length bxTransactions - count < placeholders txs)%nat.
Proof. loop_underflow IH. Qed.

Lemma lookupShortIDs_all_found (store : TxStore) (shortIDs : ShortIDList) :
  snd (lookupShortIDs store shortIDs) = [] ->
  length (fst (lookupShortIDs store shortIDs)) = length shortIDs.
Proof.
  induction shortIDs as [| sid rest IH]; [reflexivity |].
  cbn. destruct (lookupShortIDs store rest) as [found miss].
  destruct (GetTxByShortID store sid); cbn in *; [| discriminate].
  intros H. now rewrite IH.
Qed.

Local Ltac loop_length IH :=
  intros bxTransactions txs; induction txs as [| tx rest IH];
  intros count acc n out n'; cbn;
  [ intros [= <- <-]; lia |];
  destruct (IsFullTransaction tx); cbn [negb];
  [| destruct (bxTransactions !! count); [| discriminate]];
  intros Hloop; apply IH in Hloop; rewrite Hloop, length_app; cbn; lia.

Lemma rlpTxLoop_length :
  forall (bxTransactions : list BxTransaction)
    (txs : list bxCompressedTransaction) (count : nat)
    (acc : list BxBlockTransaction) (n : Z)
    (out : list BxBlockTransaction) (n' : Z),
  rlpTxLoop bxTransactions txs count acc n = Some (out, n') ->
  length out = (length acc + length txs)%nat.
Proof. loop_length IH. Qed.

Lemma sszTxLoop_length :
  forall (bxTransactions : list BxTransaction)
    (txs : list bxCompressedTransaction) (count : nat)
    (acc : list BxBlockTransaction) (n : Z)
    (out : list BxBlockTransaction) (n' : Z),
  sszTxLoop bxTransactions txs count acc n = Some (out, n') ->
  length out = (length acc + length txs)%nat.
Proof. loop_length IH. Qed.

(** A broadcast that passes the guards, whose short IDs all resolve and
    whose payload decodes, is expanded if and only if its payload has no
    more placeholders than the broadcast has short IDs.  Otherwise the
    answer is the bad-block error and the processor is left as it was;
    short IDs in excess of the placeholders do no harm. *)
Theorem BxBlockFromBroadcast_placeholders
    (now : Z) (bp : blockProcessor) (broadcast : Broadcast)
    (txs : list bxCompressedTransaction) :
  guard now bp broadcast = None ->
  snd (lookupShortIDs (txStore bp) (bc_ShortIDs broadcast)) = [] ->
  (if isBeacon (bc_BlockType broadcast)
   then exists env, UnmarshalSSZ (bc_Block broadcast) = Some env
                    /\ ssz_Txs env = txs
   else exists env, rlp_DecodeBytes (bc_Block broadcast) = Some env
                    /\ rlp_Txs env = txs) ->
  if (length (bc_ShortIDs broadcast) <? placeholders txs)%nat
  then fromBroadcast now bp broadcast = (bp, (None, [], Some ErrBadBlock))
  else exists block bp1,
         fromBroadcast now bp broadcast = (bp1, (Some block, [], None))
         /\ length (Txs block) = length txs.
Proof.
  intros Hguard Hall Hdec.
  pose proof (lookupShortIDs_all_found _ _ Hall) as Hlen.
  unfold BxBlockFromBroadcast, newBxBlockFromRLPBroadcast,
    newBxBlockFromSSZBroadcast.
  rewrite Hguard.
  destruct (lookupShortIDs (txStore bp) (bc_ShortIDs broadcast))
    as [found miss]. cbn [fst snd] in *. subst miss.
  change ((0 <? length (@nil N))%nat) with false. cbv iota.
  assert (Hty : bc_BlockType broadcast <> BxBlockTypeUnknown)
    by (intros E; unfold guard in Hguard; rewrite E in Hguard; discriminate).
  destruct (bc_BlockType broadcast); try contradiction; cbn [isBeacon] in Hdec;
    destruct Hdec as (env & -> & <-);
    [ pose proof (rlpTxLoop_underflow found (rlp_Txs env) 0 [] 0 ltac:(lia)) as Hu
    | pose proof (sszTxLoop_underflow found (ssz_Txs env) 0 [] 0 ltac:(lia)) as Hu ..];
    rewrite Nat.sub_0_r, Hlen in Hu;
    match goal with
    | |- context [Nat.ltb ?a ?b] => destruct (Nat.ltb_spec a b) as [Hlt | Hge]
    end;
    try (apply Hu in Hlt; rewrite Hlt; reflexivity);
    match goal with
    | |- context [match ?x with _ => _ end] =>
        destruct x as [[out n'] |] eqn:Eloop;
          [| pose proof (proj1 Hu eq_refl); lia]
    end;
    eexists _, _; (split; [reflexivity |]); cbn [Txs];
    first [ apply rlpTxLoop_length in Eloop | apply sszTxLoop_length in Eloop ];
    exact Eloop.
Qed.

(** *** The size of an expanded block *)

Lemma rlpTxLoop_result :
  forall (bxTransactions : list BxTransaction)
    (txs : list bxCompressedTransaction) (count : nat)
    (acc out : list BxBlockTransaction) (n n' : Z),
  0 <= n < two64 ->
  rlpTxLoop bxTransactions txs count acc n = Some (out, n') ->
  exists added,
    out = acc ++ added
    /\ n' = to_uint64 (n + contentLengths (map btx_Content added)).
Proof.
  intros bxTransactions txs. induction txs as [| tx rest IH];
    intros count acc out n n' Hn; cbn.
  - intros [= <- <-]. exists []. split; [now rewrite app_nil_r |].
    cbn. unfold to_uint64. rewrite Z.add_0_r, Z.mod_small; [reflexivity | lia].
  - assert (Hstep : forall len, 0 <= to_uint64 (n + len) < two64)
      by (intros; apply Z.mod_pos_bound; reflexivity).
    destruct (IsFullTransaction tx); cbn [negb];
      [| destruct (bxTransactions !! count) as [b |]; [| discriminate]];
      intros Hloop; apply IH in Hloop as (added & -> & ->); auto;
      eexists (_ :: added); rewrite <- app_assoc;
      (split; [reflexivity |]); cbn; unfold to_uint64;
      rewrite Zplus_mod_idemp_l; unfold contentLengths; f_equal; lia.
Qed.

Lemma sszTxLoop_result :
  forall (bxTransactions : list BxTransaction)
    (txs : list bxCompressedTransaction) (count : nat)
    (acc out : list BxBlockTransaction) (n n' : Z),
  sszTxLoop bxTransactions txs count acc n = Some (out, n') ->
  exists added,
    out = acc ++ added
    /\ n' = n + beaconLengths (map btx_Content added).
Proof.
  intros bxTransactions txs. induction txs as [| tx rest IH];
    intros count acc out n n'; cbn.
  - intros [= <- <-]. exists []. split; [now rewrite app_nil_r | cbn; lia].
  - destruct (IsFullTransaction tx); cbn [negb];
      [| destruct (bxTransactions !! count) as [b |]; [| discriminate]];
      intros Hloop; apply IH in Hloop as (added & -> & ->);
      eexists (_ :: added); rewrite <- app_assoc;
      (split; [reflexivity |]); cbn; unfold beaconLengths; lia.
Qed.

(** The size recorded in an expanded block is computed from the block's
    own fields.  For a beacon block it is the length of the trailer plus
    the beacon lengths of the transaction contents; for an Eth block it is
    the RLP list size of header, transaction list and trailer, where the
    transaction list is sized by the sum of the content lengths as a
    [uint64]. *)
Theorem BxBlockFromBroadcast_size
    (now : Z) (bp bp1 : blockProcessor) (broadcast : Broadcast)
    (block : BxBlock) (missing : ShortIDList) :
  fromBroadcast now bp broadcast = (bp1, (Some block, missing, None)) ->
  blk_size block
  = if isBeacon (blk_Type block)
    then Z.of_nat (length (Trailer block))
         + beaconLengths (map btx_Content (Txs block))
    else to_int64
           (rlp_ListSize
              (to_uint64
                 (Z.of_nat (length (Header block))
                  + rlp_ListSize
                      (to_uint64 (contentLengths (map btx_Content (Txs block))))
                  + Z.of_nat (length (Trailer block))))).
Proof.
  intros Hfrom.
  apply BxBlockFromBroadcast_success in Hfrom as (_ & _ & Hty).
  destruct (bc_BlockType broadcast) eqn:Ety; try contradiction;
    destruct Hty as [_ Hnew];
    unfold newBxBlockFromRLPBroadcast, newBxBlockFromSSZBroadcast in Hnew;
    repeat match type of Hnew with
    | context [match ?x with _ => _ end] =>
        match x with
        | rlp_DecodeBytes _ => destruct x; [| discriminate Hnew]
        | UnmarshalSSZ _ => destruct x; [| discriminate Hnew]
        | rlpTxLoop _ _ _ _ _ =>
            let E := fresh "Eloop" in
            destruct x as [[? ?] |] eqn:E; [| discriminate Hnew];
            apply rlpTxLoop_result in E as (added & -> & ->);
            [| unfold two64; lia]
        | sszTxLoop _ _ _ _ _ =>
            let E := fresh "Eloop" in
            destruct x as [[? ?] |] eqn:E; [| discriminate Hnew];
            apply sszTxLoop_result in E as (added & -> & ->)
        end
    end;
    injection Hnew as <-; cbn; rewrite Ety; cbn; reflexivity.
Qed.

End ProcessorMore.

Lemma BxBlockToBroadcast_envelope_witness :
  bc_Hash ethBroadcast0 = blk_Hash ethBlock0
  /\ bc_BlockType ethBroadcast0 = blk_Type ethBlock0
  /\ bc_NetworkNum ethBroadcast0 = 1
  /\ bc_ShortIDs ethBroadcast0 = [5%N].
Proof.
  pose proof (BxBlockToBroadcast_envelope (oneEncode ethEnv0)
                (oneEncode beaconEnv0) 1000 (NewBlockProcessor store0)
                (markProcessed 1000 (NewBlockProcessor store0) 100) ethBlock0
                1 0 ethBroadcast0 [5%N]) as H.
  destruct H as (H1 & H2 & H3 & H4 & _); [reflexivity | auto].
Defined.

Lemma BxBlockToBroadcast_nothing_compressible_witness :
  bc_ShortIDs ethBroadcastFresh = []
  /\ oneEncode ethEnvFresh
       {| rlp_Header := Header ethBlock0;
          rlp_Txs := map fullTx (Txs ethBlock0);
          rlp_Trailer := Trailer ethBlock0;
          rlp_TotalDifficulty := TotalDifficulty ethBlock0;
          rlp_Number := Number ethBlock0 |}
     = Some (bc_Block ethBroadcastFresh).
Proof.
  destruct (BxBlockToBroadcast_nothing_compressible (oneEncode ethEnvFresh)
              (oneEncode beaconEnv0) 1000 (NewBlockProcessor store0)
              (markProcessed 1000 (NewBlockProcessor store0) 100) ethBlock0
              1 5000 ethBroadcastFresh []) as (_ & H2 & H3).
  - repeat constructor.
  - reflexivity.
  - split; [exact H2 | exact H3].
Defined.

Lemma BxBlockToBroadcast_error_witness :
  toBroadcast0 1000 (NewBlockProcessor store0) unknownBlock0 1 0
  = (NewBlockProcessor store0, (None, [], Some ErrUnknownBlockType)).
Proof.
  apply (proj2 (BxBlockToBroadcast_error (oneEncode ethEnv0)
                  (oneEncode beaconEnv0) 1000 (NewBlockProcessor store0)
                  unknownBlock0 1 0)).
  reflexivity.
Defined.

Lemma BxBlockFromBroadcast_marks_witness :
  is_Some (Some ethBlock0') /\ @nil N = []
  /\ bc_BlockType ethBroadcast0 <> BxBlockTypeUnknown
  /\ markProcessed 2000 (NewBlockProcessor store0) 100
     = markProcessed 2000 (NewBlockProcessor store0) (bc_Hash ethBroadcast0).
Proof.
  apply (BxBlockFromBroadcast_marks (oneDecode ethEnv0) (fun n => n + 1)
           (oneDecode beaconEnv0) 2000 (NewBlockProcessor store0)
           (markProcessed 2000 (NewBlockProcessor store0) 100) ethBroadcast0
           (Some ethBlock0') [] None).
  reflexivity.
Defined.

Lemma BxBlockFromBroadcast_twice_witness :
  fromBroadcast0 (2000 + 9 * Minute)
    (markProcessed 2000 (NewBlockProcessor store0) 100) ethBroadcast0
  = (markProcessed 2000 (NewBlockProcessor store0) 100,
     (None, [], Some ErrAlreadyProcessed)).
Proof.
  apply (BxBlockFromBroadcast_twice (oneDecode ethEnv0) (fun n => n + 1)
           (oneDecode beaconEnv0) 2000 (2000 + 9 * Minute)
           (NewBlockProcessor store0)
           (markProcessed 2000 (NewBlockProcessor store0) 100) ethBroadcast0
           (Some ethBlock0') []).
  - reflexivity.
  - reflexivity.
Defined.

Lemma BxBlockFromBroadcast_after_BxBlockToBroadcast_witness :
  fromBroadcast0 2000 (markProcessed 1000 (NewBlockProcessor store0) 100)
    ethBroadcast0
  = (markProcessed 1000 (NewBlockProcessor store0) 100,
     (None, [], Some ErrAlreadyProcessed)).
Proof.
  apply (BxBlockFromBroadcast_after_BxBlockToBroadcast (oneEncode ethEnv0)
           (oneDecode ethEnv0) (fun n => n + 1) (oneEncode beaconEnv0)
           (oneDecode beaconEnv0) 1000 2000 (NewBlockProcessor store0)
           (markProcessed 1000 (NewBlockProcessor store0) 100) ethBlock0 1 0
           ethBroadcast0 [5%N]).
  - reflexivity.
  - reflexivity.
Defined.

Lemma BxBlockToBroadcast_after_BxBlockFromBroadcast_witness :
  toBroadcast0 3000 (markProcessed 2000 (NewBlockProcessor store0) 100)
    ethBlock0' 1 0
  = (markProcessed 2000 (NewBlockProcessor store0) 100,
     (None, [], Some ErrAlreadyProcessed)).
Proof.
  apply (BxBlockToBroadcast_after_BxBlockFromBroadcast (oneEncode ethEnv0)
           (oneDecode ethEnv0) (fun n => n + 1) (oneEncode beaconEnv0)
           (oneDecode beaconEnv0) 2000 3000 (NewBlockProcessor store0)
           (markProcessed 2000 (NewBlockProcessor store0) 100) ethBroadcast0
           ethBlock0' [] 1 0).
  - reflexivity.
  - reflexivity.
Defined.

(** The payload of [ethBroadcastFresh] read with the codec of [ethEnv0]
    has one placeholder, and the broadcast brings no short ID. *)
Lemma BxBlockFromBroadcast_placeholders_witness :
  fromBroadcast0 2000 (NewBlockProcessor store0) ethBroadcastFresh
  = (NewBlockProcessor store0, (None, [], Some ErrBadBlock)).
Proof.
  apply (BxBlockFromBroadcast_placeholders (oneDecode ethEnv0)
           (fun n => n + 1) (oneDecode beaconEnv0) 2000
           (NewBlockProcessor store0) ethBroadcastFresh (rlp_Txs ethEnv0)).
  - reflexivity.
  - reflexivity.
  - exists ethEnv0. split; reflexivity.
Defined.

Lemma BxBlockFromBroadcast_size_witness :
  blk_size ethBlock0'
  = to_int64 (to_uint64 (2 + (to_uint64 (contentLengths [[0xC0; 1; 2]; [0x81; 9]]) + 1) + 1) + 1).
Proof.
  apply (BxBlockFromBroadcast_size (oneDecode ethEnv0) (fun n => n + 1)
           (oneDecode beaconEnv0) 2000 (NewBlockProcessor store0)
           (markProcessed 2000 (NewBlockProcessor store0) 100) ethBroadcast0
           ethBlock0' []).
  reflexivity.
Defined.

(** ** Properties of the length accounting *)

Local Ltac unfold_calc :=
  unfold calcBeaconTransactionLength, to_int64, bigInt_Uint64, two64.

Lemma calcBeaconTransactionLength_empty : calcBeaconTransactionLength [] = 0.
Proof. reflexivity. Qed.

Lemma calcBeaconTransactionLength_legacy (b0 : Z) (rest : bytes) :
  0xC0 <= b0 ->
  calcBeaconTransactionLength (b0 :: rest) = Z.of_nat (length (b0 :: rest)) + 4.
Proof.
  intros Hb. unfold_calc.
  destruct (Z.ltb_spec b0 0xC0); [lia | reflexivity].
Qed.

Lemma calcBeaconTransactionLength_0x80 (rest : bytes) :
  calcBeaconTransactionLength (0x80 :: rest)
  = Z.of_nat (length (0x80 :: rest)) + 4 - 2.
Proof. reflexivity. Qed.

(** What the code computes for a first byte strictly between 0x80 and 0xC0:
    the distance between the byte and 0xB7, because [Uint64] drops the sign
    of the [big.Int] difference. *)
Lemma calcBeaconTransactionLength_string (b0 : Z) (rest : bytes) :
  0x80 < b0 < 0xC0 ->
  calcBeaconTransactionLength (b0 :: rest)
  = Z.of_nat (length (b0 :: rest)) + 4 - (Z.abs (b0 - 0xB7) + 1).
Proof.
  intros [Hlo Hhi]. unfold_calc.
  destruct (Z.ltb_spec b0 0xC0); [| lia].
  destruct (Z.eqb_spec b0 0x80); [lia |].
  destruct (Z.ltb_spec 0x80 b0); [| lia].
  rewrite Z.mod_mod by lia.
  rewrite (Z.mod_small (Z.abs (b0 - 0xb7))) by lia.
  destruct (Z.ltb_spec (Z.abs (b0 - 0xb7)) (2 ^ 63)); [reflexivity | lia].
Qed.

(** From 0xB7 on the difference is not negative and the stated formula is
    the code's. *)
Lemma calcBeaconTransactionLength_long_string (b0 : Z) (rest : bytes) :
  0xB7 <= b0 < 0xC0 ->
  calcBeaconTransactionLength (b0 :: rest)
  = Z.of_nat (length (b0 :: rest)) + 4 - (b0 - 0xB7 + 1).
Proof.
  intros H. rewrite calcBeaconTransactionLength_string by lia.
  rewrite Z.abs_eq by lia. reflexivity.
Qed.

(** Below 0xB7 the code subtracts [0xB7 - b0 + 1] where the stated formula
    subtracts [b0 - 0xB7 + 1]. *)
Lemma calcBeaconTransactionLength_short_string (b0 : Z) (rest : bytes) :
  0x80 < b0 < 0xB7 ->
  calcBeaconTransactionLength (b0 :: rest)
  = Z.of_nat (length (b0 :: rest)) + 4 - (0xB7 - b0 + 1).
Proof.
  intros H. rewrite calcBeaconTransactionLength_string by lia.
  rewrite Z.abs_neq by lia. f_equal. lia.
Qed.

(** The correction never adds to the length and never takes more than 55
    bytes off [len + 4]; outside the first-byte range 0x80..0xBF there is
    no correction at all, whatever follows the first byte. *)
Theorem calcBeaconTransactionLength_bounds (b0 : Z) (rest : bytes) :
  Z.of_nat (length (b0 :: rest)) + 4 - 55
  <= calcBeaconTransactionLength (b0 :: rest)
  <= Z.of_nat (length (b0 :: rest)) + 4
  /\ (b0 < 0x80 \/ 0xC0 <= b0 ->
      calcBeaconTransactionLength (b0 :: rest)
      = Z.of_nat (length (b0 :: rest)) + 4).
Proof.
  destruct (Z.lt_ge_cases b0 0x80) as [Hlow | Hge80].
  - assert (E : calcBeaconTransactionLength (b0 :: rest)
                = Z.of_nat (length (b0 :: rest)) + 4).
    { unfold_calc.
      destruct (Z.ltb_spec b0 0xC0); [| lia].
      destruct (Z.eqb_spec b0 0x80); [lia |].
      destruct (Z.ltb_spec 0x80 b0); [lia | reflexivity]. }
    rewrite E. split; [lia | auto].
  - destruct (Z.lt_ge_cases b0 0xC0) as [Hlt | Hlegacy].
    + split; [| lia].
      destruct (Z.eq_dec b0 0x80) as [-> |].
      * rewrite calcBeaconTransactionLength_0x80. lia.
      * rewrite calcBeaconTransactionLength_string by lia. lia.
    + rewrite calcBeaconTransactionLength_legacy by lia. split; [lia | auto].
Qed.

(** C5.  The stated table holds for the empty input, for a first byte of
    0xC0 and above, for 0x80 and from 0xB7 up to 0xBF (see the lemmas
    above).  At a first byte in between, here 0x81, the code returns
    [len + 4 - 55] where the stated formula [len + 4 - (0x81 - 0xB7 + 1)]
    is [len + 4 + 53]. *)
Theorem calcBeaconTransactionLength_0x81 :
  calcBeaconTransactionLength [0x81; 9] = -49
  /\ Z.of_nat (length [0x81; 9]) + 4 - (0x81 - 0xB7 + 1) = 59
  /\ calcBeaconTransactionLength [0x81; 9]
     <> Z.of_nat (length [0x81; 9]) + 4 - (0x81 - 0xB7 + 1).
Proof. repeat split; try reflexivity. discriminate. Qed.

End BlockProcessor.

Module Bridge.

(** ** Go channels *)

(** A channel of capacity [cap]: the buffered elements, oldest first, and
    the number of receivers parked on it.  A receiver can only be parked
    while the buffer is empty. *)
Record chan (A : Type) := mkChan {
  cap : nat;
  buf : list A;
  recvq : nat
}.
Arguments mkChan {A}.
Arguments cap {A}.
Arguments buf {A}.
Arguments recvq {A}.

Definition make (A : Type) (n : nat) : chan A :=
  {| cap := n; buf := []; recvq := 0 |}.

(** A send can proceed when a receiver is waiting or the buffer has room. *)
Definition ready {A} (c : chan A) : bool :=
  (0 <? recvq c)%nat || (length (buf c) <? cap c)%nat.

(** The effect of a send that proceeds: the element goes to a waiting
    receiver, or else to the back of the buffer. *)
Definition push {A} (c : chan A) (x : A) : chan A :=
  if (0 <? recvq c)%nat
  then {| cap := cap c; buf := buf c; recvq := pred (recvq c) |}
  else {| cap := cap c; buf := buf c ++ [x]; recvq := recvq c |}.

(** [select { case c <- x: ... default: ... }]; [true] is the send case. *)
Definition select_send {A} (c : chan A) (x : A) : chan A * bool :=
  if ready c then (push c x, true) else (c, false).

(** [c <- x]; [None] when the sending goroutine is suspended. *)
Definition block_send {A} (c : chan A) (x : A) : option (chan A) :=
  if ready c then Some (push c x) else None.

(** [<-c] by a consumer: the oldest element, or else the consumer parks. *)
Definition recv {A} (c : chan A) : option A * chan A :=
  match buf c with
  | x :: rest => (Some x, {| cap := cap c; buf := rest; recvq := recvq c |})
  | [] => (None, {| cap := cap c; buf := []; recvq := S (recvq c) |})
  end.

(** The queue is saturated: the buffer is full and nobody waits for it. *)
Definition atCapacity {A} (c : chan A) : Prop :=
  length (buf c) = cap c /\ recvq c = 0%nat.

(** ** Errors and outcomes *)

Inductive Error :=
| ErrChannelFull
| ErrCouldNotSendBlock (hash : SHA256Hash) (type : BxBlockType).

(** What a call does: it returns an [error] value ([None] is [nil]), or
    the calling goroutine is suspended inside it. *)
Inductive Outcome :=
| Returns (err : option Error)
| Blocks.

Section BxBridge.

(** Types of other packages that the bridge only passes along. *)
Context {EthConfig NodeEndpoint BxTransaction : Type}.
(** The zero value of [types.NodeEndpoint]. *)
Variable zeroEndpoint : NodeEndpoint.

Record NoActiveBlockchainPeersAlert := {}.

Record TransactionAnnouncement := {
  ta_Hashes : list SHA256Hash;
  ta_PeerID : string;
  ta_PeerEndpoint : NodeEndpoint
}.

Record Transactions := {
  ts_Transactions : list BxTransaction;
  ts_PeerEndpoint : NodeEndpoint;
  ts_ConnectionType : Z       (* utils.NodeType *)
}.

Record BlockFromNode := {
  bn_Block : BxBlock;
  bn_PeerEndpoint : NodeEndpoint
}.

Record ConnectionStatus := {
  cs_PeerEndpoint : NodeEndpoint;
  IsConnected : bool;
  IsDynamic : bool
}.

Record ValidatorListInfo := {
  ValidatorList : list string;
  BlockHeight : Z
}.

Definition transactionBacklog : nat := 2000.
Definition transactionHashesBacklog : nat := 1000.
Definition blockBacklog : nat := 100.
Definition statusBacklog : nat := 10.

(** [BxBridge] without its embedded [Converter], which no send uses. *)
Record BxBridge := mkBxBridge {
  config : chan EthConfig;
  transactionsFromNode : chan Transactions;
  transactionsFromBDN : chan Transactions;
  transactionHashesFromNode : chan TransactionAnnouncement;
  transactionHashesRequests : chan TransactionAnnouncement;
  beaconBlock : bool;
  blocksFromNode : chan BlockFromNode;
  ethBlocksFromBDN : chan BxBlock;
  beaconBlocksFromBDN : chan BxBlock;
  confirmedBlockFromNode : chan BlockFromNode;
  noActiveBlockchainPeers : chan NoActiveBlockchainPeersAlert;
  blockchainStatusRequest : chan unit;
  blockchainStatusResponse : chan (list NodeEndpoint);
  nodeConnectionCheckRequest : chan unit;
  nodeConnectionCheckResponse : chan NodeEndpoint;
  blockchainConnectionStatus : chan ConnectionStatus;
  disconnectEvent : chan NodeEndpoint;
  validatorInfo : chan ValidatorListInfo
}.

Definition NewBxBridge (beaconBlock : bool) : BxBridge :=
  {|
     config := make EthConfig 1;
     transactionsFromNode := make Transactions transactionBacklog;
     transactionsFromBDN := make Transactions transactionBacklog;
     transactionHashesFromNode := make TransactionAnnouncement transactionHashesBacklog;
     transactionHashesRequests := make TransactionAnnouncement transactionHashesBacklog;
     beaconBlock := beaconBlock;
     blocksFromNode := make BlockFromNode blockBacklog;
     ethBlocksFromBDN := make BxBlock blockBacklog;
     beaconBlocksFromBDN := make BxBlock blockBacklog;
     confirmedBlockFromNode := make BlockFromNode blockBacklog;
     noActiveBlockchainPeers := make NoActiveBlockchainPeersAlert 0;
     blockchainStatusRequest := make unit statusBacklog;
     blockchainStatusResponse := make (list NodeEndpoint) statusBacklog;
     nodeConnectionCheckRequest := make unit statusBacklog;
     nodeConnectionCheckResponse := make NodeEndpoint statusBacklog;
     blockchainConnectionStatus := make ConnectionStatus transactionBacklog;
     disconnectEvent := make NodeEndpoint statusBacklog;
     validatorInfo := make ValidatorListInfo 1 |}.

(** Assignment to one channel field; [q1] ... [q17] are the channels in
    the order of the record and [bb] is the [beaconBlock] flag. *)
Definition set_config (c : chan EthConfig) (b : BxBridge)
  : BxBridge :=
  let 'mkBxBridge q1 q2 q3 q4 q5 bb q6 q7 q8 q9 q10 q11 q12 q13 q14 q15 q16
    q17 := b in
  mkBxBridge c q2 q3 q4 q5 bb q6 q7 q8 q9 q10 q11 q12 q13 q14 q15 q16 q17.
Definition set_transactionsFromNode (c : chan Transactions) (b : BxBridge)
  : BxBridge :=
  let 'mkBxBridge q1 q2 q3 q4 q5 bb q6 q7 q8 q9 q10 q11 q12 q13 q14 q15 q16
    q17 := b in
  mkBxBridge q1 c q3 q4 q5 bb q6 q7 q8 q9 q10 q11 q12 q13 q14 q15 q16 q17.
Definition set_transactionsFromBDN (c : chan Transactions) (b : BxBridge)
  : BxBridge :=
  let 'mkBxBridge q1 q2 q3 q4 q5 bb q6 q7 q8 q9 q10 q11 q12 q13 q14 q15 q16
    q17 := b in
  mkBxBridge q1 q2 c q4 q5 bb q6 q7 q8 q9 q10 q11 q12 q13 q14 q15 q16 q17.
Definition set_transactionHashesFromNode (c : chan TransactionAnnouncement) (b : BxBridge)
  : BxBridge :=
  let 'mkBxBridge q1 q2 q3 q4 q5 bb q6 q7 q8 q9 q10 q11 q12 q13 q14 q15 q16
    q17 := b in
  mkBxBridge q1 q2 q3 c q5 bb q6 q7 q8 q9 q10 q11 q12 q13 q14 q15 q16 q17.
Definition set_transactionHashesRequests (c : chan TransactionAnnouncement) (b : BxBridge)
  : BxBridge :=
  let 'mkBxBridge q1 q2 q3 q4 q5 bb q6 q7 q8 q9 q10 q11 q12 q13 q14 q15 q16
    q17 := b in
  mkBxBridge q1 q2 q3 q4 c bb q6 q7 q8 q9 q10 q11 q12 q13 q14 q15 q16 q17.
Definition set_blocksFromNode (c : chan BlockFromNode) (b : BxBridge)
  : BxBridge :=
  let 'mkBxBridge q1 q2 q3 q4 q5 bb q6 q7 q8 q9 q10 q11 q12 q13 q14 q15 q16
    q17 := b in
  mkBxBridge q1 q2 q3 q4 q5 bb c q7 q8 q9 q10 q11 q12 q13 q14 q15 q16 q17.
Definition set_ethBlocksFromBDN (c : chan BxBlock) (b : BxBridge)
  : BxBridge :=
  let 'mkBxBridge q1 q2 q3 q4 q5 bb q6 q7 q8 q9 q10 q11 q12 q13 q14 q15 q16
    q17 := b in
  mkBxBridge q1 q2 q3 q4 q5 bb q6 c q8 q9 q10 q11 q12 q13 q14 q15 q16 q17.
Definition set_beaconBlocksFromBDN (c : chan BxBlock) (b : BxBridge)
  : BxBridge :=
  let 'mkBxBridge q1 q2 q3 q4 q5 bb q6 q7 q8 q9 q10 q11 q12 q13 q14 q15 q16
    q17 := b in
  mkBxBridge q1 q2 q3 q4 q5 bb q6 q7 c q9 q10 q11 q12 q13 q14 q15 q16 q17.
Definition set_confirmedBlockFromNode (c : chan BlockFromNode) (b : BxBridge)
  : BxBridge :=
  let 'mkBxBridge q1 q2 q3 q4 q5 bb q6 q7 q8 q9 q10 q11 q12 q13 q14 q15 q16
    q17 := b in
  mkBxBridge q1 q2 q3 q4 q5 bb q6 q7 q8 c q10 q11 q12 q13 q14 q15 q16 q17.
Definition set_noActiveBlockchainPeers (c : chan NoActiveBlockchainPeersAlert) (b : BxBridge)
  : BxBridge :=
  let 'mkBxBridge q1 q2 q3 q4 q5 bb q6 q7 q8 q9 q10 q11 q12 q13 q14 q15 q16
    q17 := b in
  mkBxBridge q1 q2 q3 q4 q5 bb q6 q7 q8 q9 c q11 q12 q13 q14 q15 q16 q17.
Definition set_blockchainStatusRequest (c : chan unit) (b : BxBridge)
  : BxBridge :=
  let 'mkBxBridge q1 q2 q3 q4 q5 bb q6 q7 q8 q9 q10 q11 q12 q13 q14 q15 q16
    q17 := b in
  mkBxBridge q1 q2 q3 q4 q5 bb q6 q7 q8 q9 q10 c q12 q13 q14 q15 q16 q17.
Definition set_blockchainStatusResponse (c : chan (list NodeEndpoint)) (b : BxBridge)
  : BxBridge :=
  let 'mkBxBridge q1 q2 q3 q4 q5 bb q6 q7 q8 q9 q10 q11 q12 q13 q14 q15 q16
    q17 := b in
  mkBxBridge q1 q2 q3 q4 q5 bb q6 q7 q8 q9 q10 q11 c q13 q14 q15 q16 q17.
Definition set_nodeConnectionCheckRequest (c : chan unit) (b : BxBridge)
  : BxBridge :=
  let 'mkBxBridge q1 q2 q3 q4 q5 bb q6 q7 q8 q9 q10 q11 q12 q13 q14 q15 q16
    q17 := b in
  mkBxBridge q1 q2 q3 q4 q5 bb q6 q7 q8 q9 q10 q11 q12 c q14 q15 q16 q17.
Definition set_nodeConnectionCheckResponse (c : chan NodeEndpoint) (b : BxBridge)
  : BxBridge :=
  let 'mkBxBridge q1 q2 q3 q4 q5 bb q6 q7 q8 q9 q10 q11 q12 q13 q14 q15 q16
    q17 := b in
  mkBxBridge q1 q2 q3 q4 q5 bb q6 q7 q8 q9 q10 q11 q12 q13 c q15 q16 q17.
Definition set_blockchainConnectionStatus (c : chan ConnectionStatus) (b : BxBridge)
  : BxBridge :=
  let 'mkBxBridge q1 q2 q3 q4 q5 bb q6 q7 q8 q9 q10 q11 q12 q13 q14 q15 q16
    q17 := b in
  mkBxBridge q1 q2 q3 q4 q5 bb q6 q7 q8 q9 q10 q11 q12 q13 q14 c q16 q17.
Definition set_disconnectEvent (c : chan NodeEndpoint) (b : BxBridge)
  : BxBridge :=
  let 'mkBxBridge q1 q2 q3 q4 q5 bb q6 q7 q8 q9 q10 q11 q12 q13 q14 q15 q16
    q17 := b in
  mkBxBridge q1 q2 q3 q4 q5 bb q6 q7 q8 q9 q10 q11 q12 q13 q14 q15 c q17.
Definition set_validatorInfo (c : chan ValidatorListInfo) (b : BxBridge)
  : BxBridge :=
  let 'mkBxBridge q1 q2 q3 q4 q5 bb q6 q7 q8 q9 q10 q11 q12 q13 q14 q15 q16
    q17 := b in
  mkBxBridge q1 q2 q3 q4 q5 bb q6 q7 q8 q9 q10 q11 q12 q13 q14 q15 q16 c.

(** *** Sending *)

(** The body shared by the [Send*] methods: a [select] on one channel whose
    [default] case returns [ErrChannelFull]. *)
Definition enqueue {A} (get : BxBridge -> chan A)
    (set : chan A -> BxBridge -> BxBridge) (x : A) (b : BxBridge)
  : BxBridge * Outcome :=
  match select_send (get b) x with
  | (c, true) => (set c b, Returns None)
  | (_, false) => (b, Returns (Some ErrChannelFull))
  end.

(** [b.config <- config; return nil] *)
Definition UpdateNetworkConfig (b : BxBridge) (cfg : EthConfig)
  : BxBridge * Outcome :=
  match block_send (config b) cfg with
  | Some c => (set_config c b, Returns None)
  | None => (b, Blocks)
  end.

Definition AnnounceTransactionHashes (b : BxBridge) (peerID : string)
    (hashes : list SHA256Hash) (endpoint : NodeEndpoint) :=
  enqueue transactionHashesFromNode set_transactionHashesFromNode
    {| ta_Hashes := hashes; ta_PeerID := peerID; ta_PeerEndpoint := endpoint |} b.

Definition RequestTransactionsFromNode (b : BxBridge) (peerID : string)
    (hashes : list SHA256Hash) :=
  enqueue transactionHashesRequests set_transactionHashesRequests
    {| ta_Hashes := hashes; ta_PeerID := peerID;
       ta_PeerEndpoint := zeroEndpoint |} b.

Definition SendTransactionsFromBDN (b : BxBridge) (transactions : Transactions) :=
  enqueue transactionsFromBDN set_transactionsFromBDN transactions b.

Definition SendTransactionsToBDN (b : BxBridge) (txs : list BxTransaction)
    (peerEndpoint : NodeEndpoint) :=
  enqueue transactionsFromNode set_transactionsFromNode
    {| ts_Transactions := txs; ts_PeerEndpoint := peerEndpoint;
       ts_ConnectionType := 0 |} b.

Definition SendConfirmedBlockToGateway (b : BxBridge) (block : BxBlock)
    (peerEndpoint : NodeEndpoint) :=
  enqueue confirmedBlockFromNode set_confirmedBlockFromNode
    {| bn_Block := block; bn_PeerEndpoint := peerEndpoint |} b.

Definition SendBlockToBDN (b : BxBridge) (block : BxBlock)
    (peerEndpoint : NodeEndpoint) :=
  enqueue blocksFromNode set_blocksFromNode
    {| bn_Block := block; bn_PeerEndpoint := peerEndpoint |} b.

Definition SendBlockToNode (b : BxBridge) (block : BxBlock)
  : BxBridge * Outcome :=
  match blk_Type block with
  | BxBlockTypeEth => enqueue ethBlocksFromBDN set_ethBlocksFromBDN block b
  | BxBlockTypeBeaconPhase0 | BxBlockTypeBeaconAltair
  | BxBlockTypeBeaconBellatrix | BxBlockTypeBeaconCapella =>
      if negb (beaconBlock b) then (b, Returns None)
      else enqueue beaconBlocksFromBDN set_beaconBlocksFromBDN block b
  | BxBlockTypeUnknown =>
      (b, Returns (Some (ErrCouldNotSendBlock (blk_Hash block) (blk_Type block))))
  end.

Definition SendNoActiveBlockchainPeersAlert (b : BxBridge) :=
  enqueue noActiveBlockchainPeers set_noActiveBlockchainPeers
    Build_NoActiveBlockchainPeersAlert b.

Definition SendBlockchainStatusRequest (b : BxBridge) :=
  enqueue blockchainStatusRequest set_blockchainStatusRequest tt b.

Definition SendBlockchainStatusResponse (b : BxBridge)
    (endpoints : list NodeEndpoint) :=
  enqueue blockchainStatusResponse set_blockchainStatusResponse endpoints b.

Definition SendNodeConnectionCheckRequest (b : BxBridge) :=
  enqueue nodeConnectionCheckRequest set_nodeConnectionCheckRequest tt b.

Definition SendNodeConnectionCheckResponse (b : BxBridge)
    (endpoints : NodeEndpoint) :=
  enqueue nodeConnectionCheckResponse set_nodeConnectionCheckResponse
    endpoints b.

Definition SendValidatorListInfo (b : BxBridge) (info : ValidatorListInfo) :=
  enqueue validatorInfo set_validatorInfo info b.

Definition SendBlockchainConnectionStatus (b : BxBridge)
    (connStatus : ConnectionStatus) :=
  enqueue blockchainConnectionStatus set_blockchainConnectionStatus
    connStatus b.

Definition SendDisconnectEvent (b : BxBridge) (endpoint : NodeEndpoint) :=
  enqueue disconnectEvent set_disconnectEvent endpoint b.

(** *** The bridge as a table of queues *)

Inductive queue :=
| Qconfig | QtransactionsFromNode | QtransactionsFromBDN
| QtransactionHashesFromNode | QtransactionHashesRequests
| QblocksFromNode | QethBlocksFromBDN | QbeaconBlocksFromBDN
| QconfirmedBlockFromNode | QnoActiveBlockchainPeers
| QblockchainStatusRequest | QblockchainStatusResponse
| QnodeConnectionCheckRequest | QnodeConnectionCheckResponse
| QblockchainConnectionStatus | QdisconnectEvent | QvalidatorInfo.

(** Capacity, buffered elements and parked receivers of a queue. *)
Definition shape {A} (c : chan A) : nat * nat * nat :=
  (cap c, length (buf c), recvq c).

Definition queueShape (q : queue) (b : BxBridge) : nat * nat * nat :=
  match q with
  | Qconfig => shape (config b)
  | QtransactionsFromNode => shape (transactionsFromNode b)
  | QtransactionsFromBDN => shape (transactionsFromBDN b)
  | QtransactionHashesFromNode => shape (transactionHashesFromNode b)
  | QtransactionHashesRequests => shape (transactionHashesRequests b)
  | QblocksFromNode => shape (blocksFromNode b)
  | QethBlocksFromBDN => shape (ethBlocksFromBDN b)
  | QbeaconBlocksFromBDN => shape (beaconBlocksFromBDN b)
  | QconfirmedBlockFromNode => shape (confirmedBlockFromNode b)
  | QnoActiveBlockchainPeers => shape (noActiveBlockchainPeers b)
  | QblockchainStatusRequest => shape (blockchainStatusRequest b)
  | QblockchainStatusResponse => shape (blockchainStatusResponse b)
  | QnodeConnectionCheckRequest => shape (nodeConnectionCheckRequest b)
  | QnodeConnectionCheckResponse => shape (nodeConnectionCheckResponse b)
  | QblockchainConnectionStatus => shape (blockchainConnectionStatus b)
  | QdisconnectEvent => shape (disconnectEvent b)
  | QvalidatorInfo => shape (validatorInfo b)
  end.

(** The queue holds [cap] elements and no receiver waits for it. *)
Definition saturated (q : queue) (b : BxBridge) : Prop :=
  exists n, queueShape q b = (n, n, 0%nat).

(** A consumer takes one element from the channel a [Receive*] method
    returned. *)
Definition takeFrom {A} (get : BxBridge -> chan A)
    (set : chan A -> BxBridge -> BxBridge) (b : BxBridge) : BxBridge :=
  set (snd (recv (get b))) b.

Definition receiveOne (q : queue) (b : BxBridge) : BxBridge :=
  match q with
  | Qconfig => takeFrom config set_config b
  | QtransactionsFromNode =>
      takeFrom transactionsFromNode set_transactionsFromNode b
  | QtransactionsFromBDN =>
      takeFrom transactionsFromBDN set_transactionsFromBDN b
  | QtransactionHashesFromNode =>
      takeFrom transactionHashesFromNode set_transactionHashesFromNode b
  | QtransactionHashesRequests =>
      takeFrom transactionHashesRequests set_transactionHashesRequests b
  | QblocksFromNode => takeFrom blocksFromNode set_blocksFromNode b
  | QethBlocksFromBDN => takeFrom ethBlocksFromBDN set_ethBlocksFromBDN b
  | QbeaconBlocksFromBDN =>
      takeFrom beaconBlocksFromBDN set_beaconBlocksFromBDN b
  | QconfirmedBlockFromNode =>
      takeFrom confirmedBlockFromNode set_confirmedBlockFromNode b
  | QnoActiveBlockchainPeers =>
      takeFrom noActiveBlockchainPeers set_noActiveBlockchainPeers b
  | QblockchainStatusRequest =>
      takeFrom blockchainStatusRequest set_blockchainStatusRequest b
  | QblockchainStatusResponse =>
      takeFrom blockchainStatusResponse set_blockchainStatusResponse b
  | QnodeConnectionCheckRequest =>
      takeFrom nodeConnectionCheckRequest set_nodeConnectionCheckRequest b
  | QnodeConnectionCheckResponse =>
      takeFrom nodeConnectionCheckResponse set_nodeConnectionCheckResponse b
  | QblockchainConnectionStatus =>
      takeFrom blockchainConnectionStatus set_blockchainConnectionStatus b
  | QdisconnectEvent => takeFrom disconnectEvent set_disconnectEvent b
  | QvalidatorInfo => takeFrom validatorInfo set_validatorInfo b
  end.

(** The enqueue operations of the [Bridge] interface, with their
    arguments. *)
Inductive SendOp :=
| OpUpdateNetworkConfig (cfg : EthConfig)
| OpAnnounceTransactionHashes (peerID : string) (hashes : list SHA256Hash)
    (endpoint : NodeEndpoint)
| OpRequestTransactionsFromNode (peerID : string) (hashes : list SHA256Hash)
| OpSendTransactionsFromBDN (transactions : Transactions)
| OpSendTransactionsToBDN (txs : list BxTransaction) (peerEndpoint : NodeEndpoint)
| OpSendConfirmedBlockToGateway (block : BxBlock) (peerEndpoint : NodeEndpoint)
| OpSendBlockToBDN (block : BxBlock) (peerEndpoint : NodeEndpoint)
| OpSendBlockToNode (block : BxBlock)
| OpSendNoActiveBlockchainPeersAlert
| OpSendBlockchainStatusRequest
| OpSendBlockchainStatusResponse (endpoints : list NodeEndpoint)
| OpSendNodeConnectionCheckRequest
| OpSendNodeConnectionCheckResponse (endpoints : NodeEndpoint)
| OpSendValidatorListInfo (info : ValidatorListInfo)
| OpSendBlockchainConnectionStatus (connStatus : ConnectionStatus)
| OpSendDisconnectEvent (endpoint : NodeEndpoint).

Definition run (op : SendOp) (b : BxBridge) : BxBridge * Outcome :=
  match op with
  | OpUpdateNetworkConfig cfg => UpdateNetworkConfig b cfg
  | OpAnnounceTransactionHashes p h e => AnnounceTransactionHashes b p h e
  | OpRequestTransactionsFromNode p h => RequestTransactionsFromNode b p h
  | OpSendTransactionsFromBDN t => SendTransactionsFromBDN b t
  | OpSendTransactionsToBDN t e => SendTransactionsToBDN b t e
  | OpSendConfirmedBlockToGateway bl e => SendConfirmedBlockToGateway b bl e
  | OpSendBlockToBDN bl e => SendBlockToBDN b bl e
  | OpSendBlockToNode bl => SendBlockToNode b bl
  | OpSendNoActiveBlockchainPeersAlert => SendNoActiveBlockchainPeersAlert b
  | OpSendBlockchainStatusRequest => SendBlockchainStatusRequest b
  | OpSendBlockchainStatusResponse e => SendBlockchainStatusResponse b e
  | OpSendNodeConnectionCheckRequest => SendNodeConnectionCheckRequest b
  | OpSendNodeConnectionCheckResponse e => SendNodeConnectionCheckResponse b e
  | OpSendValidatorListInfo i => SendValidatorListInfo b i
  | OpSendBlockchainConnectionStatus s => SendBlockchainConnectionStatus b s
  | OpSendDisconnectEvent e => SendDisconnectEvent b e
  end.

(** The queue an operation sends to, if it sends at all. *)
Definition target (op : SendOp) (b : BxBridge) : option queue :=
  match op with
  | OpUpdateNetworkConfig _ => Some Qconfig
  | OpAnnounceTransactionHashes _ _ _ => Some QtransactionHashesFromNode
  | OpRequestTransactionsFromNode _ _ => Some QtransactionHashesRequests
  | OpSendTransactionsFromBDN _ => Some QtransactionsFromBDN
  | OpSendTransactionsToBDN _ _ => Some QtransactionsFromNode
  | OpSendConfirmedBlockToGateway _ _ => Some QconfirmedBlockFromNode
  | OpSendBlockToBDN _ _ => Some QblocksFromNode
  | OpSendBlockToNode block =>
      match blk_Type block with
      | BxBlockTypeEth => Some QethBlocksFromBDN
      | BxBlockTypeUnknown => None
      | _ => if beaconBlock b then Some QbeaconBlocksFromBDN else None
      end
  | OpSendNoActiveBlockchainPeersAlert => Some QnoActiveBlockchainPeers
  | OpSendBlockchainStatusRequest => Some QblockchainStatusRequest
  | OpSendBlockchainStatusResponse _ => Some QblockchainStatusResponse
  | OpSendNodeConnectionCheckRequest => Some QnodeConnectionCheckRequest
  | OpSendNodeConnectionCheckResponse _ => Some QnodeConnectionCheckResponse
  | OpSendValidatorListInfo _ => Some QvalidatorInfo
  | OpSendBlockchainConnectionStatus _ => Some QblockchainConnectionStatus
  | OpSendDisconnectEvent _ => Some QdisconnectEvent
  end.

(** The operations written as a [select] with a [default] case: all but
    [UpdateNetworkConfig]. *)
Definition usesSelect (op : SendOp) : bool :=
  match op with OpUpdateNetworkConfig _ => false | _ => true end.

End BxBridge.

(** ** Views of the bridge used to state its properties *)

Section BridgeViews.

Context {EthConfig NodeEndpoint BxTransaction : Type}.

Local Abbreviation Bridge := (@BxBridge EthConfig NodeEndpoint BxTransaction).

(** A queue of the bridge with its element type. *)
Definition queueChan (q : queue) (b : Bridge) : {A : Type & chan A} :=
  match q with
  | Qconfig => existT _ (config b)
  | QtransactionsFromNode => existT _ (transactionsFromNode b)
  | QtransactionsFromBDN => existT _ (transactionsFromBDN b)
  | QtransactionHashesFromNode => existT _ (transactionHashesFromNode b)
  | QtransactionHashesRequests => existT _ (transactionHashesRequests b)
  | QblocksFromNode => existT _ (blocksFromNode b)
  | QethBlocksFromBDN => existT _ (ethBlocksFromBDN b)
  | QbeaconBlocksFromBDN => existT _ (beaconBlocksFromBDN b)
  | QconfirmedBlockFromNode => existT _ (confirmedBlockFromNode b)
  | QnoActiveBlockchainPeers => existT _ (noActiveBlockchainPeers b)
  | QblockchainStatusRequest => existT _ (blockchainStatusRequest b)
  | QblockchainStatusResponse => existT _ (blockchainStatusResponse b)
  | QnodeConnectionCheckRequest => existT _ (nodeConnectionCheckRequest b)
  | QnodeConnectionCheckResponse => existT _ (nodeConnectionCheckResponse b)
  | QblockchainConnectionStatus => existT _ (blockchainConnectionStatus b)
  | QdisconnectEvent => existT _ (disconnectEvent b)
  | QvalidatorInfo => existT _ (validatorInfo b)
  end.

(** A send on the queue can proceed: a consumer waits or there is room. *)
Definition queueReady (q : queue) (b : Bridge) : bool :=
  let '(c, len, waiting) := queueShape q b in
  (0 <? waiting)%nat || (len <? c)%nat.

(** The shape of a queue after a send that proceeded. *)
Definition shapeAfterSend (s : nat * nat * nat) : nat * nat * nat :=
  let '(c, len, waiting) := s in
  if (0 <? waiting)%nat then (c, len, pred waiting) else (c, S len, waiting).

(** [SendBlockToNode] for each block of a list, in order, with the
    outcomes. *)
Fixpoint sendBlocksToNode (b : Bridge) (blocks : list BxBlock)
  : Bridge * list Outcome :=
  match blocks with
  | [] => (b, [])
  | block :: rest =>
      let '(b1, o) := SendBlockToNode b block in
      let '(b2, os) := sendBlocksToNode b1 rest in
      (b2, o :: os)
  end.

End BridgeViews.

(** ** A bridge at work *)

Definition bridge0 : @BxBridge Z string unit := NewBxBridge false.

Definition send0 := run (EthConfig := Z) (BxTransaction := unit) ""%string.

(** The bridge after one configuration update that nobody has consumed. *)
Definition bridge1 : @BxBridge Z string unit :=
  fst (UpdateNetworkConfig bridge0 56).

Definition someBeaconBlock : BxBlock :=
  NewRawBxBlock 200 201 BxBlockTypeBeaconCapella [] [] [3; 4] None 42 6.
Definition someEthBlock : BxBlock :=
  NewRawBxBlock 100 EmptyHash BxBlockTypeEth [0xF9; 1] [] [0xC0] (Some 17) 42 6.
Definition someUnknownBlock : BxBlock :=
  NewRawBxBlock 300 EmptyHash BxBlockTypeUnknown [] [] [] None 0 0.

(** A bridge whose validator-info queue holds one unconsumed element. *)
Definition someValidatorInfo : ValidatorListInfo :=
  {| ValidatorList := ["0xA"%string]; BlockHeight := 100 |}.

Definition bridge2 : @BxBridge Z string unit :=
  fst (send0 (OpSendValidatorListInfo someValidatorInfo) bridge0).

(** ** Properties of channels *)

Section ChanFacts.

Context {A : Type}.
Implicit Types (c : chan A) (x y : A).

Lemma ready_atCapacity c : atCapacity c -> ready c = false.
Proof.
  intros [Hlen Hq]. unfold ready. rewrite Hq, Hlen, !Nat.ltb_irrefl.
  reflexivity.
Qed.

Lemma select_send_atCapacity c x : atCapacity c -> select_send c x = (c, false).
Proof. intros H. unfold select_send. now rewrite ready_atCapacity. Qed.

Lemma block_send_atCapacity c x : atCapacity c -> block_send c x = None.
Proof. intros H. unfold block_send. now rewrite ready_atCapacity. Qed.

(** After one element has been received from a saturated channel, one
    send goes through, to the back of the buffer, and saturates it again. *)
Lemma select_send_after_recv c x y rest :
  atCapacity c -> buf c = y :: rest ->
  recv c = (Some y, {| cap := cap c; buf := rest; recvq := 0 |})
  /\ select_send {| cap := cap c; buf := rest; recvq := 0 |} x
     = ({| cap := cap c; buf := rest ++ [x]; recvq := 0 |}, true)
  /\ atCapacity {| cap := cap c; buf := rest ++ [x]; recvq := 0 |}.
Proof.
  intros [Hlen Hq] Hbuf. unfold recv, select_send, ready, push, atCapacity.
  rewrite Hbuf in *. rewrite Hq. simpl in *.
  rewrite <- Hlen, length_app. simpl.
  replace (length rest <? S (length rest))%nat with true
    by (symmetry; apply Nat.ltb_lt; lia).
  repeat split; lia.
Qed.

End ChanFacts.

(** ** Properties of the bridge *)

Section BridgeFacts.

Context {EthConfig NodeEndpoint BxTransaction : Type}.
Variable zeroEndpoint : NodeEndpoint.

Local Abbreviation Bridge := (@BxBridge EthConfig NodeEndpoint BxTransaction).
Local Abbreviation Op := (@SendOp EthConfig NodeEndpoint BxTransaction).

Lemma shape_atCapacity {A} (c : chan A) (n : nat) :
  shape c = (n, n, 0%nat) -> atCapacity c.
Proof. unfold shape, atCapacity. intros H. injection H as -> -> ->. auto. Qed.

Lemma shape_nonempty {A} (c : chan A) (n : nat) :
  shape c = (S n, S n, 0%nat) ->
  atCapacity c /\ exists y rest, buf c = y :: rest.
Proof.
  intros H. split; [now apply shape_atCapacity in H |].
  unfold shape in H. injection H as _ Hlen _.
  destruct (buf c) as [| y rest]; [discriminate | eauto].
Qed.

Local Ltac unfold_sends :=
  unfold AnnounceTransactionHashes, RequestTransactionsFromNode,
    SendTransactionsFromBDN, SendTransactionsToBDN,
    SendConfirmedBlockToGateway, SendBlockToBDN, SendBlockToNode,
    SendNoActiveBlockchainPeersAlert, SendBlockchainStatusRequest,
    SendBlockchainStatusResponse, SendNodeConnectionCheckRequest,
    SendNodeConnectionCheckResponse, SendValidatorListInfo,
    SendBlockchainConnectionStatus, SendDisconnectEvent, enqueue in *.

(** Case analysis on the operation, and for [SendBlockToNode] on the
    block type and the [beaconBlock] flag. *)
Local Ltac by_cases op b :=
  let blk := fresh "blk" in
  destruct op as [ | | | | | | | blk | | | | | | | | ];
  try discriminate; cbn [target run] in *; unfold_sends;
  try (destruct (blk_Type blk); try discriminate;
       try (destruct b; cbn [beaconBlock] in *;
            match goal with
            | H : (if ?f then _ else _) = Some _ |- _ =>
                destruct f; [| discriminate H]
            end)).

(** Every operation written with [select] returns [ErrChannelFull], and
    leaves the bridge as it is, when its queue is saturated. *)
Lemma select_enqueue_full (op : Op) (b : Bridge) (q : queue) :
  usesSelect op = true -> target op b = Some q -> saturated q b ->
  run zeroEndpoint op b = (b, Returns (Some ErrChannelFull)).
Proof.
  intros Hsel Htarget [n Hshape].
  by_cases op b;
    injection Htarget as <-; cbn [queueShape] in Hshape;
    apply shape_atCapacity in Hshape; cbn [negb];
    now rewrite select_send_atCapacity.
Qed.

(** After one element has been received from the saturated queue, one
    enqueue succeeds; it saturates the queue again, so that the next one
    returns [ErrChannelFull]. *)
Lemma select_enqueue_after_receive (op : Op) (b : Bridge) (q : queue) (n : nat) :
  usesSelect op = true -> target op b = Some q ->
  queueShape q b = (S n, S n, 0%nat) ->
  exists b1 : Bridge,
    run zeroEndpoint op (receiveOne q b) = (b1, Returns None)
    /\ saturated q b1
    /\ run zeroEndpoint op b1 = (b1, Returns (Some ErrChannelFull)).
Proof.
  intros Hsel Htarget Hshape.
  assert (Hnext : forall b1 : Bridge,
             target op b1 = Some q -> saturated q b1 ->
             run zeroEndpoint op b1 = (b1, Returns (Some ErrChannelFull)))
    by (intros; now apply select_enqueue_full with (q := q)).
  by_cases op b;
    injection Htarget as <-; cbn [queueShape] in Hshape;
    apply shape_nonempty in Hshape;
    destruct Hshape as (Hcap & y & rest & Hbuf);
    unfold receiveOne, takeFrom;
    match goal with
    | |- context [select_send _ ?x] =>
        destruct (select_send_after_recv _ x _ _ Hcap Hbuf)
          as (Hrecv & Hsend & [Hlen _])
    end;
    try destruct b; cbn in Hrecv, Hsend, Hlen |- *;
    rewrite Hrecv; cbn; rewrite Hsend;
    (eexists; split; [reflexivity |]);
    (split; [| apply Hnext; [reflexivity |]]);
    unfold saturated; eexists; cbn; unfold shape; cbn; rewrite Hlen;
    reflexivity.
Qed.

(** C6.  [UpdateNetworkConfig] is a plain channel send.  When the config
    queue is saturated (it has capacity 1, so after one unconsumed update)
    the caller is suspended: the call neither returns [ErrChannelFull] nor
    returns at all, unlike the operations written with [select]. *)
Theorem UpdateNetworkConfig_blocks_when_full (b : Bridge) (cfg : EthConfig) :
  saturated Qconfig b ->
  UpdateNetworkConfig b cfg = (b, Blocks)
  /\ snd (UpdateNetworkConfig b cfg) <> Returns (Some ErrChannelFull).
Proof.
  intros [n Hshape]. cbn [queueShape] in Hshape.
  apply shape_atCapacity in Hshape. unfold UpdateNetworkConfig.
  rewrite block_send_atCapacity by assumption. split; [reflexivity |].
  discriminate.
Qed.

(** C7.  [SendBlockToNode] dispatches on the block type.  A beacon block
    on a bridge built with [beaconBlock = false] returns [nil] and leaves
    every queue as it was.  An Eth block is enqueued on the eth queue by
    the non-blocking send.  When the queue accepts it, [nil] is returned
    and the eth queue of the resulting bridge is the old one with the
    block sent to it: with no consumer waiting, its buffer is the old
    buffer followed by the block; every other queue and the [beaconBlock]
    flag are as they were.  When the queue does not accept it,
    [ErrChannelFull] is returned and the bridge is as it was.  The
    unknown block type returns the "could not send block" error and
    leaves the bridge as it was. *)
Theorem SendBlockToNode_routing (b : Bridge) (block : BxBlock) :
  (isBeacon (blk_Type block) = true -> beaconBlock b = false ->
   SendBlockToNode b block = (b, Returns None))
  /\ (blk_Type block = BxBlockTypeEth ->
      SendBlockToNode b block
      = enqueue ethBlocksFromBDN set_ethBlocksFromBDN block b
      /\ (ready (ethBlocksFromBDN b) = true ->
          SendBlockToNode b block
          = (set_ethBlocksFromBDN (push (ethBlocksFromBDN b) block) b,
             Returns None)
          /\ ethBlocksFromBDN (fst (SendBlockToNode b block))
             = push (ethBlocksFromBDN b) block
          /\ (recvq (ethBlocksFromBDN b) = 0%nat ->
              buf (ethBlocksFromBDN (fst (SendBlockToNode b block)))
              = buf (ethBlocksFromBDN b) ++ [block]
              /\ cap (ethBlocksFromBDN (fst (SendBlockToNode b block)))
                 = cap (ethBlocksFromBDN b))
          /\ (forall q, q <> QethBlocksFromBDN ->
              queueChan q (fst (SendBlockToNode b block)) = queueChan q b)
          /\ beaconBlock (fst (SendBlockToNode b block)) = beaconBlock b)
      /\ (ready (ethBlocksFromBDN b) = false ->
          SendBlockToNode b block = (b, Returns (Some ErrChannelFull))))
  /\ (blk_Type block = BxBlockTypeUnknown ->
      SendBlockToNode b block
      = (b, Returns (Some (ErrCouldNotSendBlock (blk_Hash block)
                             BxBlockTypeUnknown)))).
Proof.
  unfold SendBlockToNode, enqueue, select_send.
  split; [| split].
  - intros Hty Hflag. rewrite Hflag.
    destruct (blk_Type block); try discriminate Hty; reflexivity.
  - intros ->. split; [reflexivity |].
    split; intros ->; [| reflexivity].
    cbn [fst]. split; [reflexivity |].
    split; [destruct b; reflexivity |].
    split.
    + intros Hq. destruct b as [? ? ? ? ? ? ? eth ? ? ? ? ? ? ? ? ? ?].
      cbn in Hq |- *. unfold push. rewrite Hq. cbn. split; reflexivity.
    + split; [| destruct b; reflexivity].
      intros q Hq. destruct b; destruct q; try reflexivity.
      contradiction.
  - intros ->. reflexivity.
Qed.

End BridgeFacts.

(** ** Further properties of the bridge *)

Section BridgeMore.

Context {EthConfig NodeEndpoint BxTransaction : Type}.
Variable zeroEndpoint : NodeEndpoint.

Local Abbreviation Bridge := (@BxBridge EthConfig NodeEndpoint BxTransaction).
Local Abbreviation Op := (@SendOp EthConfig NodeEndpoint BxTransaction).

Lemma select_send_shape {A} (c : chan A) (x : A) :
  select_send c x
  = if (0 <? recvq c)%nat || (length (buf c) <? cap c)%nat
    then (push c x, true) else (c, false).
Proof. reflexivity. Qed.

Lemma push_shape {A} (c : chan A) (x : A) :
  shape (push c x) = shapeAfterSend (shape c).
Proof.
  unfold shape, push, shapeAfterSend.
  destruct (0 <? recvq c)%nat; cbn; [reflexivity |].
  rewrite length_app. cbn. f_equal. f_equal. lia.
Qed.

Local Ltac unfold_ops :=
  unfold UpdateNetworkConfig, AnnounceTransactionHashes,
    RequestTransactionsFromNode, SendTransactionsFromBDN,
    SendTransactionsToBDN, SendConfirmedBlockToGateway, SendBlockToBDN,
    SendBlockToNode, SendNoActiveBlockchainPeersAlert,
    SendBlockchainStatusRequest, SendBlockchainStatusResponse,
    SendNodeConnectionCheckRequest, SendNodeConnectionCheckResponse,
    SendValidatorListInfo, SendBlockchainConnectionStatus,
    SendDisconnectEvent, enqueue, block_send in *.

(** No operation written with [select] ever suspends its caller, and none
    leaves a trace when it fails.  When the queue it sends to is ready the
    call returns [nil] and that queue has taken the element (or a waiting
    consumer has); when it is not, the call returns [ErrChannelFull] and
    the bridge is unchanged.  A [SendBlockToNode] that sends to no queue
    (a dropped beacon block, an unknown type) changes nothing either. *)
Theorem select_enqueue_outcome (op : Op) (b : Bridge) :
  usesSelect op = true ->
  match target op b with
  | Some q =>
      if queueReady q b
      then snd (run zeroEndpoint op b) = Returns None
           /\ queueShape q (fst (run zeroEndpoint op b))
              = shapeAfterSend (queueShape q b)
      else run zeroEndpoint op b = (b, Returns (Some ErrChannelFull))
  | None =>
      fst (run zeroEndpoint op b) = b
      /\ snd (run zeroEndpoint op b) <> Blocks
      /\ snd (run zeroEndpoint op b) <> Returns (Some ErrChannelFull)
  end.
Proof.
  intros Hsel.
  destruct op as [ | | | | | | | blk | | | | | | | | ];
    try discriminate Hsel; cbn [target run]; unfold_ops;
    try (destruct (blk_Type blk); try (destruct (beaconBlock b) eqn:Eflag));
    cbn [negb];
    try (repeat split; discriminate);
    unfold queueReady; cbn [queueShape]; unfold shape at 1;
    rewrite select_send_shape;
    match goal with
    | |- context [(0 <? recvq ?c)%nat || (length (buf ?c) <? cap ?c)%nat] =>
        destruct ((0 <? recvq c)%nat || (length (buf c) <? cap c)%nat);
        [| reflexivity]
    end;
    (split; [reflexivity |]);
    destruct b; cbn; apply push_shape.
Qed.

(** An operation touches only the queue it sends to: every other queue
    keeps its contents and its waiting consumers, and the [beaconBlock]
    flag never changes.  This holds for [UpdateNetworkConfig] too. *)
Theorem enqueue_other_queues (op : Op) (b : Bridge) (q : queue) :
  target op b <> Some q ->
  queueChan q (fst (run zeroEndpoint op b)) = queueChan q b
  /\ beaconBlock (fst (run zeroEndpoint op b)) = beaconBlock b.
Proof.
  intros Hq.
  destruct op as [ | | | | | | | blk | | | | | | | | ];
    cbn [target run] in *; unfold_ops;
    try (destruct (blk_Type blk); try (destruct (beaconBlock b) eqn:Eflag));
    cbn [negb]; try rewrite select_send_shape;
    repeat match goal with
    | |- context [if ?c then _ else _] => destruct c
    end;
    cbn [fst]; try (split; [reflexivity | assumption || reflexivity]);
    destruct b; destruct q; cbn in *; try congruence;
    split; (reflexivity || assumption).
Qed.

Lemma SendBlockToNode_eth_step (b : Bridge) (block : BxBlock) :
  blk_Type block = BxBlockTypeEth ->
  recvq (ethBlocksFromBDN b) = 0%nat ->
  SendBlockToNode b block
  = if (length (buf (ethBlocksFromBDN b)) <? cap (ethBlocksFromBDN b))%nat
    then (set_ethBlocksFromBDN
            {| cap := cap (ethBlocksFromBDN b);
               buf := buf (ethBlocksFromBDN b) ++ [block];
               recvq := 0 |} b, Returns None)
    else (b, Returns (Some ErrChannelFull)).
Proof.
  intros Hty Hq. unfold SendBlockToNode, enqueue.
  rewrite Hty, select_send_shape. unfold push. rewrite Hq.
  change (0 <? 0)%nat with false. cbv iota. rewrite orb_false_l.
  destruct (length (buf (ethBlocksFromBDN b)) <? cap (ethBlocksFromBDN b))%nat;
    reflexivity.
Qed.

(** [SendBlockToNode] keeps the order of the blocks and sheds the excess.
    Sending a list of Eth blocks to a bridge whose eth queue has no
    waiting consumer queues as many of them as there is room for, in the
    order given, behind what was already queued; those get [nil], the
    others get [ErrChannelFull] and are not queued. *)
Theorem sendBlocksToNode_eth (b : Bridge) (blocks : list BxBlock) :
  Forall (fun block => blk_Type block = BxBlockTypeEth) blocks ->
  recvq (ethBlocksFromBDN b) = 0%nat ->
  (length (buf (ethBlocksFromBDN b)) <= cap (ethBlocksFromBDN b))%nat ->
  let room := (cap (ethBlocksFromBDN b) - length (buf (ethBlocksFromBDN b)))%nat in
  let r := sendBlocksToNode b blocks in
  buf (ethBlocksFromBDN (fst r)) = buf (ethBlocksFromBDN b) ++ firstn room blocks
  /\ snd r = repeat (Returns None) (min room (length blocks))
             ++ repeat (Returns (Some ErrChannelFull)) (length blocks - room).
Proof.
  intros Hall. revert b.
  induction Hall as [| block rest Hty _ IH]; intros b Hq Hcap room r.
  - subst r. cbn. rewrite firstn_nil, app_nil_r, Nat.min_0_r. auto.
  - subst r. cbn [sendBlocksToNode].
    rewrite (SendBlockToNode_eth_step b block Hty Hq).
    destruct (Nat.ltb_spec (length (buf (ethBlocksFromBDN b)))
                (cap (ethBlocksFromBDN b))) as [Hroom | Hfull].
    + set (b1 := set_ethBlocksFromBDN _ b).
      assert (Hb1 : ethBlocksFromBDN b1
                    = {| cap := cap (ethBlocksFromBDN b);
                         buf := buf (ethBlocksFromBDN b) ++ [block];
                         recvq := 0 |})
        by (subst b1; destruct b; reflexivity).
      specialize (IH b1). rewrite Hb1 in IH. cbn [cap buf recvq] in IH.
      rewrite length_app in IH. cbn [length] in IH.
      destruct (IH eq_refl ltac:(lia)) as [IHbuf IHout]. clear IH.
      destruct (sendBlocksToNode b1 rest) as [b2 os]. cbn [fst snd] in *.
      subst room.
      destruct (cap (ethBlocksFromBDN b) - length (buf (ethBlocksFromBDN b)))%nat
        as [| room'] eqn:Eroom; [lia |].
      replace (cap (ethBlocksFromBDN b)
               - (length (buf (ethBlocksFromBDN b)) + 1))%nat
        with room' in * by lia.
      split.
      * rewrite IHbuf, <- app_assoc. reflexivity.
      * rewrite IHout. reflexivity.
    + specialize (IH b Hq Hcap). cbv zeta in IH.
      destruct IH as [IHbuf IHout].
      destruct (sendBlocksToNode b rest) as [b2 os]. cbn [fst snd] in *.
      subst room.
      replace (cap (ethBlocksFromBDN b) - length (buf (ethBlocksFromBDN b)))%nat
        with 0%nat in * by lia.
      rewrite Nat.sub_0_r in IHout. cbn [Nat.min repeat app] in *.
      cbn [firstn length Nat.sub Nat.min repeat app].
      rewrite firstn_O in IHbuf.
      split; [exact IHbuf |]. rewrite IHout. reflexivity.
Qed.

(** A configuration update sent to a bridge whose config queue is empty
    is accepted without a consumer, and it is what the consumer of
    [ReceiveNetworkConfigUpdates] then receives, leaving the queue as it
    was. *)
Theorem UpdateNetworkConfig_then_receive (b : Bridge) (cfg : EthConfig) :
  shape (config b) = (1, 0, 0)%nat ->
  snd (UpdateNetworkConfig b cfg) = Returns None
  /\ recv (config (fst (UpdateNetworkConfig b cfg))) = (Some cfg, config b)
  /\ receiveOne Qconfig (fst (UpdateNetworkConfig b cfg)) = b.
Proof.
  intros Hshape. destruct b. cbn in *.
  destruct config0 as [c l w]. unfold shape in Hshape. cbn in Hshape.
  injection Hshape as -> Hl ->. destruct l; [| discriminate].
  repeat split.
Qed.

End BridgeMore.

Lemma UpdateNetworkConfig_blocks_when_full_witness :
  UpdateNetworkConfig bridge0 56 = (bridge1, Returns None)
  /\ UpdateNetworkConfig bridge1 97 = (bridge1, Blocks)
  /\ snd (UpdateNetworkConfig bridge1 97) <> Returns (Some ErrChannelFull).
Proof.
  split; [reflexivity |].
  apply (UpdateNetworkConfig_blocks_when_full bridge1 97).
  exists 1%nat. reflexivity.
Defined.

Lemma SendBlockToNode_routing_witness :
  SendBlockToNode bridge0 someBeaconBlock = (bridge0, Returns None)
  /\ SendBlockToNode bridge0 someEthBlock
     = (set_ethBlocksFromBDN
          {| cap := 100; buf := [someEthBlock]; recvq := 0 |} bridge0,
        Returns None)
  /\ buf (ethBlocksFromBDN (fst (SendBlockToNode bridge0 someEthBlock)))
     = [someEthBlock]
  /\ fst (recv (ethBlocksFromBDN (fst (SendBlockToNode bridge0 someEthBlock))))
     = Some someEthBlock
  /\ buf (beaconBlocksFromBDN (fst (SendBlockToNode bridge0 someEthBlock)))
     = []
  /\ SendBlockToNode bridge0 someUnknownBlock
     = (bridge0, Returns (Some (ErrCouldNotSendBlock 300 BxBlockTypeUnknown))).
Proof.
  destruct (SendBlockToNode_routing bridge0 someBeaconBlock) as (Hb & _ & _).
  destruct (SendBlockToNode_routing bridge0 someEthBlock) as (_ & He & _).
  destruct (SendBlockToNode_routing bridge0 someUnknownBlock) as (_ & _ & Hu).
  destruct (He eq_refl) as (_ & Hready & _).
  destruct (Hready eq_refl) as (Hsend & _ & Hbuf & _).
  destruct (Hbuf eq_refl) as [Hbuf' _].
  split; [apply Hb; reflexivity |].
  split; [exact Hsend |].
  split; [exact Hbuf' |].
  split; [reflexivity |].
  split; [reflexivity |].
  apply Hu; reflexivity.
Defined.

Lemma select_enqueue_after_receive_witness :
  exists b1 : @BxBridge Z string unit,
    send0 (OpSendValidatorListInfo someValidatorInfo)
      (receiveOne QvalidatorInfo bridge2) = (b1, Returns None)
    /\ saturated QvalidatorInfo b1
    /\ send0 (OpSendValidatorListInfo someValidatorInfo) b1
       = (b1, Returns (Some ErrChannelFull)).
Proof.
  apply (select_enqueue_after_receive ""%string
           (OpSendValidatorListInfo someValidatorInfo) bridge2
           QvalidatorInfo 0).
  - reflexivity.
  - reflexivity.
  - reflexivity.
Defined.

Lemma select_enqueue_outcome_witness :
  send0 (OpSendValidatorListInfo someValidatorInfo) bridge2
  = (bridge2, Returns (Some ErrChannelFull)).
Proof.
  apply (select_enqueue_outcome ""%string
           (OpSendValidatorListInfo someValidatorInfo) bridge2).
  reflexivity.
Defined.

Lemma enqueue_other_queues_witness :
  queueChan QbeaconBlocksFromBDN
    (fst (send0 (OpSendBlockToNode someEthBlock) bridge0))
  = queueChan QbeaconBlocksFromBDN bridge0
  /\ beaconBlock (fst (send0 (OpSendBlockToNode someEthBlock) bridge0))
     = beaconBlock bridge0.
Proof.
  apply (enqueue_other_queues ""%string (OpSendBlockToNode someEthBlock)
           bridge0 QbeaconBlocksFromBDN).
  discriminate.
Defined.

Lemma sendBlocksToNode_eth_witness :
  let r := sendBlocksToNode bridge0 (repeat someEthBlock 101) in
  buf (ethBlocksFromBDN (fst r)) = repeat someEthBlock 100
  /\ snd r = repeat (Returns None) 100 ++ [Returns (Some ErrChannelFull)].
Proof.
  apply (sendBlocksToNode_eth bridge0 (repeat someEthBlock 101)).
  - apply Stdlib.Lists.List.Forall_forall. intros x Hx.
    apply repeat_spec in Hx. subst x.
    reflexivity.
  - reflexivity.
  - cbn. lia.
Defined.

Lemma UpdateNetworkConfig_then_receive_witness :
  snd (UpdateNetworkConfig bridge0 56) = Returns None
  /\ recv (config (fst (UpdateNetworkConfig bridge0 56)))
     = (Some 56, config bridge0)
  /\ receiveOne Qconfig (fst (UpdateNetworkConfig bridge0 56)) = bridge0.
Proof.
  apply (UpdateNetworkConfig_then_receive bridge0 56).
  reflexivity.
Defined.

(** The validator-info queue has capacity 1: a second send returns
    [ErrChannelFull], and after one receive a send goes through again. *)
Example SendValidatorListInfo_full :
  let op := OpSendValidatorListInfo
              {| ValidatorList := ["0xA"%string]; BlockHeight := 100 |} in
  let b1 := fst (send0 op bridge0) in
  snd (send0 op bridge0) = Returns None
  /\ send0 op b1 = (b1, Returns (Some ErrChannelFull))
  /\ snd (send0 op (receiveOne QvalidatorInfo b1)) = Returns None.
Proof. repeat split. Qed.

(** The no-peer alert is a rendezvous: without a consumer waiting the send
    returns [ErrChannelFull]; once a consumer waits it goes through. *)
Example SendNoActiveBlockchainPeersAlert_rendezvous :
  snd (send0 OpSendNoActiveBlockchainPeersAlert bridge0)
  = Returns (Some ErrChannelFull)
  /\ snd (send0 OpSendNoActiveBlockchainPeersAlert
            (receiveOne QnoActiveBlockchainPeers bridge0))
     = Returns None.
Proof. repeat split. Qed.

End Bridge.

Module ClientHandler.

(** ** Data of the other packages that the handler touches *)

(** A [(value, error)] return whose error text matters. *)
Inductive result (A : Type) :=
| ok (a : A)
| err (msg : string).
Arguments ok {A}.
Arguments err {A}.

Inductive TxFlag :=
| PaidTx | LocalRegion | DeliverToNode | ValidatorsOnly | NextValidator
| FrontRunningProtection.

Inductive RPCErrorCode :=
| InvalidRequest | InvalidParams | MethodNotFound | InternalError
| AccountIDError.

Inductive NodeType := CloudAPI | Websocket.

(** [connections.NewRPCConn accountID remoteAddress networkNum connType] *)
Record Conn := NewRPCConn {
  conn_AccountID : string;
  conn_RemoteAddress : string;
  conn_NetworkNum : NetworkNum;
  conn_Type : NodeType
}.

(** [bxmessage.Tx]: [NewTx] fills the first five fields. *)
Record Tx := mkTx {
  tx_Hash : SHA256Hash;
  tx_Content : bytes;
  tx_NetworkNum : NetworkNum;
  tx_Flags : Z;
  tx_AccountID : string;
  tx_Fallback : Z;                 (* uint16, milliseconds *)
  tx_WalletID : string * string    (* wallet slots 0 and 1 *)
}.

Definition NewTx (hash : SHA256Hash) (content : bytes) (networkNum : NetworkNum)
    (flags : Z) (accountID : string) : Tx :=
  mkTx hash content networkNum flags accountID 0 (""%string, ""%string).

Definition SetFallback (tx : Tx) (fallback : Z) : Tx :=
  mkTx (tx_Hash tx) (tx_Content tx) (tx_NetworkNum tx) (tx_Flags tx)
    (tx_AccountID tx) fallback (tx_WalletID tx).

Definition SetWalletID (tx : Tx) (idx : nat) (wallet : string) : Tx :=
  mkTx (tx_Hash tx) (tx_Content tx) (tx_NetworkNum tx) (tx_Flags tx)
    (tx_AccountID tx) (tx_Fallback tx)
    (match idx with
     | O => (wallet, snd (tx_WalletID tx))
     | S O => (fst (tx_WalletID tx), wallet)
     | _ => tx_WalletID tx
     end).

(** [tx.RemoveFlags(flags)]: the bits of [flags] are cleared. *)
Definition RemoveFlags (tx : Tx) (flags : Z) : Tx :=
  mkTx (tx_Hash tx) (tx_Content tx) (tx_NetworkNum tx)
    (Z.ldiff (tx_Flags tx) flags)
    (tx_AccountID tx) (tx_Fallback tx) (tx_WalletID tx).

(** A decoded [ethtypes.Transaction], as far as the handler reads it. *)
Record EthTx := {
  eth_ChainId : Z;
  eth_Hash : SHA256Hash
}.

Record PendingNextValidatorTxInfo := {
  pi_Tx : Tx;
  pi_Fallback : Z;
  pi_TimeOfRequest : Z;
  pi_Source : Conn
}.

(** The one-shot timer armed by [time.AfterFunc]: its delay and the
    variables its function closes over. *)
Record Timer := {
  timer_delay : Z;
  timer_tx : Tx;
  timer_ws : Conn
}.

(** What goes out on the JSON-RPC connection. *)
Inductive Payload :=
| PString (s : string)
| PTxResponse (txHash : SHA256Hash)
| PBatchTxResponse (txHashes : list SHA256Hash).

Inductive Outgoing :=
| Reply (id : Z) (res : Payload)
| ReplyWithError (id : Z) (code : RPCErrorCode) (data : string).

Definition isError (m : Outgoing) : bool :=
  match m with ReplyWithError _ _ _ => true | Reply _ _ => false end.

Record RPCTxPayload := {
  p_Transaction : string;
  p_ValidatorsOnly : bool;
  p_NextValidator : bool;
  p_Fallback : Z;
  p_NodeValidation : bool;
  p_FrontRunningProtection : bool;
  p_OriginalSenderAccountID : string
}.

Record RPCBatchTxPayload := {
  bp_Transactions : list string;
  bp_ValidatorsOnly : bool;
  bp_OriginalSenderAccountID : string
}.

(** Constants and collaborators that live outside the handler: flag
    masks, network constants, the hex, binary and RLP codecs, the node's
    message handler, the synced node endpoint and the UUID parser. *)
Record Env := {
  TF : TxFlag -> Z;
  BSCMainnetNum : NetworkNum;
  PolygonMainnetNum : NetworkNum;
  blockIntervalBSC : Z;          (* NetworkToBlockDuration[BSCMainnet] *)
  BloxrouteAccountID : string;
  DecodeHex : string -> result bytes;
  UnmarshalBinary : bytes -> result EthTx;
  rlp_DecodeBytes : bytes -> result EthTx;
  rlp_EncodeToBytes : EthTx -> result bytes;
  node_HandleMsg : Tx -> Conn -> option string;
  SyncedProvider : option (string -> option string);
  uuid_FromString : string -> option N
}.

(** The flag masks are different bits. *)
Definition flagsDistinct (env : Env) : Prop :=
  (forall f, TF env f <> 0)
  /\ (forall f g, f <> g -> Z.land (TF env f) (TF env g) = 0).

Definition hasFlag (env : Env) (flags : Z) (f : TxFlag) : bool :=
  negb (Z.land flags (TF env f) =? 0).

Definition EmptyAccountID : string := ""%string.

(** Modelled from the spec: [bxgateway.MillisecondsToNanosecondsMultiplier]
    is not among the sources; the value is the one its name states. *)
Definition MillisecondsToNanosecondsMultiplier : Z := 1000000.

(** [d.Milliseconds()] of a [time.Duration]. *)
Definition Milliseconds (d : Z) : Z := Z.quot d 1000000.

(** [strings.Contains s substr] *)
Fixpoint Contains (s substr : string) : bool :=
  String.prefix substr s
  || match s with
     | EmptyString => false
     | String _ rest => Contains rest substr
     end.

(** ** The state the handler works on *)

(** The feed manager's fields the three methods use, the node's message
    handler seen as the list of its calls, the armed timers, and the
    connection with what has been written to it. *)
Record State := mkState {
  accountModel_AccountID : string;
  fm_networkNum : NetworkNum;
  fm_chainID : Z;
  nextValidatorMap : option (list (Z * string));   (* newest first *)
  validatorStatusMap : gmap string bool;
  pendingBSCNextValidatorTxHashToInfo : gmap N PendingNextValidatorTxInfo;
  pendingNextValidatorTxsLocked : bool;
  idToClientSubscription : gset N;
  handled : list (Tx * Conn);
  timers : list Timer;
  connOpen : bool;
  sent : list Outgoing
}.

Definition set_pending (m : gmap N PendingNextValidatorTxInfo) (st : State) :=
  let 'mkState a n c nv vs _ l subs hd tm o s := st in
  mkState a n c nv vs m l subs hd tm o s.
Definition set_locked (l : bool) (st : State) :=
  let 'mkState a n c nv vs m _ subs hd tm o s := st in
  mkState a n c nv vs m l subs hd tm o s.
Definition set_subscriptions (subs : gset N) (st : State) :=
  let 'mkState a n c nv vs m l _ hd tm o s := st in
  mkState a n c nv vs m l subs hd tm o s.
Definition set_handled (hd : list (Tx * Conn)) (st : State) :=
  let 'mkState a n c nv vs m l subs _ tm o s := st in
  mkState a n c nv vs m l subs hd tm o s.
Definition set_timers (tm : list Timer) (st : State) :=
  let 'mkState a n c nv vs m l subs hd _ o s := st in
  mkState a n c nv vs m l subs hd tm o s.
Definition set_sent (s : list Outgoing) (st : State) :=
  let 'mkState a n c nv vs m l subs hd tm o _ := st in
  mkState a n c nv vs m l subs hd tm o s.

Record handlerObj := {
  remoteAddress : string;
  connectionAccount_AccountID : string
}.

(** How a call of [handleSingleTransaction] ends. *)
Inductive SingleResult :=
| Done (txHash : option SHA256Hash)  (* [(hash, true)] or [("", false)] *)
| NilTx        (* [HandleMsg] is called with the nil transaction *)
| LockHeld.    (* the pending-transactions mutex is never obtained *)

Section Handler.

Variable env : Env.

Definition TFPaidTx := TF env PaidTx.
Definition TFLocalRegion := TF env LocalRegion.
Definition TFDeliverToNode := TF env DeliverToNode.
Definition TFValidatorsOnly := TF env ValidatorsOnly.
Definition TFNextValidator := TF env NextValidator.
Definition TFFrontRunningProtection := TF env FrontRunningProtection.

Definition IsNextValidator (flags : Z) : bool := hasFlag env flags NextValidator.
Definition IsValidatorsOnly (flags : Z) : bool := hasFlag env flags ValidatorsOnly.

(** *** The connection *)

(** [reply]: [true] stands for a [nil] error; a closed connection takes
    nothing. *)
Definition reply (st : State) (id : Z) (res : Payload) : State * bool :=
  if connOpen st then (set_sent (sent st ++ [Reply id res]) st, true)
  else (st, false).

(** [SendErrorMsg]: a failure of [ReplyWithError] is only logged. *)
Definition SendErrorMsg (st : State) (code : RPCErrorCode) (data : string)
    (id : Z) : State :=
  if connOpen st then set_sent (sent st ++ [ReplyWithError id code data]) st
  else st.

(** *** unsubscribe *)

(** Modelled from the spec: [FeedManager.Unsubscribe] is not among the
    sources.  Section 4.G: it removes the subscription; the handler's log
    line says its error means that the subscription id was not found.
    [true] stands for a [nil] error. *)
Definition Unsubscribe (st : State) (uid : N) : State * bool :=
  if decide (uid ∈ idToClientSubscription st)
  then (set_subscriptions (idToClientSubscription st ∖ {[uid]}) st, true)
  else (st, false).

(** [string(rune(websocket.CloseMessage))], the one-character string of
    code 8. *)
Definition closeMessageText : string :=
  String (Ascii.ascii_of_nat 8) EmptyString.

(** The [RPCUnsubscribe] case of [Handle].  [reqParams] is [req.Params]
    after [json.Unmarshal] into a [[]string]; [None] is a missing
    [params]. *)
Definition handleUnsubscribe (st : State) (id : Z)
    (reqParams : option (list string)) : State :=
  match reqParams with
  | None => SendErrorMsg st InvalidParams "params is missing in the request" id
  | Some [p] =>
      let uid := default 0%N (uuid_FromString env p) in
      let '(st1, found) := Unsubscribe st uid in
      let afterNotFound :=
        if found then (st1, true) else reply st1 id (PString "false") in
      match afterNotFound with
      | (st2, false) => SendErrorMsg st2 InternalError closeMessageText id
      | (st2, true) =>
          match reply st2 id (PString "true") with
          | (st3, true) => st3
          | (st3, false) => SendErrorMsg st3 InternalError closeMessageText id
          end
      end
  | Some _ => SendErrorMsg st InvalidParams "params with incorrect length" id
  end.

(** *** Next-validator routing *)

(** Returns the transaction as the calls on it left it, the pending
    table, and [(pendingReevaluation, err)]. *)
Definition ProcessNextValidatorTx (now : Z) (tx : Tx) (fallback : Z)
    (nextValidatorMap : option (list (Z * string)))
    (validatorStatusMap : gmap string bool) (networkNum : NetworkNum)
    (source : Conn) (pending : gmap N PendingNextValidatorTxInfo)
  : Tx * gmap N PendingNextValidatorTxInfo * result bool :=
  if negb (networkNum =? BSCMainnetNum env)
     && negb (networkNum =? PolygonMainnetNum env)
  then (tx, pending,
        err "currently next_validator is only supported on BSC and Polygon networks, please contact bloXroute support")
  else
    match nextValidatorMap with
    | None =>
        (tx, pending,
         err "failed to send next validator tx, please contact bloXroute support")
    | Some m =>
        let tx := SetFallback tx fallback in
        match m with
        | [] =>
            (tx, pending,
             err "can't send tx with next_validator because the gateway encountered an issue fetching the epoch block, please try again later or contact bloXroute support")
        | n2Validator :: older =>
            let n1Validator := head older in
            let polygon (tx : Tx) :=
              if networkNum =? PolygonMainnetNum env then
                match n1Validator with
                | Some n1 =>
                    SetWalletID (SetWalletID tx 0 (snd n1)) 1 (snd n2Validator)
                | None => SetWalletID tx 0 (snd n2Validator)
                end
              else tx in
            if networkNum =? BSCMainnetNum env then
              let n1Wallet :=
                match n1Validator with Some n1 => snd n1 | None => ""%string end in
              let n1ValidatorAccessible :=
                match n1Validator with
                | Some n1 => default false (validatorStatusMap !! snd n1)
                | None => false
                end in
              if n1ValidatorAccessible
              then (polygon (SetWalletID tx 0 n1Wallet), pending, ok false)
              else if negb (fallback =? 0)
                      && (fallback <? to_uint16 (Milliseconds (blockIntervalBSC env)))
              then (tx, pending, ok false)
              else
                (tx,
                 <[tx_Hash tx :=
                     {| pi_Tx := tx; pi_Fallback := fallback;
                        pi_TimeOfRequest := now; pi_Source := source |}]> pending,
                 ok true)
            else (polygon tx, pending, ok false)
        end
    end.

(** *** Validation of a submitted transaction *)

Definition ValidateTxFromExternalSource (now : Z) (transaction : string)
    (txBytes : bytes) (validatorsOnly : bool) (gatewayChainID : Z)
    (nextValidator : bool) (fallback : Z)
    (nextValidatorMap : option (list (Z * string)))
    (validatorStatusMap : gmap string bool) (networkNum : NetworkNum)
    (accountID : string) (nodeValidationRequested : bool) (source : Conn)
    (pending : gmap N PendingNextValidatorTxInfo)
    (frontRunningProtection : bool)
  : gmap N PendingNextValidatorTxInfo * result (Tx * bool) :=
  let decoded :=
    match UnmarshalBinary env txBytes with
    | ok ethTx => ok ethTx
    | err msg =>
        match rlp_DecodeBytes env txBytes with
        | ok ethTx => ok ethTx
        | err _ => err msg
        end
    end in
  match decoded with
  | err msg => (pending, err msg)
  | ok ethTx =>
      let chainID := bigInt_Int64 (eth_ChainId ethTx) in
      if negb (chainID =? 0) && negb (gatewayChainID =? 0)
         && negb (chainID =? gatewayChainID)
      then (pending, err "chainID mismatch")
      else
        match rlp_EncodeToBytes env ethTx with
        | err msg => (pending, err msg)
        | ok txContent =>
            let txFlags := Z.lor TFPaidTx TFLocalRegion in
            let txFlags :=
              if validatorsOnly then Z.lor txFlags TFValidatorsOnly
              else if nextValidator then Z.lor txFlags TFNextValidator
              else Z.lor txFlags TFDeliverToNode in
            let txFlags :=
              if frontRunningProtection
              then Z.lor txFlags TFFrontRunningProtection else txFlags in
            let tx :=
              NewTx (eth_Hash ethTx) txContent networkNum txFlags accountID in
            let validateWithNode (tx : Tx)
                (pending : gmap N PendingNextValidatorTxInfo) :=
              if nodeValidationRequested && negb (IsNextValidator (tx_Flags tx))
                 && negb (IsValidatorsOnly (tx_Flags tx))
              then
                match SyncedProvider env with
                | Some SendTransaction =>
                    match SendTransaction ("0x" ++ transaction)%string with
                    | Some msg =>
                        if negb (Contains msg "already known")
                        then (pending, err ("tx failed node validation with error: " ++ msg)%string)
                        else (pending, ok (tx, false))
                    | None => (pending, ok (tx, false))
                    end
                | None =>
                    (pending,
                     err "failed to validate tx via node: no synced WS provider available")
                end
              else (pending, ok (tx, false)) in
            if nextValidator then
              match ProcessNextValidatorTx now tx fallback nextValidatorMap
                      validatorStatusMap networkNum source pending with
              | (_, pending', err msg) => (pending', err msg)
              | (tx', pending', ok true) => (pending', ok (tx', true))
              | (tx', pending', ok false) => validateWithNode tx' pending'
              end
            else validateWithNode tx pending
        end
  end.

(** *** One transaction *)

(** The function given to [time.AfterFunc]. *)
Definition fallbackTimerFired (t : Timer) (st : State) : State :=
  if pendingNextValidatorTxsLocked st then st
  else
    match pendingBSCNextValidatorTxHashToInfo st !! tx_Hash (timer_tx t) with
    | Some _ =>
        let tx := SetFallback (RemoveFlags (timer_tx t) TFNextValidator) 0 in
        set_handled (handled st ++ [(tx, timer_ws t)])
          (set_pending
             (delete (tx_Hash (timer_tx t))
                (pendingBSCNextValidatorTxHashToInfo st)) st)
    | None => st
    end.

Definition handleSingleTransaction (now : Z) (st : State) (id : Z)
    (transaction : string) (ws : Conn) (validatorsOnly sendError : bool)
    (nextValidator : bool) (fallback : Z)
    (nextValidatorMap : option (list (Z * string)))
    (validatorStatusMap : gmap string bool)
    (nodeValidationRequested frontRunningProtection : bool)
  : State * SingleResult :=
  if pendingNextValidatorTxsLocked st then (st, LockHeld)
  else
    let st := set_locked true st in
    match DecodeHex env transaction with
    | err msg => (SendErrorMsg st InvalidParams msg id, Done None)
    | ok txContent =>
        let '(pending, validated) :=
          ValidateTxFromExternalSource now transaction txContent validatorsOnly
            (fm_chainID st) nextValidator fallback nextValidatorMap
            validatorStatusMap (fm_networkNum st) (conn_AccountID ws)
            nodeValidationRequested ws
            (pendingBSCNextValidatorTxHashToInfo st) frontRunningProtection in
        let st := set_locked false (set_pending pending st) in
        match validated with
        | err msg =>
            if sendError then (SendErrorMsg st InvalidParams msg id, Done None)
            else (st, NilTx)
        | ok (tx, false) =>
            let st := set_handled (handled st ++ [(tx, ws)]) st in
            match node_HandleMsg env tx ws with
            | Some _ => (st, Done None)
            | None => (st, Done (Some (tx_Hash tx)))
            end
        | ok (tx, true) =>
            if negb (fallback =? 0) then
              (set_timers
                 (timers st
                  ++ [{| timer_delay :=
                           to_int64 (to_uint64 fallback
                                     * MillisecondsToNanosecondsMultiplier);
                         timer_tx := tx; timer_ws := ws |}]) st,
               Done (Some (tx_Hash tx)))
            else (st, Done (Some (tx_Hash tx)))
        end
    end.

(** *** blxr_tx and blxr_batch_tx *)

Definition connFor (h : handlerObj) (st : State) (originalSender : string)
  : Conn :=
  if String.eqb (connectionAccount_AccountID h) (BloxrouteAccountID env)
  then NewRPCConn originalSender (remoteAddress h) (fm_networkNum st) CloudAPI
  else NewRPCConn (connectionAccount_AccountID h) (remoteAddress h)
         (fm_networkNum st) Websocket.

(** The [RPCTx] case of [Handle]; [reqParams] is the outcome of
    [json.Unmarshal] on [req.Params]. *)
Definition handleTx (h : handlerObj) (now : Z) (st : State) (id : Z)
    (reqParams : result RPCTxPayload) : State :=
  if negb (String.eqb (accountModel_AccountID st) (connectionAccount_AccountID h))
  then
    if String.eqb (accountModel_AccountID st) (BloxrouteAccountID env) then st
    else SendErrorMsg st InvalidRequest
           "blxr_tx is not allowed when account authentication is different from the node account" id
  else
    match reqParams with
    | err msg => SendErrorMsg st InvalidParams msg id
    | ok params =>
        if String.eqb (accountModel_AccountID st) (BloxrouteAccountID env)
           && String.eqb (p_OriginalSenderAccountID params) EmptyAccountID
        then SendErrorMsg st InvalidRequest "failed to send transaction" id
        else
          let ws := connFor h st (p_OriginalSenderAccountID params) in
          match handleSingleTransaction now st id (p_Transaction params) ws
                  (p_ValidatorsOnly params) true (p_NextValidator params)
                  (p_Fallback params) (nextValidatorMap st)
                  (validatorStatusMap st) (p_NodeValidation params)
                  (p_FrontRunningProtection params) with
          | (st', Done (Some txHash)) => fst (reply st' id (PTxResponse txHash))
          | (st', _) => st'
          end
    end.

(** The loop of the [RPCBatchTx] case.  It stops where a call does not
    return; [nil] maps are written [None] and the empty map. *)
Fixpoint batchLoop (now : Z) (st : State) (id : Z) (ws : Conn)
    (validatorsOnly : bool) (transactions : list string)
    (txHashes : list SHA256Hash) : State * option (list SHA256Hash) :=
  match transactions with
  | [] => (st, Some txHashes)
  | transaction :: rest =>
      match handleSingleTransaction now st id transaction ws validatorsOnly
              false false 0 None ∅ false false with
      | (st', Done (Some txHash)) =>
          batchLoop now st' id ws validatorsOnly rest (txHashes ++ [txHash])
      | (st', Done None) =>
          batchLoop now st' id ws validatorsOnly rest txHashes
      | (st', _) => (st', None)
      end
  end.

Definition handleBatchTx (h : handlerObj) (now : Z) (st : State) (id : Z)
    (reqParams : result RPCBatchTxPayload) : State :=
  if negb (String.eqb (accountModel_AccountID st) (connectionAccount_AccountID h))
  then st
  else
    match reqParams with
    | err msg => SendErrorMsg st InvalidParams msg id
    | ok params =>
        let ws := connFor h st (bp_OriginalSenderAccountID params) in
        match batchLoop now st id ws (bp_ValidatorsOnly params)
                (bp_Transactions params) [] with
        | (st', None) => st'
        | (st', Some []) =>
            SendErrorMsg st' InvalidParams "all transactions are invalid" id
        | (st', Some txHashes) => fst (reply st' id (PBatchTxResponse txHashes))
        end
    end.

End Handler.


(** The BSC block duration as [ProcessNextValidatorTx] compares it with
    the fallback: [uint16(blockIntervalBSC.Milliseconds())]. *)
Definition blockIntervalBSCms (env : Env) : Z :=
  to_uint16 (Milliseconds (blockIntervalBSC env)).

(** The flags [ValidateTxFromExternalSource] gives a transaction sent with
    [next_validator]. *)
Definition builtFlags (env : Env) (validatorsOnly frontRunningProtection : bool)
  : Z :=
  let txFlags :=
    if validatorsOnly
    then Z.lor (Z.lor (TF env PaidTx) (TF env LocalRegion)) (TF env ValidatorsOnly)
    else Z.lor (Z.lor (TF env PaidTx) (TF env LocalRegion)) (TF env NextValidator) in
  if frontRunningProtection
  then Z.lor txFlags (TF env FrontRunningProtection) else txFlags.

(** The wallet of the second-newest entry of the next-validator map is not
    marked accessible (or there is no such entry). *)
Definition nearestInaccessible (older : list (Z * string))
    (validatorStatusMap : gmap string bool) : Prop :=
  match head older with
  | Some n1 => default false (validatorStatusMap !! snd n1) = false
  | None => True
  end.

(** The node took the transaction: [HandleMsg] returned [nil]. *)
Definition accepted (env : Env) (e : Tx * Conn) : bool :=
  match node_HandleMsg env (fst e) (snd e) with
  | None => true
  | Some _ => false
  end.

(** The environment with another answer of [wsManager.SyncedProvider()]. *)
Definition withSyncedProvider (p : option (string -> option string))
    (env : Env) : Env :=
  {| TF := TF env;
     BSCMainnetNum := BSCMainnetNum env;
     PolygonMainnetNum := PolygonMainnetNum env;
     blockIntervalBSC := blockIntervalBSC env;
     BloxrouteAccountID := BloxrouteAccountID env;
     DecodeHex := DecodeHex env;
     UnmarshalBinary := UnmarshalBinary env;
     rlp_DecodeBytes := rlp_DecodeBytes env;
     rlp_EncodeToBytes := rlp_EncodeToBytes env;
     node_HandleMsg := node_HandleMsg env;
     SyncedProvider := p;
     uuid_FromString := uuid_FromString env |}.

(** The transaction [ValidateTxFromExternalSource] decodes: the binary
    encoding first, the RLP encoding when that fails. *)
Definition decodeTx (env : Env) (txBytes : bytes) : option EthTx :=
  match UnmarshalBinary env txBytes with
  | ok ethTx => Some ethTx
  | err _ =>
      match rlp_DecodeBytes env txBytes with
      | ok ethTx => Some ethTx
      | err _ => None
      end
  end.

(** What a [blxr_tx] request may write and hand to the node, for the
    state [st1] it ends in. *)
Definition txAnswer (env : Env) (st st1 : State) (id : Z) : Prop :=
  exists msgs new,
    sent st1 = sent st ++ msgs /\ (length msgs <= 1)%nat
    /\ handled st1 = handled st ++ new /\ (length new <= 1)%nat
    /\ (Exists (fun e => accepted env e = false) new -> msgs = [])
    /\ forall m, In m msgs -> isError m = false ->
       exists txHash,
         m = Reply id (PTxResponse txHash)
         /\ ((exists tx ws, new = [(tx, ws)] /\ tx_Hash tx = txHash
                            /\ accepted env (tx, ws) = true)
             \/ (new = []
                 /\ exists info,
                      pendingBSCNextValidatorTxHashToInfo st1 !! txHash
                      = Some info
                      /\ tx_Hash (pi_Tx info) = txHash)).

(** ** Authorization, feeds and batched subscriptions *)

(** The character ":" (code 58). *)
Definition colon : Ascii.ascii := Ascii.ascii_of_nat 58.

(** [strings.SplitN s ":" 2]: the text before the first colon and, when
    there is a colon, the text after it. *)
Fixpoint SplitN2 (s : string) : string * option string :=
  match s with
  | EmptyString => (EmptyString, None)
  | String c rest =>
      if Ascii.eqb c colon then (EmptyString, Some rest)
      else let '(before, after) := SplitN2 rest in (String c before, after)
  end.

Fixpoint hasColon (s : string) : bool :=
  match s with
  | EmptyString => false
  | String c rest => Ascii.eqb c colon || hasColon rest
  end.

(** The request as [getAccountIDSecretHashFromReq] reads it: the
    [Authorization] header, the method, and the extensions of the first
    peer certificate when the request has a TLS state with one. *)
Record Request (Extensions : Type) := {
  req_Authorization : string;
  req_Method : string;
  req_PeerCertificate : option Extensions
}.
Arguments req_Authorization {Extensions}.
Arguments req_Method {Extensions}.
Arguments req_PeerCertificate {Extensions}.

Inductive AuthError :=
| ErrDecodeString (e token : string)
| ErrInvalidAuthorization (token payload : string)
| ErrAccountIDExtension (e : string)
| ErrMissingAuthorization (method : string).

Section Authorization.

Context {Extensions : Type}.
Variable base64_DecodeString : string -> result string.
(** [utils.GetAccountIDFromBxCertificate]: both values it returns. *)
Variable GetAccountIDFromBxCertificate : Extensions -> string * option string.

(** The named results [(accountID, secretHash, err)]. *)
Definition getAccountIDSecretHashFromReq (request : Request Extensions)
    (websocketTLSEnabled : bool) : string * string * option AuthError :=
  let tokenString := req_Authorization request in
  let check (accountID secretHash : string) :=
    if String.eqb accountID ""
    then (accountID, secretHash,
          Some (ErrMissingAuthorization (req_Method request)))
    else (accountID, secretHash, None) in
  if negb (String.eqb tokenString "") then
    match base64_DecodeString tokenString with
    | err e => (""%string, ""%string, Some (ErrDecodeString e tokenString))
    | ok payload =>
        match SplitN2 payload with
        | (_, None) =>
            (""%string, ""%string,
             Some (ErrInvalidAuthorization tokenString payload))
        | (accountID, Some secretHash) => check accountID secretHash
        end
    end
  else if websocketTLSEnabled then
    match req_PeerCertificate request with
    | Some extensions =>
        match GetAccountIDFromBxCertificate extensions with
        | (accountID, Some e) =>
            (accountID, ""%string, Some (ErrAccountIDExtension e))
        | (accountID, None) => check accountID ""%string
        end
    | None => check ""%string ""%string
    end
  else check ""%string ""%string.

End Authorization.

(** [utils.Exists] *)
Definition Exists_ (field : string) (fields : list string) : bool :=
  existsb (String.eqb field) fields.

Inductive FeedType :=
| NewTxsFeed | NewBlocksFeed | BDNBlocksFeed | PendingTxsFeed | OnBlockFeed
| TxReceiptsFeed | NewBeaconBlocksFeed | BDNBeaconBlocksFeed.

(** [sdnmessage.BDNFeedService], as far as [validateFeed] reads it. *)
Record BDNFeedService := {
  ExpireDate : string;
  AllowFiltering : bool;
  AvailableFields : list string
}.

Inductive FeedError :=
| ErrNotAllowedOrExpired (feedName : FeedType)
| ErrIncludeNotAllowed (feedName : FeedType) (include : string)
| ErrFilteringNotAllowed (feedName : FeedType).

Section ValidateFeed.

(** [time.Parse bxgateway.TimeDateLayoutISO]; times are seconds since the
    Unix epoch. *)
Variable time_Parse : string -> option Z.

(** The zero [time.Time], which [time.Parse] returns with an error:
    January 1 of year 1. *)
Definition zeroTime : Z := -62135596800.

Fixpoint checkIncludes (feedName : FeedType) (available : list string)
    (includes : list string) : option FeedError :=
  match includes with
  | [] => None
  | include :: rest =>
      if negb (Exists_ include available)
      then Some (ErrIncludeNotAllowed feedName include)
      else checkIncludes feedName available rest
  end.

Definition validateFeed (now : Z) (feedName : FeedType)
    (feedStreaming : BDNFeedService) (includes filters : list string)
  : option FeedError :=
  let expireDateTime := default zeroTime (time_Parse (ExpireDate feedStreaming)) in
  if expireDateTime <? now then Some (ErrNotAllowedOrExpired feedName)
  else if AllowFiltering feedStreaming
          && Exists_ "all" (AvailableFields feedStreaming)
  then None
  else
    match checkIncludes feedName (AvailableFields feedStreaming) includes with
    | Some e => Some e
    | None =>
        if negb (AllowFiltering feedStreaming) && (0 <? length filters)%nat
        then Some (ErrFilteringNotAllowed feedName)
        else None
    end.

End ValidateFeed.

(** [RPCCall.validatePayload]: the error names the field and the method. *)
Fixpoint validatePayload (callPayload : gmap string string) (method : string)
    (requiredFields : list string) : option (string * string) :=
  match requiredFields with
  | [] => None
  | field :: rest =>
      match callPayload !! field with
      | None => Some (field, method)
      | Some _ => validatePayload callPayload method rest
      end
  end.

(** What one [select] of [subscribeMultiTxs] finds ready. *)
Inductive FeedEvent (Notification : Type) :=
| Disconnected                 (* [conn.DisconnectNotify()] *)
| FeedClosed                   (* the receive yields [ok = false] *)
| Arrived (n : Notification)   (* the receive yields a notification *)
| NothingReady.                (* no case is ready *)
Arguments Disconnected {Notification}.
Arguments FeedClosed {Notification}.
Arguments Arrived {Notification}.
Arguments NothingReady {Notification}.

(** How a run of [subscribeMultiTxs] over a list of events ends. *)
Inductive Exit (TxResult : Type) :=
| ReturnsNil
| ReturnsError (closeMessageSent : bool)
| NotifyFailed
| Waiting (batch : option (list TxResult)).
Arguments ReturnsNil {TxResult}.
Arguments ReturnsError {TxResult}.
Arguments NotifyFailed {TxResult}.
Arguments Waiting {TxResult}.

Section MultiTxs.

Context {Notification TxResult : Type}.
Variable filterAndInclude : Notification -> option TxResult.
(** [conn.Notify ctx "subscribe" multiTxsResponse]; [true] stands for a
    [nil] error. *)
Variable Notify : list TxResult -> bool.
Variable SubscriptionExists : bool.

(** The [switch feedName] that follows each receive. *)
Definition collect (feedName : FeedType) (n : Notification)
    (result : list TxResult) : list TxResult :=
  match feedName with
  | NewTxsFeed | PendingTxsFeed =>
      match filterAndInclude n with
      | Some response => result ++ [response]
      | None => result
      end
  | _ => result
  end.

(** The two nested loops, driven by what each [select] finds.  [batch] is
    [None] at the outer [select] and [Some result] at the inner one;
    [notified] are the batches sent so far. *)
Fixpoint subscribeMultiTxs (feedName : FeedType)
    (events : list (FeedEvent Notification))
    (batch : option (list TxResult)) (notified : list (list TxResult))
  : list (list TxResult) * Exit TxResult :=
  match events with
  | [] => (notified, Waiting batch)
  | e :: rest =>
      let flush (result : list TxResult) :=
        if (0 <? length result)%nat then
          if Notify result
          then subscribeMultiTxs feedName rest None (notified ++ [result])
          else (notified, NotifyFailed)
        else subscribeMultiTxs feedName rest None notified in
      match e, batch with
      | Disconnected, _ => (notified, ReturnsNil)
      | FeedClosed, _ => (notified, ReturnsError SubscriptionExists)
      | NothingReady, None => subscribeMultiTxs feedName rest None notified
      | NothingReady, Some result => flush result
      | Arrived n, None =>
          subscribeMultiTxs feedName rest (Some (collect feedName n []))
            notified
      | Arrived n, Some result =>
          let result := collect feedName n result in
          if (50 <=? length result)%nat then flush result
          else subscribeMultiTxs feedName rest (Some result) notified
      end
  end.

(** What the notifications among the events contribute, in order. *)
Fixpoint results (feedName : FeedType)
    (events : list (FeedEvent Notification)) : list TxResult :=
  match events with
  | [] => []
  | Arrived n :: rest => collect feedName n [] ++ results feedName rest
  | _ :: rest => results feedName rest
  end.

End MultiTxs.

(** ** A concrete environment and state *)

Definition TF0 (f : TxFlag) : Z :=
  match f with
  | PaidTx => 0x2
  | LocalRegion => 0x20
  | DeliverToNode => 0x100
  | ValidatorsOnly => 0x200
  | NextValidator => 0x800
  | FrontRunningProtection => 0x2000
  end.

(** One transaction is known to the toy codecs: the hex text "f86b". *)
Definition env0 : Env :=
  {| TF := TF0;
     BSCMainnetNum := 56;
     PolygonMainnetNum := 137;
     blockIntervalBSC := 3 * 1000000000;
     BloxrouteAccountID := "bloXroute";
     DecodeHex := fun s =>
       if String.eqb s "f86b" then ok [0xf8; 0x6b]
       else err "encoding/hex: invalid byte";
     UnmarshalBinary := fun b =>
       if decide (b = [0xf8; 0x6b])
       then ok {| eth_ChainId := 56; eth_Hash := 4242 |}
       else err "transaction type not supported";
     rlp_DecodeBytes := fun _ => err "rlp: expected input list";
     rlp_EncodeToBytes := fun _ => ok [0xf8; 0x6b];
     node_HandleMsg := fun _ _ => None;
     SyncedProvider := None;
     uuid_FromString := fun s =>
       if String.eqb s "sub-1" then Some 1%N
       else if String.eqb s "sub-2" then Some 2%N else None |}.

(** A BSC gateway whose second-newest validator, 0xA, is not marked
    accessible; subscription 1 is registered. *)
Definition st0 : State :=
  {| accountModel_AccountID := "acc";
     fm_networkNum := 56;
     fm_chainID := 56;
     nextValidatorMap := Some [(101, "0xB"%string); (100, "0xA"%string)];
     validatorStatusMap := ∅;
     pendingBSCNextValidatorTxHashToInfo := ∅;
     pendingNextValidatorTxsLocked := false;
     idToClientSubscription := {[ 1%N ]};
     handled := [];
     timers := [];
     connOpen := true;
     sent := [] |}.

Definition h0 : handlerObj :=
  {| remoteAddress := "10.0.0.1:4000"; connectionAccount_AccountID := "acc" |}.

Definition ws0 : Conn := NewRPCConn "acc" "10.0.0.1:4000" 56 Websocket.

(** The transaction [blxr_tx] builds from "f86b" with [next_validator],
    before and after [SetFallback]. *)
Definition nvTx (fallback : Z) : Tx :=
  mkTx 4242 [0xf8; 0x6b] 56 (Z.lor (Z.lor 0x2 0x20) 0x800) "acc" fallback
    (""%string, ""%string).

Definition ethTx0 : EthTx := {| eth_ChainId := 56; eth_Hash := 4242 |}.

Definition batch0 : RPCBatchTxPayload :=
  {| bp_Transactions := ["f86b"; "f86b"]%string;
     bp_ValidatorsOnly := true;
     bp_OriginalSenderAccountID := "" |}.

(** The transaction built from "f86b" with [validators_only],
    [next_validator], front-running protection and a fallback of one
    second. *)
Definition voTx : Tx :=
  mkTx 4242 [0xf8; 0x6b] 56 0x2222 "acc" 1000 (""%string, ""%string).

(** A node endpoint that refuses every transaction. *)
Definition refusing : option (string -> option string) :=
  Some (fun _ => Some "nonce too low"%string).

(** ** Properties of the flag masks *)

Section FlagFacts.

Variable env : Env.
Hypothesis Hdistinct : flagsDistinct env.

Lemma hasFlag_lor (a b : Z) (f : TxFlag) :
  hasFlag env (Z.lor a b) f = hasFlag env a f || hasFlag env b f.
Proof.
  unfold hasFlag. rewrite Z.land_lor_distr_l.
  destruct (Z.eqb_spec (Z.land a (TF env f)) 0) as [Ea |];
    destruct (Z.eqb_spec (Z.land b (TF env f)) 0) as [Eb |]; simpl;
    destruct (Z.eqb_spec (Z.lor (Z.land a (TF env f)) (Z.land b (TF env f))) 0)
      as [E |]; try reflexivity;
    try (apply Z.lor_eq_0_iff in E; destruct E; contradiction).
  exfalso. apply n. apply Z.lor_eq_0_iff. auto.
Qed.

Lemma hasFlag_same (f : TxFlag) : hasFlag env (TF env f) f = true.
Proof.
  unfold hasFlag. rewrite Z.land_diag.
  destruct (Z.eqb_spec (TF env f) 0) as [E |]; [| reflexivity].
  now apply (proj1 Hdistinct) in E.
Qed.

Lemma hasFlag_other (f g : TxFlag) : f <> g -> hasFlag env (TF env g) f = false.
Proof.
  intros Hne. unfold hasFlag.
  rewrite (proj2 Hdistinct g f) by congruence. reflexivity.
Qed.

Lemma hasFlag_ldiff_same (a : Z) (f : TxFlag) :
  hasFlag env (Z.ldiff a (TF env f)) f = false.
Proof.
  unfold hasFlag.
  replace (Z.land (Z.ldiff a (TF env f)) (TF env f)) with 0; [reflexivity |].
  symmetry. apply Z.bits_inj'. intros n Hn.
  rewrite Z.land_spec, Z.ldiff_spec, Z.bits_0.
  destruct (Z.testbit a n), (Z.testbit (TF env f) n); reflexivity.
Qed.

Lemma hasFlag_ldiff_other (a : Z) (f g : TxFlag) :
  f <> g -> hasFlag env (Z.ldiff a (TF env g)) f = hasFlag env a f.
Proof.
  intros Hne. unfold hasFlag. f_equal. f_equal.
  apply Z.bits_inj'. intros n Hn.
  rewrite !Z.land_spec, Z.ldiff_spec.
  assert (Hz : Z.testbit (Z.land (TF env g) (TF env f)) n = false).
  { rewrite (proj2 Hdistinct g f) by congruence. apply Z.bits_0. }
  rewrite Z.land_spec in Hz.
  destruct (Z.testbit a n), (Z.testbit (TF env g) n),
    (Z.testbit (TF env f) n); simpl in *; congruence.
Qed.

End FlagFacts.

Lemma flagsDistinct_env0 : flagsDistinct env0.
Proof.
  split.
  - intros f. destruct f; discriminate.
  - intros f g Hne. destruct f, g; try reflexivity; contradiction.
Qed.

(** ** Properties of the handler *)

Section HandlerFacts.

Variable env : Env.

(** *** unsubscribe *)

(** C9.  On an open connection, an [unsubscribe] request with exactly one
    parameter whose UUID is not registered is answered without any
    JSON-RPC error: the handler writes the reply "false" and then, since
    the not-found branch does not return, the reply "true"; the registry
    is unchanged.  For a registered UUID the subscription is removed and
    the only message written is the reply "true". *)
Theorem unsubscribe_replies (st : State) (id : Z) (p : string) :
  connOpen st = true ->
  let uid := default 0%N (uuid_FromString env p) in
  let st' := handleUnsubscribe env st id (Some [p]) in
  (uid ∉ idToClientSubscription st ->
   sent st' = sent st ++ [Reply id (PString "false"); Reply id (PString "true")]
   /\ In (Reply id (PString "true")) (sent st')
   /\ (forall m, In m (sent st') -> isError m = true -> In m (sent st))
   /\ idToClientSubscription st' = idToClientSubscription st)
  /\ (uid ∈ idToClientSubscription st ->
      sent st' = sent st ++ [Reply id (PString "true")]
      /\ In (Reply id (PString "true")) (sent st')
      /\ (forall m, In m (sent st') -> isError m = true -> In m (sent st))
      /\ idToClientSubscription st' = idToClientSubscription st ∖ {[uid]}
      /\ uid ∉ idToClientSubscription st').
Proof.
  intros Hopen uid st'. subst st'. unfold handleUnsubscribe, Unsubscribe.
  fold uid. destruct st as [a n c nv vs m l subs hd tm o s].
  cbn in Hopen |- *. subst o.
  split; intros Hin; destruct (decide (uid ∈ subs)) as [Hy | Hn];
    try contradiction; cbn.
  - split; [now rewrite <- app_assoc |].
    split; [rewrite <- app_assoc; apply in_or_app; right; right; now left |].
    split; [| reflexivity].
    intros msg Hmsg Herr. rewrite <- app_assoc in Hmsg.
    apply in_app_or in Hmsg. destruct Hmsg as [H | [<- | [<- | []]]];
      [exact H | discriminate Herr | discriminate Herr].
  - split; [reflexivity |].
    split; [apply in_or_app; right; now left |].
    split; [| split; [reflexivity |]].
    2: { intros H. apply elem_of_difference in H. destruct H as [_ H].
         apply H. now apply elem_of_singleton. }
    intros msg Hmsg Herr. apply in_app_or in Hmsg.
    destruct Hmsg as [H | [<- | []]]; [exact H | discriminate Herr].
Qed.

(** *** blxr_batch_tx *)

Hypothesis Hdistinct : flagsDistinct env.







(** *** Next-validator transactions on BSC *)

Section NextValidatorBSC.

Variables (now : Z) (st : State) (id : Z) (transaction : string) (ws : Conn).
Variables (validatorsOnly sendError nodeValidation frp : bool) (fallback : Z).
Variables (n2Validator : Z * string) (older : list (Z * string)).
Variables (txBytes content : bytes) (ethTx : EthTx).

Hypothesis Hunlocked : pendingNextValidatorTxsLocked st = false.
Hypothesis Hbsc : fm_networkNum st = BSCMainnetNum env.
Hypothesis Hhex : DecodeHex env transaction = ok txBytes.
Hypothesis Hbinary : UnmarshalBinary env txBytes = ok ethTx.
Hypothesis Hchain : bigInt_Int64 (eth_ChainId ethTx) = fm_chainID st.
Hypothesis Hencode : rlp_EncodeToBytes env ethTx = ok content.
Hypothesis Hinaccessible : nearestInaccessible older (validatorStatusMap st).

(** The transaction as built and after [SetFallback]. *)
Let tx0 : Tx :=
  SetFallback
    (NewTx (eth_Hash ethTx) content (fm_networkNum st)
       (builtFlags env validatorsOnly frp) (conn_AccountID ws))
    fallback.

Let info : PendingNextValidatorTxInfo :=
  {| pi_Tx := tx0; pi_Fallback := fallback; pi_TimeOfRequest := now;
     pi_Source := ws |}.

Let run : State * SingleResult :=
  handleSingleTransaction env now st id transaction ws validatorsOnly sendError
    true fallback (Some (n2Validator :: older)) (validatorStatusMap st)
    nodeValidation frp.

Lemma builtFlags_skip_node_validation :
  nodeValidation && negb (IsNextValidator env (builtFlags env validatorsOnly frp))
  && negb (IsValidatorsOnly env (builtFlags env validatorsOnly frp)) = false.
Proof.
  unfold IsNextValidator, IsValidatorsOnly, builtFlags.
  destruct validatorsOnly, frp; rewrite !hasFlag_lor;
    rewrite ?(hasFlag_same env Hdistinct),
      ?(hasFlag_other env Hdistinct) by discriminate;
    cbn; now rewrite ?andb_false_r.
Qed.

Lemma ValidateTxFromExternalSource_bsc :
  ValidateTxFromExternalSource env now transaction txBytes validatorsOnly
    (fm_chainID st) true fallback (Some (n2Validator :: older))
    (validatorStatusMap st) (fm_networkNum st) (conn_AccountID ws)
    nodeValidation ws (pendingBSCNextValidatorTxHashToInfo st) frp
  = if negb (fallback =? 0) && (fallback <? blockIntervalBSCms env)
    then (pendingBSCNextValidatorTxHashToInfo st, ok (tx0, false))
    else (<[eth_Hash ethTx := info]> (pendingBSCNextValidatorTxHashToInfo st),
          ok (tx0, true)).
Proof.
  unfold ValidateTxFromExternalSource, ProcessNextValidatorTx.
  rewrite Hbinary, Hchain, Hencode, Hbsc, !Z.eqb_refl.
  cbn [negb andb]. rewrite andb_false_r.
  fold (blockIntervalBSCms env).
  assert (Hacc : match head older with
                 | Some n1 => default false (validatorStatusMap st !! snd n1)
                 | None => false
                 end = false).
  { unfold nearestInaccessible in Hinaccessible.
    destruct (head older); [exact Hinaccessible | reflexivity]. }
  rewrite Hacc.
  unfold TFPaidTx, TFLocalRegion, TFValidatorsOnly, TFNextValidator,
    TFFrontRunningProtection.
  change (if frp
          then Z.lor (if validatorsOnly
                      then Z.lor (Z.lor (TF env PaidTx) (TF env LocalRegion))
                             (TF env ValidatorsOnly)
                      else Z.lor (Z.lor (TF env PaidTx) (TF env LocalRegion))
                             (TF env NextValidator))
                 (TF env FrontRunningProtection)
          else if validatorsOnly
               then Z.lor (Z.lor (TF env PaidTx) (TF env LocalRegion))
                      (TF env ValidatorsOnly)
               else Z.lor (Z.lor (TF env PaidTx) (TF env LocalRegion))
                      (TF env NextValidator))
    with (builtFlags env validatorsOnly frp).
  rewrite <- Hbsc. fold tx0.
  destruct (negb (fallback =? 0) && (fallback <? blockIntervalBSCms env));
    [| reflexivity].
  change (tx_Flags tx0) with (builtFlags env validatorsOnly frp).
  now rewrite builtFlags_skip_node_validation.
Qed.

(** C8, as amended.  A BSC next-validator transaction whose nearest
    validator is not marked accessible, with a positive block duration:
    - with a fallback that is not zero and below the block duration, it
      is not stashed; it is handed to the node at once, and no timer is
      armed;
    - with a fallback at or above the block duration, it is stashed in
      the pending table and a timer is armed for [fallback] milliseconds;
      when that timer runs and the entry still exists, the entry is
      deleted and the transaction is handed to the node with the
      [NextValidator] flag cleared and fallback 0, and when the entry is
      gone nothing happens;
    - with fallback zero, it is stashed, no timer is armed and nothing is
      handed to the node. *)
Theorem next_validator_bsc_fallback :
  0 < blockIntervalBSCms env ->
  (fallback <> 0 -> fallback < blockIntervalBSCms env ->
   pendingBSCNextValidatorTxHashToInfo (fst run)
   = pendingBSCNextValidatorTxHashToInfo st
   /\ timers (fst run) = timers st
   /\ handled (fst run) = handled st ++ [(tx0, ws)]
   /\ snd run = Done (match node_HandleMsg env tx0 ws with
                      | Some _ => None
                      | None => Some (tx_Hash tx0)
                      end))
  /\ (blockIntervalBSCms env <= fallback ->
      pendingBSCNextValidatorTxHashToInfo (fst run)
      = <[tx_Hash tx0 := info]> (pendingBSCNextValidatorTxHashToInfo st)
      /\ handled (fst run) = handled st
      /\ snd run = Done (Some (tx_Hash tx0))
      /\ exists timer,
           timers (fst run) = timers st ++ [timer]
           /\ timer_tx timer = tx0 /\ timer_ws timer = ws
           /\ timer_delay timer
              = to_int64 (to_uint64 fallback * MillisecondsToNanosecondsMultiplier)
           /\ (fallback < 2 ^ 16 -> timer_delay timer = fallback * 1000000)
           /\ forall later : State,
                pendingNextValidatorTxsLocked later = false ->
                (is_Some (pendingBSCNextValidatorTxHashToInfo later !! tx_Hash tx0) ->
                 let fired := fallbackTimerFired env timer later in
                 let sentTx :=
                   SetFallback (RemoveFlags tx0 (TF env NextValidator)) 0 in
                 handled fired = handled later ++ [(sentTx, ws)]
                 /\ hasFlag env (tx_Flags sentTx) NextValidator = false
                 /\ pendingBSCNextValidatorTxHashToInfo fired
                    = delete (tx_Hash tx0)
                        (pendingBSCNextValidatorTxHashToInfo later)
                 /\ timers fired = timers later)
                /\ (pendingBSCNextValidatorTxHashToInfo later !! tx_Hash tx0 = None ->
                    fallbackTimerFired env timer later = later))
  /\ (fallback = 0 ->
      pendingBSCNextValidatorTxHashToInfo (fst run)
      = <[tx_Hash tx0 := info]> (pendingBSCNextValidatorTxHashToInfo st)
      /\ timers (fst run) = timers st
      /\ handled (fst run) = handled st
      /\ snd run = Done (Some (tx_Hash tx0))).
Proof.
  intros Hpos. subst run. unfold handleSingleTransaction.
  rewrite Hunlocked, Hhex.
  assert (Hval := ValidateTxFromExternalSource_bsc).
  destruct st as [a n c nv vs m l subs hd tm o s].
  cbn [pendingNextValidatorTxsLocked fm_chainID fm_networkNum
       pendingBSCNextValidatorTxHashToInfo validatorStatusMap set_locked
       handled timers] in *.
  rewrite Hval. clear Hval.
  split; [| split].
  - intros Hnz Hlt.
    replace (fallback =? 0) with false by (symmetry; now apply Z.eqb_neq).
    replace (fallback <? blockIntervalBSCms env) with true
      by (symmetry; now apply Z.ltb_lt).
    cbn. destruct (node_HandleMsg env tx0 ws); cbn; repeat split.
  - intros Hge.
    assert (Hnz : fallback <> 0) by lia.
    replace (fallback =? 0) with false by (symmetry; now apply Z.eqb_neq).
    replace (fallback <? blockIntervalBSCms env) with false
      by (symmetry; apply Z.ltb_ge; lia).
    cbn. repeat split. eexists. split; [reflexivity |]. cbn.
    repeat split.
    + intros Hsmall. unfold to_int64, to_uint64, two64,
        MillisecondsToNanosecondsMultiplier.
      rewrite (Z.mod_small fallback) by lia.
      rewrite Z.mod_small by lia.
      destruct (Z.ltb_spec (fallback * 1000000) (2 ^ 63)); [reflexivity | lia].
    + destruct later as [a' n' c' nv' vs' m' l' subs' hd' tm' o' s'].
      cbn in H |- *. subst l'. destruct H0 as [e He]. cbn in He.
      unfold fallbackTimerFired. cbn. rewrite He. reflexivity.
    + apply hasFlag_ldiff_same.
    + destruct later as [a' n' c' nv' vs' m' l' subs' hd' tm' o' s'].
      cbn in H |- *. subst l'. destruct H0 as [e He]. cbn in He.
      unfold fallbackTimerFired. cbn. rewrite He. reflexivity.
    + destruct later as [a' n' c' nv' vs' m' l' subs' hd' tm' o' s'].
      cbn in H |- *. subst l'. destruct H0 as [e He]. cbn in He.
      unfold fallbackTimerFired. cbn. rewrite He. reflexivity.
    + intros Hgone.
      destruct later as [a' n' c' nv' vs' m' l' subs' hd' tm' o' s'].
      cbn in H, Hgone |- *. subst l'.
      unfold fallbackTimerFired. cbn. now rewrite Hgone.
  - intros ->. cbn. repeat split.
Qed.

End NextValidatorBSC.

End HandlerFacts.

(** ** Further properties of the handler *)

Section HandlerMore.

Variable env : Env.

Local Ltac break :=
  repeat match goal with
  | |- context [if ?c then _ else _] => destruct c eqn:?
  | |- context [match ?x with _ => _ end] => destruct x eqn:?
  end.

(** What [ProcessNextValidatorTx] leaves of the transaction as it is:
    everything but the fallback and the wallets. *)
Lemma ProcessNextValidatorTx_tx (now : Z) (tx : Tx) (fallback : Z)
    (nvMap : option (list (Z * string))) (vsMap : gmap string bool)
    (networkNum : NetworkNum) (source : Conn)
    (pending : gmap N PendingNextValidatorTxInfo) :
  let tx' := fst (fst (ProcessNextValidatorTx env now tx fallback nvMap vsMap
                         networkNum source pending)) in
  tx_Hash tx' = tx_Hash tx /\ tx_Content tx' = tx_Content tx
  /\ tx_NetworkNum tx' = tx_NetworkNum tx /\ tx_Flags tx' = tx_Flags tx
  /\ tx_AccountID tx' = tx_AccountID tx.
Proof.
  unfold ProcessNextValidatorTx. break; cbn; auto.
Qed.

(** [ProcessNextValidatorTx] fails in exactly three cases: the network is
    neither BSC nor Polygon, the next-validator map is nil, or the map is
    empty.  A failed call stashes nothing. *)
Theorem ProcessNextValidatorTx_errors (now : Z) (tx : Tx) (fallback : Z)
    (nvMap : option (list (Z * string))) (vsMap : gmap string bool)
    (networkNum : NetworkNum) (source : Conn)
    (pending : gmap N PendingNextValidatorTxInfo) :
  let r := ProcessNextValidatorTx env now tx fallback nvMap vsMap networkNum
             source pending in
  ((exists msg, snd r = err msg)
   <-> (networkNum <> BSCMainnetNum env /\ networkNum <> PolygonMainnetNum env)
       \/ nvMap = None \/ nvMap = Some [])
  /\ ((exists msg, snd r = err msg) -> snd (fst r) = pending).
Proof.
  unfold ProcessNextValidatorTx.
  destruct (Z.eqb_spec networkNum (BSCMainnetNum env)) as [Eb | Eb];
    destruct (Z.eqb_spec networkNum (PolygonMainnetNum env)) as [Ep | Ep];
    cbn [negb andb];
    try (destruct nvMap as [[| n2 older] |]);
    cbn [fst snd];
    repeat match goal with
    | |- context [if ?c then _ else _] => destruct c eqn:?
    end;
    cbn [fst snd];
    (split; [split |]);
    try (intros [msg Hmsg]; discriminate Hmsg);
    try (intros _; eauto; fail);
    try (intros [[? ?] | [? | ?]]; congruence);
    try (intros; eauto; fail).
Qed.

Lemma ProcessNextValidatorTx_stash (now : Z) (tx : Tx) (fallback : Z)
    (nvMap : option (list (Z * string))) (vsMap : gmap string bool)
    (networkNum : NetworkNum) (source : Conn)
    (pending : gmap N PendingNextValidatorTxInfo) :
  let r := ProcessNextValidatorTx env now tx fallback nvMap vsMap networkNum
             source pending in
  (snd r = ok true ->
   networkNum = BSCMainnetNum env
   /\ (fallback = 0 \/ blockIntervalBSCms env <= fallback)
   /\ fst (fst r) = SetFallback tx fallback
   /\ snd (fst r)
      = <[tx_Hash tx := {| pi_Tx := SetFallback tx fallback;
                           pi_Fallback := fallback;
                           pi_TimeOfRequest := now;
                           pi_Source := source |}]> pending)
  /\ (snd r <> ok true -> snd (fst r) = pending).
Proof.
  unfold ProcessNextValidatorTx, blockIntervalBSCms.
  destruct (Z.eqb_spec networkNum (BSCMainnetNum env)) as [Eb | Eb];
    destruct (Z.eqb_spec networkNum (PolygonMainnetNum env)) as [Ep | Ep];
    cbn [negb andb];
    try (destruct nvMap as [[| n2 older] |]);
    cbn [fst snd];
    repeat match goal with
    | |- context [if ?c then _ else _] => destruct c eqn:?
    end;
    cbn [fst snd];
    (split; [intros Hr; try discriminate Hr | intros Hr; try reflexivity;
                                              try congruence]).
  all: repeat split; try reflexivity; try assumption.
  all: match goal with
       | H : negb (_ =? 0) && _ = false |- _ =>
           apply andb_false_iff in H; destruct H as [H | H];
           [ apply negb_false_iff, Z.eqb_eq in H; now left
           | apply Z.ltb_ge in H; now right ]
       end.
Qed.

(** A transaction is stashed in the pending table only on BSC, under its
    own hash, and only with a fallback that is zero or at least the block
    duration; whenever the call does not report a pending transaction the
    table is as it was. *)
Theorem ProcessNextValidatorTx_pending (now : Z) (tx : Tx) (fallback : Z)
    (nvMap : option (list (Z * string))) (vsMap : gmap string bool)
    (networkNum : NetworkNum) (source : Conn)
    (pending : gmap N PendingNextValidatorTxInfo) :
  let r := ProcessNextValidatorTx env now tx fallback nvMap vsMap networkNum
             source pending in
  (snd r = ok true ->
   networkNum = BSCMainnetNum env
   /\ (fallback = 0 \/ blockIntervalBSCms env <= fallback)
   /\ fst (fst r) = SetFallback tx fallback
   /\ snd (fst r)
      = <[tx_Hash tx := {| pi_Tx := SetFallback tx fallback;
                           pi_Fallback := fallback;
                           pi_TimeOfRequest := now;
                           pi_Source := source |}]> pending)
  /\ (snd r <> ok true -> snd (fst r) = pending).
Proof. apply ProcessNextValidatorTx_stash. Qed.

(** The wallets a next-validator transaction leaves with.  On Polygon the
    two newest validators are written nearest first, or the only one into
    slot 0, and nothing is ever stashed.  On BSC slot 0 takes the nearest
    validator when it is marked accessible, whatever the fallback, and no
    wallet is written when it is not. *)
Theorem ProcessNextValidatorTx_wallets (now : Z) (tx : Tx) (fallback : Z)
    (n2Validator : Z * string) (older : list (Z * string))
    (vsMap : gmap string bool) (networkNum : NetworkNum) (source : Conn)
    (pending : gmap N PendingNextValidatorTxInfo) :
  BSCMainnetNum env <> PolygonMainnetNum env ->
  let r := ProcessNextValidatorTx env now tx fallback
             (Some (n2Validator :: older)) vsMap networkNum source pending in
  (networkNum = PolygonMainnetNum env ->
   snd r = ok false /\ snd (fst r) = pending
   /\ tx_Fallback (fst (fst r)) = fallback
   /\ tx_WalletID (fst (fst r))
      = match head older with
        | Some n1 => (snd n1, snd n2Validator)
        | None => (snd n2Validator, snd (tx_WalletID tx))
        end)
  /\ (networkNum = BSCMainnetNum env ->
      tx_Fallback (fst (fst r)) = fallback
      /\ match head older with
         | Some n1 =>
             if default false (vsMap !! snd n1)
             then snd r = ok false /\ snd (fst r) = pending
                  /\ tx_WalletID (fst (fst r)) = (snd n1, snd (tx_WalletID tx))
             else tx_WalletID (fst (fst r)) = tx_WalletID tx
         | None => tx_WalletID (fst (fst r)) = tx_WalletID tx
         end).
Proof.
  intros Hne. unfold ProcessNextValidatorTx. split; intros ->.
  - rewrite Z.eqb_refl.
    replace (PolygonMainnetNum env =? BSCMainnetNum env) with false
      by (symmetry; apply Z.eqb_neq; congruence).
    cbn [negb andb]. destruct (head older); cbn; auto.
  - rewrite Z.eqb_refl.
    replace (BSCMainnetNum env =? PolygonMainnetNum env) with false
      by (symmetry; now apply Z.eqb_neq).
    cbn [negb andb].
    destruct (head older) as [n1 |]; [destruct (default false _) |];
      cbn [fst snd]; break; cbn; auto.
Qed.

Lemma builtFlags_hasFlag (validatorsOnly nextValidator frp : bool) :
  flagsDistinct env ->
  let txFlags :=
    let txFlags := Z.lor (TFPaidTx env) (TFLocalRegion env) in
    let txFlags :=
      if validatorsOnly then Z.lor txFlags (TFValidatorsOnly env)
      else if nextValidator then Z.lor txFlags (TFNextValidator env)
      else Z.lor txFlags (TFDeliverToNode env) in
    if frp then Z.lor txFlags (TFFrontRunningProtection env) else txFlags in
  hasFlag env txFlags PaidTx = true
  /\ hasFlag env txFlags LocalRegion = true
  /\ hasFlag env txFlags ValidatorsOnly = validatorsOnly
  /\ hasFlag env txFlags NextValidator = negb validatorsOnly && nextValidator
  /\ hasFlag env txFlags DeliverToNode
     = negb validatorsOnly && negb nextValidator
  /\ hasFlag env txFlags FrontRunningProtection = frp.
Proof.
  intros Hdistinct.
  unfold TFPaidTx, TFLocalRegion, TFValidatorsOnly, TFNextValidator,
    TFDeliverToNode, TFFrontRunningProtection.
  destruct validatorsOnly, nextValidator, frp; cbv zeta;
    rewrite !hasFlag_lor;
    rewrite ?(hasFlag_same env Hdistinct),
      ?(hasFlag_other env Hdistinct) by discriminate;
    repeat split.
Qed.

(** Every transaction [ValidateTxFromExternalSource] accepts carries
    [PaidTx] and [LocalRegion] and exactly one delivery flag:
    [ValidatorsOnly] when requested, and it wins over [next_validator];
    else [NextValidator] when requested; else [DeliverToNode].
    [FrontRunningProtection] is carried exactly when requested.  The
    transaction is built for the sender's account and the gateway's
    network, and without [next_validator] it has no fallback, no wallet,
    is never pending, and the pending table is untouched. *)
Theorem ValidateTxFromExternalSource_flags (now : Z) (transaction : string)
    (txBytes : bytes) (validatorsOnly : bool) (gatewayChainID : Z)
    (nextValidator : bool) (fallback : Z)
    (nvMap : option (list (Z * string))) (vsMap : gmap string bool)
    (networkNum : NetworkNum) (accountID : string) (nodeValidation : bool)
    (source : Conn) (pending pending' : gmap N PendingNextValidatorTxInfo)
    (frp : bool) (tx : Tx) (pendingReevaluation : bool) :
  flagsDistinct env ->
  ValidateTxFromExternalSource env now transaction txBytes validatorsOnly
    gatewayChainID nextValidator fallback nvMap vsMap networkNum accountID
    nodeValidation source pending frp
  = (pending', ok (tx, pendingReevaluation)) ->
  hasFlag env (tx_Flags tx) PaidTx = true
  /\ hasFlag env (tx_Flags tx) LocalRegion = true
  /\ hasFlag env (tx_Flags tx) ValidatorsOnly = validatorsOnly
  /\ hasFlag env (tx_Flags tx) NextValidator = negb validatorsOnly && nextValidator
  /\ hasFlag env (tx_Flags tx) DeliverToNode
     = negb validatorsOnly && negb nextValidator
  /\ hasFlag env (tx_Flags tx) FrontRunningProtection = frp
  /\ tx_AccountID tx = accountID
  /\ tx_NetworkNum tx = networkNum
  /\ (nextValidator = false ->
      tx_Fallback tx = 0 /\ tx_WalletID tx = (""%string, ""%string)
      /\ pendingReevaluation = false /\ pending' = pending).
Proof.
  intros Hdistinct.
  pose proof (builtFlags_hasFlag validatorsOnly nextValidator frp Hdistinct)
    as Hflags. cbv zeta in Hflags.
  unfold ValidateTxFromExternalSource.
  set (flags := if frp then _ else _) in *.
  destruct (match UnmarshalBinary env txBytes with
            | ok ethTx => ok ethTx | err msg => _ end) as [ethTx | msg];
    [| discriminate].
  destruct (_ && _ && _); [discriminate |].
  destruct (rlp_EncodeToBytes env ethTx) as [content | msg]; [| discriminate].
  set (tx0 := NewTx (eth_Hash ethTx) content networkNum flags accountID).
  assert (Hplain : forall (t : Tx) (p : gmap N PendingNextValidatorTxInfo),
            tx_Flags t = flags -> tx_AccountID t = accountID ->
            tx_NetworkNum t = networkNum ->
            (nextValidator = false ->
             tx_Fallback t = 0 /\ tx_WalletID t = (""%string, ""%string)
             /\ p = pending) ->
            (if nodeValidation && negb (IsNextValidator env (tx_Flags t))
                && negb (IsValidatorsOnly env (tx_Flags t))
             then match SyncedProvider env with
                  | Some SendTransaction =>
                      match SendTransaction ("0x" ++ transaction)%string with
                      | Some msg =>
                          if negb (Contains msg "already known")
                          then (p, err ("tx failed node validation with error: " ++ msg)%string)
                          else (p, ok (t, false))
                      | None => (p, ok (t, false))
                      end
                  | None =>
                      (p, err "failed to validate tx via node: no synced WS provider available")
                  end
             else (p, ok (t, false)))
            = (pending', ok (tx, pendingReevaluation)) ->
            hasFlag env (tx_Flags tx) PaidTx = true
            /\ hasFlag env (tx_Flags tx) LocalRegion = true
            /\ hasFlag env (tx_Flags tx) ValidatorsOnly = validatorsOnly
            /\ hasFlag env (tx_Flags tx) NextValidator
               = negb validatorsOnly && nextValidator
            /\ hasFlag env (tx_Flags tx) DeliverToNode
               = negb validatorsOnly && negb nextValidator
            /\ hasFlag env (tx_Flags tx) FrontRunningProtection = frp
            /\ tx_AccountID tx = accountID
            /\ tx_NetworkNum tx = networkNum
            /\ (nextValidator = false ->
                tx_Fallback tx = 0 /\ tx_WalletID tx = (""%string, ""%string)
                /\ pendingReevaluation = false /\ pending' = pending)).
  { intros t p Hf Ha Hn Hnv Hres.
    assert (Hok : (p, ok (t, false))
                  = (pending', @ok (Tx * bool) (tx, pendingReevaluation))
                  \/ False).
    { revert Hres. break; intros Hres; try discriminate Hres; auto. }
    destruct Hok as [Hok | []]. injection Hok as -> -> <-.
    rewrite Hf. destruct Hflags as (? & ? & ? & ? & ? & ?).
    repeat split; auto; now apply Hnv. }
  destruct nextValidator.
  - pose proof (ProcessNextValidatorTx_tx now tx0 fallback nvMap vsMap
                  networkNum source pending) as (_ & _ & Hn & Hf & Ha).
    destruct (ProcessNextValidatorTx env now tx0 fallback nvMap vsMap
                networkNum source pending) as [[tx1 pending1] [[|] | msg]];
      cbn [fst snd] in *; [| | discriminate].
    + intros Hres. injection Hres as <- <- <-.
      rewrite Hf. cbn. destruct Hflags as (? & ? & ? & ? & ? & ?).
      repeat split; auto; discriminate.
    + apply Hplain; auto. discriminate.
  - apply Hplain; auto.
Qed.

(** A transaction is accepted only when it decodes (as a binary
    transaction, or as RLP when that fails), its chain id is zero or the
    gateway's chain id is zero or the two agree, and it re-encodes; the
    accepted transaction has the decoded transaction's hash and the
    re-encoded bytes as content. *)
Theorem ValidateTxFromExternalSource_accepts (now : Z) (transaction : string)
    (txBytes : bytes) (validatorsOnly : bool) (gatewayChainID : Z)
    (nextValidator : bool) (fallback : Z)
    (nvMap : option (list (Z * string))) (vsMap : gmap string bool)
    (networkNum : NetworkNum) (accountID : string) (nodeValidation : bool)
    (source : Conn) (pending pending' : gmap N PendingNextValidatorTxInfo)
    (frp : bool) (tx : Tx) (pendingReevaluation : bool) :
  ValidateTxFromExternalSource env now transaction txBytes validatorsOnly
    gatewayChainID nextValidator fallback nvMap vsMap networkNum accountID
    nodeValidation source pending frp
  = (pending', ok (tx, pendingReevaluation)) ->
  exists ethTx : EthTx,
    decodeTx env txBytes = Some ethTx
    /\ (bigInt_Int64 (eth_ChainId ethTx) = 0 \/ gatewayChainID = 0
        \/ bigInt_Int64 (eth_ChainId ethTx) = gatewayChainID)
    /\ rlp_EncodeToBytes env ethTx = ok (tx_Content tx)
    /\ tx_Hash tx = eth_Hash ethTx.
Proof.
  unfold ValidateTxFromExternalSource, decodeTx.
  destruct (UnmarshalBinary env txBytes) as [ethTx | msg0];
    [| destruct (rlp_DecodeBytes env txBytes) as [ethTx | msg1];
       [| discriminate]].
  all: destruct (Z.eqb_spec (bigInt_Int64 (eth_ChainId ethTx)) 0) as [Ez | Ez];
    destruct (Z.eqb_spec gatewayChainID 0) as [Eg | Eg];
    destruct (Z.eqb_spec (bigInt_Int64 (eth_ChainId ethTx)) gatewayChainID)
      as [Ec | Ec];
    cbn [negb andb]; try discriminate.
  all: destruct (rlp_EncodeToBytes env ethTx) as [content | msg2] eqn:Eenc;
    [| discriminate].
  all: match goal with
       | |- context [NewTx ?h ?c ?n ?f ?a] => set (tx0 := NewTx h c n f a)
       end.
  all: pose proof (ProcessNextValidatorTx_tx now tx0 fallback nvMap vsMap
                     networkNum source pending) as (Hh & Hc & _).
  all: destruct (ProcessNextValidatorTx env now tx0 fallback nvMap vsMap
                   networkNum source pending) as [[tx1 pending1] res];
    cbn [fst snd] in Hh, Hc.
  all: intros Hres; exists ethTx; (split; [reflexivity |]);
    (split; [auto |]).
  all: assert (Htx : tx = tx0 \/ tx = tx1)
    by (revert Hres; destruct nextValidator; [destruct res as [[|] |] |];
        break; intros Hres; try discriminate Hres;
        injection Hres as _ <- _; auto).
  all: destruct Htx as [-> | ->]; rewrite ?Hh, ?Hc;
    (split; [exact Eenc | reflexivity]).
Qed.

(** Node validation is for plain transactions only.  For a validators-only
    or next-validator transaction, or when no validation is requested,
    the outcome does not depend on the synced provider: it is not
    consulted.  A plain transaction with validation requested is accepted
    only if there is a synced provider and it took the transaction or
    answered that it already knows it. *)
Theorem ValidateTxFromExternalSource_node_validation (now : Z)
    (transaction : string) (txBytes : bytes) (validatorsOnly : bool)
    (gatewayChainID : Z) (nextValidator : bool) (fallback : Z)
    (nvMap : option (list (Z * string))) (vsMap : gmap string bool)
    (networkNum : NetworkNum) (accountID : string) (nodeValidation : bool)
    (source : Conn) (pending : gmap N PendingNextValidatorTxInfo)
    (frp : bool) :
  flagsDistinct env ->
  let validate (e : Env) :=
    ValidateTxFromExternalSource e now transaction txBytes validatorsOnly
      gatewayChainID nextValidator fallback nvMap vsMap networkNum accountID
      nodeValidation source pending frp in
  (validatorsOnly || nextValidator || negb nodeValidation = true ->
   forall p, validate (withSyncedProvider p env) = validate env)
  /\ (validatorsOnly = false -> nextValidator = false ->
      nodeValidation = true ->
      forall accepted, snd (validate env) = ok accepted ->
      match SyncedProvider env with
      | None => False
      | Some SendTransaction =>
          match SendTransaction ("0x" ++ transaction)%string with
          | None => True
          | Some msg => Contains msg "already known" = true
          end
      end).
Proof.
  intros Hdistinct validate. subst validate. cbv beta.
  pose proof (builtFlags_hasFlag validatorsOnly nextValidator frp Hdistinct)
    as Hflags. cbv zeta in Hflags.
  split.
  - intros Hskip p. unfold ValidateTxFromExternalSource.
    change (UnmarshalBinary (withSyncedProvider p env))
      with (UnmarshalBinary env).
    change (rlp_DecodeBytes (withSyncedProvider p env))
      with (rlp_DecodeBytes env).
    change (rlp_EncodeToBytes (withSyncedProvider p env))
      with (rlp_EncodeToBytes env).
    change (SyncedProvider (withSyncedProvider p env)) with p.
    change (TFPaidTx (withSyncedProvider p env)) with (TFPaidTx env).
    change (TFLocalRegion (withSyncedProvider p env)) with (TFLocalRegion env).
    change (TFValidatorsOnly (withSyncedProvider p env))
      with (TFValidatorsOnly env).
    change (TFNextValidator (withSyncedProvider p env))
      with (TFNextValidator env).
    change (TFDeliverToNode (withSyncedProvider p env))
      with (TFDeliverToNode env).
    change (TFFrontRunningProtection (withSyncedProvider p env))
      with (TFFrontRunningProtection env).
    change (IsNextValidator (withSyncedProvider p env))
      with (IsNextValidator env).
    change (IsValidatorsOnly (withSyncedProvider p env))
      with (IsValidatorsOnly env).
    change (ProcessNextValidatorTx (withSyncedProvider p env))
      with (ProcessNextValidatorTx env).
    set (flags := if frp then _ else _) in *.
    destruct (match UnmarshalBinary env txBytes with
              | ok ethTx => ok ethTx | err msg => _ end) as [ethTx | msg];
      [| reflexivity].
    destruct (_ && _ && _); [reflexivity |].
    destruct (rlp_EncodeToBytes env ethTx) as [content | msg]; [| reflexivity].
    set (tx0 := NewTx (eth_Hash ethTx) content networkNum flags accountID).
    assert (Hcond : forall t : Tx, tx_Flags t = flags ->
              nodeValidation && negb (IsNextValidator env (tx_Flags t))
              && negb (IsValidatorsOnly env (tx_Flags t)) = false).
    { intros t ->. unfold IsNextValidator, IsValidatorsOnly.
      destruct Hflags as (_ & _ & -> & -> & _).
      destruct validatorsOnly, nextValidator, nodeValidation;
        try reflexivity; discriminate Hskip. }
    destruct nextValidator.
    + pose proof (ProcessNextValidatorTx_tx now tx0 fallback nvMap vsMap
                    networkNum source pending) as (_ & _ & _ & Hf & _).
      destruct (ProcessNextValidatorTx env now tx0 fallback nvMap vsMap
                  networkNum source pending) as [[tx1 pending1] [[|] | msg]];
        cbn [fst snd] in *; try reflexivity.
      now rewrite (Hcond tx1 Hf).
    + now rewrite (Hcond tx0 eq_refl).
  - intros -> -> -> acc. unfold ValidateTxFromExternalSource.
    set (flags := if frp then _ else _) in *.
    destruct (match UnmarshalBinary env txBytes with
              | ok ethTx => ok ethTx | err msg => _ end) as [ethTx | msg];
      [| discriminate].
    destruct (_ && _ && _); [discriminate |].
    destruct (rlp_EncodeToBytes env ethTx) as [content | msg]; [| discriminate].
    cbn [tx_Flags NewTx]. unfold IsNextValidator, IsValidatorsOnly.
    destruct Hflags as (_ & _ & -> & -> & _). cbn [negb andb].
    destruct (SyncedProvider env) as [send |]; [| discriminate].
    destruct (send _) as [msg |]; [| auto].
    destruct (Contains msg "already known"); [reflexivity | discriminate].
Qed.

(** The fallback timer sends a transaction at most once.  Running its
    function a second time changes nothing; what it hands to the node is
    the timer's transaction without the [NextValidator] flag and with
    fallback 0, on the connection of the request; and it does so exactly
    when the mutex is free and the pending entry still exists, which it
    then deletes. *)
Theorem fallbackTimerFired_once (t : Timer) (st : State) :
  let st1 := fallbackTimerFired env t st in
  let sentTx := SetFallback (RemoveFlags (timer_tx t) (TF env NextValidator)) 0 in
  fallbackTimerFired env t st1 = st1
  /\ hasFlag env (tx_Flags sentTx) NextValidator = false
  /\ (if negb (pendingNextValidatorTxsLocked st)
         && bool_decide (is_Some (pendingBSCNextValidatorTxHashToInfo st
                                    !! tx_Hash (timer_tx t)))
      then handled st1 = handled st ++ [(sentTx, timer_ws t)]
           /\ pendingBSCNextValidatorTxHashToInfo st1
              = delete (tx_Hash (timer_tx t))
                  (pendingBSCNextValidatorTxHashToInfo st)
      else st1 = st).
Proof.
  destruct st as [a n c nv vs m l subs hd tm o s].
  unfold fallbackTimerFired.
  cbn [pendingNextValidatorTxsLocked pendingBSCNextValidatorTxHashToInfo].
  split; [| split; [apply hasFlag_ldiff_same |]].
  - destruct l; [reflexivity |].
    destruct (m !! tx_Hash (timer_tx t)) as [info |] eqn:Em.
    + cbn. now rewrite lookup_delete_eq.
    + cbn. now rewrite Em.
  - destruct l; [reflexivity |]. cbn [negb andb].
    destruct (m !! tx_Hash (timer_tx t)) as [info |] eqn:Em.
    + rewrite bool_decide_eq_true_2 by eauto. split; reflexivity.
    + rewrite bool_decide_eq_false_2; [reflexivity |].
      intros [x Hx]. discriminate Hx.
Qed.

(** [handleSingleTransaction] releases the pending-transactions mutex on
    every path but one: when the hex text does not decode it returns
    with the mutex held.  From then on no call of
    [handleSingleTransaction] obtains the mutex, and no fallback timer
    does its work. *)
Theorem handleSingleTransaction_lock (now : Z) (st : State) (id : Z)
    (transaction : string) (ws : Conn) (validatorsOnly sendError : bool)
    (nextValidator : bool) (fallback : Z)
    (nvMap : option (list (Z * string))) (vsMap : gmap string bool)
    (nodeValidation frp : bool) :
  pendingNextValidatorTxsLocked st = false ->
  let r := handleSingleTransaction env now st id transaction ws validatorsOnly
             sendError nextValidator fallback nvMap vsMap nodeValidation frp in
  match DecodeHex env transaction with
  | ok _ => pendingNextValidatorTxsLocked (fst r) = false
  | err msg =>
      r = (SendErrorMsg (set_locked true st) InvalidParams msg id, Done None)
      /\ pendingNextValidatorTxsLocked (fst r) = true
      /\ (forall now' id' transaction' ws' validatorsOnly' sendError'
            nextValidator' fallback' nvMap' vsMap' nodeValidation' frp',
          handleSingleTransaction env now' (fst r) id' transaction' ws'
            validatorsOnly' sendError' nextValidator' fallback' nvMap' vsMap'
            nodeValidation' frp' = (fst r, LockHeld))
      /\ (forall t, fallbackTimerFired env t (fst r) = fst r)
  end.
Proof.
  destruct st as [a n c nv vs m l subs hd tm o s]. cbn. intros ->.
  unfold handleSingleTransaction.
  cbn [pendingNextValidatorTxsLocked set_locked fm_chainID fm_networkNum
       pendingBSCNextValidatorTxHashToInfo].
  destruct (DecodeHex env transaction) as [txContent | msg].
  - destruct (ValidateTxFromExternalSource _ _ _ _ _ _ _ _ _ _ _ _ _ _ _ _)
      as [pending [[tx [|]] | msg]]; cbn.
    + destruct (negb (fallback =? 0)); reflexivity.
    + destruct (node_HandleMsg env tx ws); reflexivity.
    + destruct sendError; [| reflexivity].
      unfold SendErrorMsg. destruct o; reflexivity.
  - unfold SendErrorMsg, fallbackTimerFired. destruct o; cbn; auto.
Qed.

(** A transaction reported as pending by [ValidateTxFromExternalSource]
    is in the table under its own hash. *)
Lemma ValidateTxFromExternalSource_pending (now : Z) (transaction : string)
    (txBytes : bytes) (validatorsOnly : bool) (gatewayChainID : Z)
    (nextValidator : bool) (fallback : Z)
    (nvMap : option (list (Z * string))) (vsMap : gmap string bool)
    (networkNum : NetworkNum) (accountID : string) (nodeValidation : bool)
    (source : Conn) (pending pending' : gmap N PendingNextValidatorTxInfo)
    (frp : bool) (tx : Tx) :
  ValidateTxFromExternalSource env now transaction txBytes validatorsOnly
    gatewayChainID nextValidator fallback nvMap vsMap networkNum accountID
    nodeValidation source pending frp
  = (pending', ok (tx, true)) ->
  nextValidator = true
  /\ exists info, pending' !! tx_Hash tx = Some info /\ pi_Tx info = tx.
Proof.
  unfold ValidateTxFromExternalSource.
  destruct (match UnmarshalBinary env txBytes with
            | ok ethTx => ok ethTx | err msg => _ end) as [ethTx | msg];
    [| discriminate].
  destruct (_ && _ && _); [discriminate |].
  destruct (rlp_EncodeToBytes env ethTx) as [content | msg]; [| discriminate].
  match goal with
  | |- context [NewTx ?h ?c ?n ?f ?a] => set (tx0 := NewTx h c n f a)
  end.
  destruct nextValidator.
  - pose proof (ProcessNextValidatorTx_stash now tx0 fallback nvMap vsMap
                  networkNum source pending) as [Hstash _].
    destruct (ProcessNextValidatorTx env now tx0 fallback nvMap vsMap
                networkNum source pending) as [[tx1 pending1] [[|] | msg]];
      cbn [fst snd] in *.
    + destruct (Hstash eq_refl) as (_ & _ & -> & ->).
      intros Hres. injection Hres as <- <-.
      split; [reflexivity |].
      eexists. split; [apply lookup_insert_eq | reflexivity].
    + break; intros Hres; discriminate Hres.
    + discriminate.
  - break; intros Hres; discriminate Hres.
Qed.

(** What one call of [handleSingleTransaction] leaves behind: at most one
    message, an error, and none when something went to the node; at most
    one transaction handed to the node; and a returned hash means that
    the transaction was handed to the node, which took it, or that it
    waits in the pending table. *)
Lemma handleSingleTransaction_outcome (now : Z) (st : State) (id : Z)
    (transaction : string) (ws : Conn) (validatorsOnly sendError : bool)
    (nextValidator : bool) (fallback : Z)
    (nvMap : option (list (Z * string))) (vsMap : gmap string bool)
    (nodeValidation frp : bool) :
  let r := handleSingleTransaction env now st id transaction ws validatorsOnly
             sendError nextValidator fallback nvMap vsMap nodeValidation frp in
  connOpen (fst r) = connOpen st
  /\ accountModel_AccountID (fst r) = accountModel_AccountID st
  /\ exists msgs new,
       sent (fst r) = sent st ++ msgs
       /\ handled (fst r) = handled st ++ new
       /\ (length msgs <= 1)%nat /\ (length new <= 1)%nat
       /\ Forall (fun m => isError m = true) msgs
       /\ Forall (fun e => snd e = ws) new
       /\ (new <> [] -> msgs = [])
       /\ match snd r with
          | Done (Some txHash) =>
              msgs = []
              /\ ((exists tx, new = [(tx, ws)] /\ tx_Hash tx = txHash
                              /\ accepted env (tx, ws) = true)
                  \/ (new = [] /\ nextValidator = true
                      /\ exists info,
                           pendingBSCNextValidatorTxHashToInfo (fst r)
                             !! txHash = Some info
                           /\ tx_Hash (pi_Tx info) = txHash))
          | Done None => Forall (fun e => accepted env e = false) new
          | NilTx => new = [] /\ msgs = [] /\ sendError = false
          | LockHeld => new = [] /\ msgs = []
          end.
Proof.
  destruct st as [a n c nv vs m l subs hd tm o s].
  unfold handleSingleTransaction.
  cbn [pendingNextValidatorTxsLocked set_locked fm_chainID fm_networkNum
       pendingBSCNextValidatorTxHashToInfo].
  destruct l.
  { cbn. repeat split. exists [], []. rewrite !app_nil_r.
    repeat split; auto. }
  destruct (DecodeHex env transaction) as [txContent | msg].
  2: { unfold SendErrorMsg. destruct o; cbn; repeat split.
       - exists [ReplyWithError id InvalidParams msg], [].
         rewrite app_nil_r. repeat split; auto. congruence.
       - exists [], []. rewrite !app_nil_r. repeat split; auto. }
  destruct (ValidateTxFromExternalSource _ _ _ _ _ _ _ _ _ _ _ _ _ _ _ _)
    as [pending [[tx [|]] | msg]] eqn:Eval.
  - apply ValidateTxFromExternalSource_pending in Eval.
    destruct Eval as (Hnv & info & Hinfo & Htx).
    destruct (negb (fallback =? 0)); cbn; repeat split;
      exists [], []; rewrite !app_nil_r; repeat split; auto;
      right; repeat split; auto; exists info; rewrite Htx; auto.
  - destruct (node_HandleMsg env tx ws) as [e |] eqn:Enode; cbn;
      repeat split; exists [], [(tx, ws)]; rewrite app_nil_r;
      repeat split; auto.
    + repeat constructor. unfold accepted. cbn. now rewrite Enode.
    + left. exists tx. repeat split. unfold accepted. cbn. now rewrite Enode.
  - destruct sendError.
    + unfold SendErrorMsg. destruct o; cbn; repeat split.
      * exists [ReplyWithError id InvalidParams msg], [].
        rewrite app_nil_r. repeat split; auto. congruence.
      * exists [], []. rewrite !app_nil_r. repeat split; auto.
    + cbn. repeat split. exists [], []. rewrite !app_nil_r.
      repeat split; auto.
Qed.

Lemma txAnswer_refl (st : State) (id : Z) : txAnswer env st st id.
Proof.
  exists [], []. rewrite !app_nil_r. repeat split; auto. intros m [].
Qed.

Lemma txAnswer_SendErrorMsg (st : State) (code : RPCErrorCode)
    (data : string) (id : Z) :
  txAnswer env st (SendErrorMsg st code data id) id.
Proof.
  destruct st as [a n c nv vs m l subs hd tm o s].
  unfold SendErrorMsg. destruct o; [| apply txAnswer_refl].
  exists [ReplyWithError id code data], []. cbn. rewrite app_nil_r.
  repeat split; auto.
  - intros H. inversion H.
  - intros m0 [<- | []] Hm. discriminate Hm.
Qed.

(** The answer to [blxr_tx].  A request writes at most one message to the
    connection and hands at most one transaction to the node.  When the
    message is not an error it is the reply with a transaction hash, and
    then that transaction was handed to the node, which took it, or it
    waits in the pending table under that hash.  When the node refuses
    the transaction nothing is written at all. *)
Theorem handleTx_reply (h : handlerObj) (now : Z) (st : State) (id : Z)
    (reqParams : result RPCTxPayload) :
  let st' := handleTx env h now st id reqParams in
  exists msgs new,
    sent st' = sent st ++ msgs /\ (length msgs <= 1)%nat
    /\ handled st' = handled st ++ new /\ (length new <= 1)%nat
    /\ (Exists (fun e => accepted env e = false) new -> msgs = [])
    /\ forall m, In m msgs -> isError m = false ->
       exists txHash,
         m = Reply id (PTxResponse txHash)
         /\ ((exists tx ws, new = [(tx, ws)] /\ tx_Hash tx = txHash
                            /\ accepted env (tx, ws) = true)
             \/ (new = []
                 /\ exists info,
                      pendingBSCNextValidatorTxHashToInfo st' !! txHash
                      = Some info
                      /\ tx_Hash (pi_Tx info) = txHash)).
Proof.
  cbv zeta. fold (txAnswer env st (handleTx env h now st id reqParams) id).
  unfold handleTx.
  destruct (negb (String.eqb _ _)).
  { destruct (String.eqb _ _);
      [apply txAnswer_refl | apply txAnswer_SendErrorMsg]. }
  destruct reqParams as [params | msg]; [| apply txAnswer_SendErrorMsg].
  destruct (_ && _); [apply txAnswer_SendErrorMsg |].
  set (ws := connFor env h st (p_OriginalSenderAccountID params)).
  pose proof (handleSingleTransaction_outcome now st id (p_Transaction params)
                ws (p_ValidatorsOnly params) true (p_NextValidator params)
                (p_Fallback params) (nextValidatorMap st)
                (validatorStatusMap st) (p_NodeValidation params)
                (p_FrontRunningProtection params))
    as (Hopen & _ & msgs & new & Hsent & Hhandled & Hlen & Hlen' & Hall
        & Hws & Hquiet & Hcase).
  destruct (handleSingleTransaction env now st id (p_Transaction params) ws
              (p_ValidatorsOnly params) true (p_NextValidator params)
              (p_Fallback params) (nextValidatorMap st)
              (validatorStatusMap st) (p_NodeValidation params)
              (p_FrontRunningProtection params))
    as [st1 [[txHash |] | |]]; cbn [fst snd] in *.
  - destruct Hcase as [-> Hcase]. rewrite app_nil_r in Hsent.
    destruct st1 as [a n c nv vs m l subs hd tm o s]. cbn in *.
    unfold reply. cbn. destruct o; cbn.
    + exists [Reply id (PTxResponse txHash)], new. rewrite Hsent.
      split; [reflexivity |]. split; [auto |]. split; [exact Hhandled |].
      split; [exact Hlen' |]. split.
      * intros Hex. exfalso.
        destruct Hcase as [(tx & -> & _ & Hacc) | (-> & _)].
        -- inversion Hex as [? ? Hf | ? ? Hf]; subst;
             [congruence | inversion Hf].
        -- inversion Hex.
      * intros m0 [<- | []] _. exists txHash. split; [reflexivity |].
        destruct Hcase as [(tx & -> & Hh & Hacc) | (-> & _ & Hinfo)];
          [left; exists tx, ws; auto | right; auto].
    + exists [], new. rewrite Hsent, app_nil_r.
      split; [reflexivity |]. split; [auto |]. split; [exact Hhandled |].
      split; [exact Hlen' |]. split; [reflexivity |]. intros m0 [].
  - exists msgs, new. repeat split; auto.
    + intros Hex. apply Hquiet. intros ->. inversion Hex.
    + intros m0 Hin Hm. rewrite Forall_forall in Hall.
      apply list_elem_of_In, Hall in Hin. congruence.
  - destruct Hcase as (_ & _ & Hse). discriminate Hse.
  - destruct Hcase as (-> & ->). exists [], [].
    repeat split; auto. intros m0 [].
Qed.

Lemma filter_not_accepted (new : list (Tx * Conn)) :
  Forall (fun e => accepted env e = false) new ->
  List.filter (accepted env) new = [].
Proof.
  induction 1 as [| e rest He _ IH]; [reflexivity |].
  cbn. now rewrite He.
Qed.

(** The loop of [blxr_batch_tx]: the messages it writes are errors, and
    the hashes it collects are those of the transactions the node took,
    in the order of the batch. *)
Lemma batchLoop_hashes (now : Z) (id : Z) (ws : Conn) (validatorsOnly : bool)
    (transactions : list string) :
  forall (st : State) (txHashes : list SHA256Hash),
  let r := batchLoop env now st id ws validatorsOnly transactions txHashes in
  connOpen (fst r) = connOpen st
  /\ exists msgs new,
       sent (fst r) = sent st ++ msgs
       /\ handled (fst r) = handled st ++ new
       /\ Forall (fun m => isError m = true) msgs
       /\ Forall (fun e => snd e = ws) new
       /\ (length new <= length transactions)%nat
       /\ forall hashes, snd r = Some hashes ->
          hashes = txHashes
                   ++ map (fun e => tx_Hash (fst e))
                        (List.filter (accepted env) new).
Proof.
  induction transactions as [| transaction rest IH]; intros st txHashes.
  - cbn. split; [reflexivity |]. exists [], []. rewrite !app_nil_r.
    repeat split; auto. intros hashes Hh. injection Hh as <-.
    reflexivity.
  - cbn [batchLoop].
    pose proof (handleSingleTransaction_outcome now st id transaction ws
                  validatorsOnly false false 0 None ∅ false false)
      as (Hopen & _ & msgs1 & new1 & Hsent & Hhandled & _ & Hlen & Hall
          & Hws & _ & Hcase).
    destruct (handleSingleTransaction env now st id transaction ws
                validatorsOnly false false 0 None ∅ false false)
      as [st1 [[txHash |] | |]]; cbn [fst snd] in *.
    + destruct Hcase as [-> [(tx & -> & Hh & Hacc) | (_ & Hnv & _)]];
        [| discriminate Hnv].
      destruct (IH st1 (txHashes ++ [txHash]))
        as (Hopen2 & msgs2 & new2 & Hsent2 & Hhandled2 & Hall2 & Hws2
            & Hlen2 & Hhashes).
      split; [congruence |].
      exists msgs2, ((tx, ws) :: new2).
      rewrite Hsent2, Hhandled2, Hsent, Hhandled, app_nil_r, <- app_assoc.
      repeat split; auto.
      * cbn. lia.
      * intros hashes Hr. rewrite (Hhashes hashes Hr), <- app_assoc.
        cbn [List.filter]. rewrite Hacc. cbn. now rewrite Hh.
    + destruct (IH st1 txHashes)
        as (Hopen2 & msgs2 & new2 & Hsent2 & Hhandled2 & Hall2 & Hws2
            & Hlen2 & Hhashes).
      split; [congruence |].
      exists (msgs1 ++ msgs2), (new1 ++ new2).
      rewrite Hsent2, Hhandled2, Hsent, Hhandled, <- !app_assoc.
      repeat split; auto.
      * now apply Forall_app.
      * now apply Forall_app.
      * rewrite length_app. cbn. lia.
      * intros hashes Hr. rewrite (Hhashes hashes Hr).
        rewrite List.filter_app, (filter_not_accepted new1 Hcase).
        reflexivity.
    + destruct Hcase as (-> & -> & _). split; [exact Hopen |].
      exists [], []. repeat split; auto; [cbn; lia | discriminate].
    + destruct Hcase as (-> & ->). split; [exact Hopen |].
      exists [], []. repeat split; auto; [cbn; lia | discriminate].
Qed.

(** The answer to [blxr_batch_tx].  Whatever the handler writes that is
    not an error is the one reply with the hashes of the transactions of
    the batch that the node took, in the order of the batch, and there is
    at least one of them; the handler hands to the node at most one
    transaction per entry of the batch. *)
Theorem batch_tx_reply (h : handlerObj) (now : Z) (st : State) (id : Z)
    (params : RPCBatchTxPayload) :
  let st' := handleBatchTx env h now st id (ok params) in
  exists msgs new,
    sent st' = sent st ++ msgs
    /\ handled st' = handled st ++ new
    /\ (length new <= length (bp_Transactions params))%nat
    /\ forall m, In m msgs -> isError m = false ->
       m = Reply id (PBatchTxResponse
                       (map (fun e => tx_Hash (fst e))
                          (List.filter (accepted env) new)))
       /\ List.filter (accepted env) new <> [].
Proof.
  unfold handleBatchTx.
  destruct (negb _).
  { exists [], []. rewrite !app_nil_r. repeat split; auto; try (cbn; lia);
      destruct H. }
  set (ws := connFor env h st (bp_OriginalSenderAccountID params)).
  pose proof (batchLoop_hashes now id ws (bp_ValidatorsOnly params)
                (bp_Transactions params) st [])
    as (Hopen & msgs & new & Hsent & Hhandled & Hall & Hws & Hlen & Hhashes).
  assert (Herrs : forall m, In m msgs -> isError m = false -> False).
  { intros m Hin Hm. rewrite Forall_forall in Hall.
    apply list_elem_of_In, Hall in Hin. congruence. }
  destruct (batchLoop env now st id ws (bp_ValidatorsOnly params)
              (bp_Transactions params) [])
    as [st1 [[| txHash hashes] |]]; cbn [fst snd] in *.
  - destruct st1 as [a n c nv vs m l subs hd tm o s]. cbn in *.
    unfold SendErrorMsg. destruct o; cbn.
    + exists (msgs ++ [ReplyWithError id InvalidParams
                         "all transactions are invalid"]), new.
      rewrite Hsent, <- app_assoc. repeat split; auto;
        apply in_app_or in H; destruct H as [H | [<- | []]];
        solve [exfalso; eauto | discriminate].
    + exists msgs, new. repeat split; auto; exfalso; eauto.
  - specialize (Hhashes _ eq_refl). cbn [app] in Hhashes.
    destruct st1 as [a n c nv vs m l subs hd tm o s]. cbn in *.
    unfold reply. cbn. destruct o; cbn.
    + exists (msgs ++ [Reply id (PBatchTxResponse (txHash :: hashes))]), new.
      rewrite Hsent, <- app_assoc. repeat split; auto;
        apply in_app_or in H; destruct H as [H | [<- | []]];
        try solve [exfalso; eauto].
      * now rewrite Hhashes.
      * intros Hnil. rewrite Hnil in Hhashes. discriminate Hhashes.
    + exists msgs, new. repeat split; auto; exfalso; eauto.
  - exists msgs, new. repeat split; auto; exfalso; eauto.
Qed.

(** What [unsubscribe] does to the registry does not depend on the
    connection.  With exactly one parameter the id it names is gone
    afterwards, where an id that does not parse stands for the nil UUID;
    with no parameters, or with more or fewer than one, the registry is
    as it was.  Nothing is handed to the node, no timer is armed and the
    pending table is untouched, and a closed connection takes no
    message. *)
Theorem handleUnsubscribe_registry (st : State) (id : Z)
    (reqParams : option (list string)) :
  let st' := handleUnsubscribe env st id reqParams in
  idToClientSubscription st'
  = match reqParams with
    | Some [p] =>
        idToClientSubscription st ∖ {[default 0%N (uuid_FromString env p)]}
    | _ => idToClientSubscription st
    end
  /\ handled st' = handled st /\ timers st' = timers st
  /\ pendingBSCNextValidatorTxHashToInfo st'
     = pendingBSCNextValidatorTxHashToInfo st
  /\ (connOpen st = false -> sent st' = sent st).
Proof.
  destruct st as [a n c nv vs m l subs hd tm o s].
  unfold handleUnsubscribe, Unsubscribe, SendErrorMsg, reply.
  destruct reqParams as [[| p [| q rest]] |]; cbn;
    try (destruct o; cbn; repeat split; auto; discriminate).
  destruct (decide (default 0%N (uuid_FromString env p) ∈ subs)) as [Hin | Hout];
    destruct o; cbn; repeat split; auto; try discriminate;
    apply leibniz_equiv; intros x;
    rewrite elem_of_difference, elem_of_singleton;
    (split; [intros Hx; split; [exact Hx | congruence] | now intros [Hx _]]).
Qed.

End HandlerMore.

(** ** Properties of authorization, feeds and batched subscriptions *)

Section AuthorizationFacts.

Context {Extensions : Type}.
Variable base64_DecodeString : string -> result string.
Variable GetAccountIDFromBxCertificate : Extensions -> string * option string.

Lemma SplitN2_Some (s accountID secretHash : string) :
  SplitN2 s = (accountID, Some secretHash)
  <-> s = (accountID ++ String colon secretHash)%string
      /\ hasColon accountID = false.
Proof.
  revert accountID. induction s as [| c rest IH]; intros accountID; cbn.
  - split; [discriminate |]. intros [H _]. destruct accountID; discriminate H.
  - destruct (Ascii.eqb c colon) eqn:Ec.
    + apply Ascii.eqb_eq in Ec. subst c. split.
      * intros H. injection H as <- <-. split; reflexivity.
      * intros [H Hc]. destruct accountID as [| d a]; cbn in *.
        -- injection H as ->. reflexivity.
        -- injection H as <- _. rewrite Ascii.eqb_refl in Hc. discriminate Hc.
    + destruct (SplitN2 rest) as [before after] eqn:Erest. split.
      * intros H. injection H as <- ->.
        destruct (proj1 (IH before) eq_refl) as [-> Hc].
        cbn. rewrite Ec. split; [reflexivity | exact Hc].
      * intros [H Hc]. destruct accountID as [| d a]; cbn in *.
        -- injection H as -> _. rewrite Ascii.eqb_refl in Ec. discriminate Ec.
        -- injection H as <- ->. rewrite Ec in Hc. cbn in Hc.
           pose proof (proj2 (IH a) (conj eq_refl Hc)) as E.
           injection E as -> ->. reflexivity.
Qed.

(** When a request is authorized.  With an [Authorization] header, exactly
    when the header decodes to an account id without colon that is not
    empty, a colon, and the secret hash, which may itself contain colons;
    the TLS state is not looked at.  Without the header, exactly when TLS
    is enabled and the first peer certificate yields an account id that
    is not empty; the secret hash is then empty.  Hence no request is
    ever authorized with an empty account id. *)
Theorem getAccountIDSecretHashFromReq_success (request : Request Extensions)
    (websocketTLSEnabled : bool) (accountID secretHash : string) :
  getAccountIDSecretHashFromReq base64_DecodeString
    GetAccountIDFromBxCertificate request websocketTLSEnabled
  = (accountID, secretHash, None)
  <-> accountID <> ""%string
      /\ if String.eqb (req_Authorization request) ""
         then secretHash = ""%string /\ websocketTLSEnabled = true
              /\ exists extensions,
                   req_PeerCertificate request = Some extensions
                   /\ GetAccountIDFromBxCertificate extensions
                      = (accountID, None)
         else base64_DecodeString (req_Authorization request)
              = ok (accountID ++ String colon secretHash)%string
              /\ hasColon accountID = false.
Proof.
  unfold getAccountIDSecretHashFromReq.
  destruct (String.eqb (req_Authorization request) "") eqn:Etoken; cbn [negb].
  - destruct websocketTLSEnabled.
    + destruct (req_PeerCertificate request) as [extensions |].
      * destruct (GetAccountIDFromBxCertificate extensions) as [acc [e |]] eqn:Ecert.
        -- split; [discriminate |].
           intros (_ & _ & _ & ext & Hext & Hc). injection Hext as <-.
           rewrite Ecert in Hc. discriminate Hc.
        -- destruct (String.eqb_spec acc "") as [-> | Hne].
           ++ split; [discriminate |].
              intros (Hacc & _ & _ & ext & Hext & Hc). injection Hext as <-.
              rewrite Ecert in Hc. injection Hc as <-. contradiction.
           ++ split.
              ** intros H. injection H as <- <-. repeat split; eauto.
              ** intros (_ & -> & _ & ext & Hext & Hc). injection Hext as <-.
                 rewrite Ecert in Hc. injection Hc as <-. reflexivity.
      * cbn. split; [discriminate |].
        intros (_ & _ & _ & ext & Hext & _). discriminate Hext.
    + cbn. split; [discriminate |]. intros (_ & _ & H & _). discriminate H.
  - destruct (base64_DecodeString (req_Authorization request))
      as [payload | e].
    + assert (Huniq : ok payload
                      = ok (accountID ++ String colon secretHash)%string
                      /\ hasColon accountID = false ->
                      SplitN2 payload = (accountID, Some secretHash)).
      { intros [H Hc]. injection H as ->. now apply SplitN2_Some. }
      destruct (SplitN2 payload) as [acc [secret |]] eqn:Esplit.
      * apply SplitN2_Some in Esplit. destruct Esplit as [-> Hc].
        destruct (String.eqb_spec acc "") as [-> | Hne].
        -- split; [discriminate |]. intros (Hacc & H).
           apply Huniq in H. injection H as <- _. contradiction.
        -- split.
           ++ intros H. injection H as <- <-. auto.
           ++ intros (_ & H). apply Huniq in H. now injection H as -> ->.
      * split; [discriminate |]. intros (_ & H).
        apply Huniq in H. discriminate H.
    + split; [discriminate |]. intros (_ & H & _). discriminate H.
Qed.

End AuthorizationFacts.

Section FeedFacts.

Variable time_Parse : string -> option Z.

Lemma Exists_In (field : string) (fields : list string) :
  Exists_ field fields = true <-> In field fields.
Proof.
  unfold Exists_. rewrite existsb_exists. split.
  - intros (x & Hx & E). apply String.eqb_eq in E. now subst.
  - intros H. exists field. split; [exact H | apply String.eqb_refl].
Qed.

Lemma checkIncludes_None (feedName : FeedType) (available includes : list string) :
  checkIncludes feedName available includes = None
  <-> Forall (fun include => In include available) includes.
Proof.
  induction includes as [| include rest IH]; cbn.
  - split; auto.
  - destruct (Exists_ include available) eqn:E; cbn.
    + rewrite IH. apply Exists_In in E. split.
      * intros H. now constructor.
      * intros H. now inversion H.
    + split; [discriminate |]. intros H. inversion H as [| ? ? Hin _]; subst.
      apply Exists_In in Hin. congruence.
Qed.

(** A subscription passes [validateFeed] exactly when the feed has not
    expired (an expiry date that does not parse counts as year 1) and
    either the feed allows filtering and lists the field "all", or every
    included field is listed and there are no filters unless the feed
    allows filtering.  So "all" admits every field only on a feed that
    allows filtering; and an include that is refused is reported as the
    first one of the request that is not listed. *)
Theorem validateFeed_ok (now : Z) (feedName : FeedType)
    (feedStreaming : BDNFeedService) (includes filters : list string) :
  (validateFeed time_Parse now feedName feedStreaming includes filters = None
   <-> now <= default zeroTime (time_Parse (ExpireDate feedStreaming))
       /\ ((AllowFiltering feedStreaming = true
            /\ In "all"%string (AvailableFields feedStreaming))
           \/ (Forall (fun include => In include (AvailableFields feedStreaming))
                 includes
               /\ (AllowFiltering feedStreaming = true \/ filters = []))))
  /\ (forall include,
        validateFeed time_Parse now feedName feedStreaming includes filters
        = Some (ErrIncludeNotAllowed feedName include) ->
        exists before after,
          includes = before ++ include :: after
          /\ ~ In include (AvailableFields feedStreaming)
          /\ Forall (fun i => In i (AvailableFields feedStreaming)) before).
Proof.
  unfold validateFeed.
  set (expire := default zeroTime (time_Parse (ExpireDate feedStreaming))).
  split.
  - destruct (Z.ltb_spec expire now) as [Hexp | Hok].
    { split; [discriminate | lia]. }
    destruct (AllowFiltering feedStreaming) eqn:Eallow; cbn [andb negb].
    + destruct (Exists_ "all" (AvailableFields feedStreaming)) eqn:Eall.
      * apply Exists_In in Eall. split; auto.
      * destruct (checkIncludes _ _ includes) as [e |] eqn:Echk.
        -- split; [discriminate |].
           intros (_ & [[_ Hall] | [Hall _]]).
           ++ apply Exists_In in Hall. congruence.
           ++ apply (checkIncludes_None feedName) in Hall. congruence.
        -- apply checkIncludes_None in Echk. split; auto 6.
    + destruct (checkIncludes _ _ includes) as [e |] eqn:Echk.
      * split; [discriminate |].
        intros (_ & [[Hf _] | [Hall _]]); [discriminate Hf |].
        apply (checkIncludes_None feedName) in Hall. congruence.
      * apply checkIncludes_None in Echk.
        destruct filters as [| f rest]; cbn.
        -- split; auto 6.
        -- split; [discriminate |].
           intros (_ & [[Hf _] | [_ [Hf | Hf]]]); discriminate Hf.
  - intros include.
    destruct (expire <? now); [discriminate |].
    destruct (_ && _); [discriminate |].
    destruct (checkIncludes _ _ includes) as [e |] eqn:Echk.
    2: { destruct (_ && _); discriminate. }
    intros H. injection H as ->. clear -Echk.
    induction includes as [| i rest IH]; [discriminate Echk |].
    cbn in Echk. destruct (Exists_ i (AvailableFields feedStreaming)) eqn:E;
      cbn in Echk.
    + destruct (IH Echk) as (before & after & -> & Hnot & Hall).
      exists (i :: before), after. repeat split; auto.
      constructor; [now apply Exists_In | exact Hall].
    + injection Echk as ->. exists [], rest. repeat split; auto.
      intros Hin. apply Exists_In in Hin. congruence.
Qed.

(** [validatePayload] accepts a call exactly when its payload has every
    required field; otherwise the error names the method and the first
    required field, in the order given, that the payload lacks. *)
Theorem validatePayload_spec (callPayload : gmap string string)
    (method : string) (requiredFields : list string) :
  (validatePayload callPayload method requiredFields = None
   <-> Forall (fun field => is_Some (callPayload !! field)) requiredFields)
  /\ (forall field m,
        validatePayload callPayload method requiredFields = Some (field, m) ->
        m = method /\ callPayload !! field = None
        /\ exists before after,
             requiredFields = before ++ field :: after
             /\ Forall (fun f => is_Some (callPayload !! f)) before).
Proof.
  induction requiredFields as [| f rest [IHnone IHsome]]; cbn.
  - split; [split; auto |]. discriminate.
  - destruct (callPayload !! f) as [v |] eqn:Ef.
    + split.
      * rewrite IHnone. split.
        -- intros H. constructor; eauto.
        -- intros H. now inversion H.
      * intros field m H.
        destruct (IHsome field m H) as (-> & Hnone & before & after & -> & Hall).
        repeat split; auto. exists (f :: before), after.
        split; [reflexivity |]. constructor; eauto.
    + split.
      * split; [discriminate |]. intros H. inversion H as [| ? ? [v Hv] _].
        congruence.
      * intros field m H. injection H as <- <-. repeat split; auto.
        exists [], rest. split; [reflexivity | constructor].
Qed.

End FeedFacts.

Section MultiTxsFacts.

Context {Notification TxResult : Type}.
Variable filterAndInclude : Notification -> option TxResult.
Variable Notify : list TxResult -> bool.
Variable SubscriptionExists : bool.

Local Abbreviation collect' := (collect filterAndInclude).
Local Abbreviation results' := (results filterAndInclude).
Local Abbreviation run' :=
  (subscribeMultiTxs filterAndInclude Notify SubscriptionExists).

Lemma collect_app (feedName : FeedType) (n : Notification)
    (result : list TxResult) :
  collect' feedName n result = result ++ collect' feedName n [].
Proof.
  unfold collect. destruct feedName; try (now rewrite app_nil_r);
    destruct (filterAndInclude n); now rewrite ?app_nil_r.
Qed.

Lemma collect_length (feedName : FeedType) (n : Notification) :
  (length (collect' feedName n []) <= 1)%nat.
Proof.
  unfold collect. destruct feedName; cbn; try lia;
    destruct (filterAndInclude n); cbn; lia.
Qed.

Lemma subscribeMultiTxs_inv (feedName : FeedType)
    (events : list (FeedEvent Notification)) :
  forall (batch : option (list TxResult)) (notified : list (list TxResult)),
  (length (default [] batch) < 50)%nat ->
  let r := run' feedName events batch notified in
  exists added,
    fst r = notified ++ added
    /\ Forall (fun b => (1 <= length b <= 50)%nat) added
    /\ (exists lost,
          default [] batch ++ results' feedName events = concat added ++ lost)
    /\ (forall batch', snd r = Waiting batch' ->
        default [] batch ++ results' feedName events
        = concat added ++ default [] batch'
        /\ (length (default [] batch') < 50)%nat).
Proof.
  induction events as [| e rest IH]; intros batch notified Hlen.
  - cbn. exists []. rewrite !app_nil_r.
    split; [reflexivity |]. split; [constructor |].
    split; [exists (default [] batch); reflexivity |].
    intros batch' Hb. injection Hb as <-. split; [reflexivity | exact Hlen].
  - assert (Hstop : forall (x : Exit TxResult) (l : list TxResult),
              (forall batch', x <> Waiting batch') ->
              exists added,
                notified = notified ++ added
                /\ Forall (fun b => (1 <= length b <= 50)%nat) added
                /\ (exists lost, l = concat added ++ lost)
                /\ (forall batch', x = Waiting batch' ->
                    l = concat added ++ default [] batch'
                    /\ (length (default [] batch') < 50)%nat)).
    { intros x l Hx. exists []. rewrite app_nil_r.
      split; [reflexivity |]. split; [constructor |].
      split; [exists l; reflexivity |].
      intros batch' Hb. now apply Hx in Hb. }
    assert (Hflush : forall result : list TxResult,
              (length result <= 50)%nat ->
              let r := if (0 <? length result)%nat
                       then if Notify result
                            then run' feedName rest None (notified ++ [result])
                            else (notified, NotifyFailed)
                       else run' feedName rest None notified in
              exists added,
                fst r = notified ++ added
                /\ Forall (fun b => (1 <= length b <= 50)%nat) added
                /\ (exists lost,
                      result ++ results' feedName rest = concat added ++ lost)
                /\ (forall batch', snd r = Waiting batch' ->
                    result ++ results' feedName rest
                    = concat added ++ default [] batch'
                    /\ (length (default [] batch') < 50)%nat)).
    { intros result Hres.
      destruct (Nat.ltb_spec 0 (length result)) as [Hpos | Hzero].
      - destruct (Notify result).
        + destruct (IH None (notified ++ [result])) as
            (added & Hfst & Hall & (lost & Hlost) & Hwait); [cbn; lia |].
          cbn [default app] in *.
          exists (result :: added). cbn [concat].
          split; [rewrite Hfst, <- app_assoc; reflexivity |].
          split; [constructor; [lia | exact Hall] |].
          split; [exists lost; rewrite Hlost; apply app_assoc |].
          intros batch' Hb. destruct (Hwait batch' Hb) as [Hres' Hlen'].
          split; [rewrite Hres'; apply app_assoc | exact Hlen'].
        + apply Hstop. discriminate.
      - assert (result = []) as ->
          by (destruct result; [reflexivity | cbn in *; lia]).
        destruct (IH None notified) as
          (added & Hfst & Hall & Hlost & Hwait); [cbn; lia |].
        cbn [default app] in *. exists added. auto. }
    destruct e as [| | n |]; cbn [subscribeMultiTxs results].
    + destruct batch; apply Hstop; discriminate.
    + destruct batch; apply Hstop; discriminate.
    + pose proof (collect_length feedName n) as Hone.
      destruct batch as [result |]; cbn [from_option id app] in Hlen |- *.
      * rewrite (collect_app feedName n result).
        set (result' := result ++ collect' feedName n []).
        assert (Hres : (length result' <= 50)%nat)
          by (subst result'; rewrite length_app; lia).
        replace (result ++ collect' feedName n [] ++ results' feedName rest)
          with (result' ++ results' feedName rest)
          by (subst result'; now rewrite <- app_assoc).
        destruct (Nat.leb_spec 50 (length result')) as [Hfull | Hroom].
        -- apply (Hflush result' Hres).
        -- apply (IH (Some result') notified). cbn. lia.
      * apply (IH (Some (collect' feedName n [])) notified). cbn. lia.
    + destruct batch as [result |]; cbn [from_option id app] in Hlen |- *.
      * apply (Hflush result). lia.
      * apply (IH None notified). cbn. lia.
Qed.

(** What a batching subscription sends.  Every notification carries at
    least one and at most 50 results.  Put end to end, the notifications
    are an initial part of the results of the arrived transactions, in
    the order of arrival: nothing is sent twice or out of order.  As long
    as the loop is running nothing is lost either: what has not been
    sent is the batch being collected.  (A batch that is being collected
    when the connection goes away, the feed is closed or a notification
    fails is dropped.)  On a feed other than [newTxs] and [pendingTxs]
    nothing is ever sent. *)
Theorem subscribeMultiTxs_batches (feedName : FeedType)
    (events : list (FeedEvent Notification)) :
  let r := run' feedName events None [] in
  Forall (fun b => (1 <= length b <= 50)%nat) (fst r)
  /\ (exists lost, results' feedName events = concat (fst r) ++ lost)
  /\ (forall batch, snd r = Waiting batch ->
      results' feedName events = concat (fst r) ++ default [] batch)
  /\ (feedName <> NewTxsFeed -> feedName <> PendingTxsFeed -> fst r = []).
Proof.
  destruct (subscribeMultiTxs_inv feedName events None [])
    as (added & Hfst & Hall & (lost & Hlost) & Hwait); [cbn; lia |].
  cbn [default app] in *. cbv zeta. rewrite Hfst.
  split; [exact Hall |]. split; [exists lost; exact Hlost |].
  split; [intros batch Hb; now destruct (Hwait batch Hb) |].
  intros Hn Hp.
  assert (Hnil : results' feedName events = []).
  { clear -Hn Hp. induction events as [| [| | n |] rest IH]; cbn; auto.
    rewrite IH. unfold collect. destruct feedName; auto; contradiction. }
  rewrite Hnil in Hlost. symmetry in Hlost.
  apply app_eq_nil in Hlost. destruct Hlost as [Hc _].
  destruct added as [| b rest]; [reflexivity |].
  inversion Hall as [| ? ? Hb _]; subst. cbn in Hc.
  apply app_eq_nil in Hc. destruct Hc as [-> _]. cbn in Hb. lia.
Qed.

End MultiTxsFacts.

Lemma ProcessNextValidatorTx_wallets_witness :
  let r := ProcessNextValidatorTx env0 1000 (nvTx 0) 500
             (Some [(101, "0xB"%string); (100, "0xA"%string)]) ∅ 137 ws0 ∅ in
  snd r = ok false /\ snd (fst r) = ∅
  /\ tx_Fallback (fst (fst r)) = 500
  /\ tx_WalletID (fst (fst r)) = ("0xA"%string, "0xB"%string).
Proof.
  apply (ProcessNextValidatorTx_wallets env0 1000 (nvTx 0) 500
           (101, "0xB"%string) [(100, "0xA"%string)] ∅ 137 ws0 ∅).
  - discriminate.
  - reflexivity.
Defined.

Lemma ValidateTxFromExternalSource_flags_witness :
  hasFlag env0 (tx_Flags voTx) PaidTx = true
  /\ hasFlag env0 (tx_Flags voTx) LocalRegion = true
  /\ hasFlag env0 (tx_Flags voTx) ValidatorsOnly = true
  /\ hasFlag env0 (tx_Flags voTx) NextValidator = false
  /\ hasFlag env0 (tx_Flags voTx) DeliverToNode = false
  /\ hasFlag env0 (tx_Flags voTx) FrontRunningProtection = true
  /\ tx_AccountID voTx = "acc"%string
  /\ tx_NetworkNum voTx = 56.
Proof.
  pose proof (ValidateTxFromExternalSource_flags env0 1000 "f86b"
                [0xf8; 0x6b] true 56 true 1000
                (Some [(101, "0xB"%string); (100, "0xA"%string)]) ∅ 56 "acc"
                true ws0 ∅ ∅ true voTx false flagsDistinct_env0) as H.
  destruct H as (H1 & H2 & H3 & H4 & H5 & H6 & H7 & H8 & _);
    [reflexivity | auto 10].
Defined.

Lemma ValidateTxFromExternalSource_accepts_witness :
  exists ethTx : EthTx,
    decodeTx env0 [0xf8; 0x6b] = Some ethTx
    /\ (bigInt_Int64 (eth_ChainId ethTx) = 0 \/ 56 = 0
        \/ bigInt_Int64 (eth_ChainId ethTx) = 56)
    /\ rlp_EncodeToBytes env0 ethTx = ok (tx_Content voTx)
    /\ tx_Hash voTx = eth_Hash ethTx.
Proof.
  apply (ValidateTxFromExternalSource_accepts env0 1000 "f86b"
           [0xf8; 0x6b] true 56 true 1000
           (Some [(101, "0xB"%string); (100, "0xA"%string)]) ∅ 56 "acc"
           true ws0 ∅ ∅ true voTx false).
  reflexivity.
Defined.

Lemma ValidateTxFromExternalSource_node_validation_witness :
  ValidateTxFromExternalSource (withSyncedProvider refusing env0) 1000 "f86b"
    [0xf8; 0x6b] true 56 false 0 None ∅ 56 "acc" true ws0 ∅ false
  = ValidateTxFromExternalSource env0 1000 "f86b"
      [0xf8; 0x6b] true 56 false 0 None ∅ 56 "acc" true ws0 ∅ false.
Proof.
  pose proof (ValidateTxFromExternalSource_node_validation env0 1000 "f86b"
                [0xf8; 0x6b] true 56 false 0 None ∅ 56 "acc" true ws0 ∅ false
                flagsDistinct_env0) as H.
  destruct H as [Hskip _]. apply Hskip. reflexivity.
Defined.

Lemma handleSingleTransaction_lock_witness :
  let r := handleSingleTransaction env0 1000 st0 3 "zz" ws0 false true false 0
             None ∅ false false in
  r = (SendErrorMsg (set_locked true st0) InvalidParams
         "encoding/hex: invalid byte" 3, Done None)
  /\ pendingNextValidatorTxsLocked (fst r) = true
  /\ handleSingleTransaction env0 2000 (fst r) 4 "f86b" ws0 false true false 0
       None ∅ false false = (fst r, LockHeld).
Proof.
  pose proof (handleSingleTransaction_lock env0 1000 st0 3 "zz" ws0 false true
                false 0 None ∅ false false) as H.
  destruct H as (Hr & Hlock & Hnext & _); [reflexivity |].
  split; [exact Hr |]. split; [exact Hlock |]. apply Hnext.
Defined.

Lemma unsubscribe_replies_witness :
  sent (handleUnsubscribe env0 st0 7 (Some ["sub-2"%string]))
  = [Reply 7 (PString "false"); Reply 7 (PString "true")]
  /\ sent (handleUnsubscribe env0 st0 8 (Some ["sub-1"%string]))
     = [Reply 8 (PString "true")].
Proof.
  destruct (unsubscribe_replies env0 st0 7 "sub-2" eq_refl) as [Hunknown _].
  destruct (unsubscribe_replies env0 st0 8 "sub-1" eq_refl) as [_ Hknown].
  split.
  - apply Hunknown. cbn. intros H. apply elem_of_singleton in H. discriminate H.
  - apply Hknown. cbn. apply elem_of_singleton. reflexivity.
Defined.


(** What the sample batch leaves behind: two transactions handed to the
    node and one reply with their hashes. *)
Example batch0_run :
  let st' := handleBatchTx env0 h0 1000 st0 9 (ok batch0) in
  map (fun e => tx_Flags (fst e)) (handled st') = [0x222; 0x222]
  /\ sent st' = [Reply 9 (PBatchTxResponse [4242%N; 4242%N])]
  /\ timers st' = [].
Proof. repeat split. Qed.

(** With a fallback of five seconds the sample transaction is stashed and
    nothing is handed to the node yet. *)
Lemma next_validator_bsc_fallback_witness :
  let r := handleSingleTransaction env0 1000 st0 3 "f86b" ws0 false true true
             5000 (Some [(101, "0xB"%string); (100, "0xA"%string)]) ∅
             false false in
  pendingBSCNextValidatorTxHashToInfo (fst r)
  = <[4242%N := {| pi_Tx := nvTx 5000; pi_Fallback := 5000;
                   pi_TimeOfRequest := 1000; pi_Source := ws0 |}]> ∅
  /\ handled (fst r) = []
  /\ snd r = Done (Some 4242%N).
Proof.
  destruct (next_validator_bsc_fallback env0 flagsDistinct_env0 1000 st0 3
              "f86b" ws0 false true false false 5000 (101, "0xB"%string)
              [(100, "0xA"%string)] [0xf8; 0x6b] [0xf8; 0x6b] ethTx0
              eq_refl eq_refl eq_refl eq_refl eq_refl eq_refl eq_refl eq_refl)
    as (_ & Hstash & _).
  destruct Hstash as (Hp & Hh & Hr & _); [vm_compute; discriminate |].
  repeat split; assumption.
Defined.

(** C8 as stated fails at fallback 0, which is below the block duration
    of 3000 ms: the transaction is stashed, nothing is handed to the
    node, and no timer is armed. *)
Lemma next_validator_bsc_fallback_counterexample :
  let r := handleSingleTransaction env0 1000 st0 3 "f86b" ws0 false true true
             0 (nextValidatorMap st0) (validatorStatusMap st0) false false in
  0 < blockIntervalBSCms env0
  /\ nearestInaccessible [(100, "0xA"%string)] (validatorStatusMap st0)
  /\ pendingBSCNextValidatorTxHashToInfo (fst r) !! 4242%N
     = Some {| pi_Tx := nvTx 0; pi_Fallback := 0; pi_TimeOfRequest := 1000;
               pi_Source := ws0 |}
  /\ handled (fst r) = []
  /\ timers (fst r) = []
  /\ snd r = Done (Some 4242%N).
Proof. repeat split. Qed.

(** The same request with a fallback of one second is handed to the node
    at once, still flagged as a next-validator transaction. *)
Example next_validator_short_fallback :
  let r := handleSingleTransaction env0 1000 st0 3 "f86b" ws0 false true true
             1000 (nextValidatorMap st0) (validatorStatusMap st0) false false in
  handled (fst r) = [(nvTx 1000, ws0)]
  /\ hasFlag env0 (tx_Flags (nvTx 1000)) NextValidator = true
  /\ pendingBSCNextValidatorTxHashToInfo (fst r) = ∅
  /\ timers (fst r) = [].
Proof. repeat split. Qed.

(** Sixty transactions arrive before the consumer comes back to an empty
    feed: one batch of 50 is sent, and then one of 10. *)
Example subscribeMultiTxs_sixty :
  let events := map Arrived (seq 0 60) ++ [NothingReady] in
  subscribeMultiTxs (fun n : nat => Some n) (fun _ => true) true NewTxsFeed
    events None []
  = ([seq 0 50; seq 50 10], Waiting None).
Proof. reflexivity. Qed.

(** A header that decodes to "acc:se:cret" authorizes account "acc" with
    the secret hash "se:cret"; without a colon it is refused. *)
Example getAccountIDSecretHashFromReq_colons :
  let decode (s : string) : result string := ok s in
  let cert (_ : unit) : string * option string := (""%string, None) in
  getAccountIDSecretHashFromReq decode cert
    {| req_Authorization := "acc:se:cret"; req_Method := "GET";
       req_PeerCertificate := None |} false
  = ("acc"%string, "se:cret"%string, None)
  /\ getAccountIDSecretHashFromReq decode cert
       {| req_Authorization := "acc"; req_Method := "GET";
          req_PeerCertificate := None |} false
     = (""%string, ""%string, Some (ErrInvalidAuthorization "acc" "acc")).
Proof. split; reflexivity. Qed.

End ClientHandler.
